(** * makeDate.cpp: calendar constructors of ClickHouse

    A shallow embedding of [src/Functions/makeDate.cpp]:
    makeDate, makeDate32, makeDateTime, makeDateTime64, YYYYMMDDToDate,
    YYYYMMDDToDate32, YYYYMMDDhhmmssToDateTime and
    YYYYMMDDhhmmssToDateTime64.

    Columns are lists of rows.  Float32 and Float64 cells are IEEE 754 values
    in the representation of the standard library ([spec_float]: sign,
    mantissa, binary exponent).  Fixed-width integers are values of [Z]; the
    conversions of the source are written out.  The calendar lookup table
    ([DateLUTImpl]) is not part of the file and is a parameter.  The loops
    over the rows come first, on converted columns; the functions on the
    arguments of a call ([getReturnTypeImpl], [executeImpl] with
    [extractTimezone] and [extractPrecision]) are in the module [Call]. *)

From Stdlib Require Import ZArith QArith Qround Lia List String Bool.
From Stdlib Require Import SpecFloat.
Import ListNotations.

Local Open Scope Z_scope.

(** ** Fixed-width integers *)

Module Int.

(** Conversion to an unsigned type of [w] bits. *)
Definition to_unsigned (w : Z) (z : Z) : Z := z mod 2 ^ w.

(** Conversion to a signed (two's complement) type of [w] bits. *)
Definition to_signed (w : Z) (z : Z) : Z :=
  (z + 2 ^ (w - 1)) mod 2 ^ w - 2 ^ (w - 1).

Definition to_UInt8 := to_unsigned 8.
Definition to_UInt16 := to_unsigned 16.
Definition to_UInt32 := to_unsigned 32.
Definition to_Int16 := to_signed 16.
Definition to_Int32 := to_signed 32.
Definition to_Int64 := to_signed 64.

Definition INT64_MIN : Z := - 2 ^ 63.
Definition INT64_MAX : Z := 2 ^ 63 - 1.

(** [a / b] and [a % b] of C++ truncate toward zero. *)
Definition div (a b : Z) : Z := Z.quot a b.
Definition rem (a b : Z) : Z := Z.rem a b.

End Int.

(** ** IEEE 754 values *)

Module IEEE.

(** The cells of Float32 and Float64 columns. *)
Abbreviation Float32 := spec_float (only parsing).
Abbreviation Float64 := spec_float (only parsing).

(** Well-formed cells of the two column types. *)
Definition is_Float32 (x : spec_float) : bool := valid_binary 24 128 x.
Definition is_Float64 (x : spec_float) : bool := valid_binary 53 1024 x.

Definition isnan (x : spec_float) : bool :=
  match x with S754_nan => true | _ => false end.

Definition isinf (x : spec_float) : bool :=
  match x with S754_infinity _ => true | _ => false end.

Definition is_finite (x : spec_float) : bool :=
  match x with S754_zero _ | S754_finite _ _ _ => true | _ => false end.

Definition signbit (x : spec_float) : bool :=
  match x with
  | S754_zero s | S754_infinity s | S754_finite s _ _ => s
  | S754_nan => false
  end.

(** The exact value of a finite cell, [(-1)^s * m * 2^e]; 0 elsewhere. *)
Definition F2Q (x : spec_float) : Q :=
  match x with
  | S754_finite s m e =>
      match e with
      | Zneg k => Qmake (cond_Zopp s (Zpos m)) (2 ^ k)%positive
      | _ => inject_Z (cond_Zopp s (Zpos m) * 2 ^ e)
      end
  | _ => 0%Q
  end.

(** Comparison with an integer operand.  C++ converts the integer to the
    floating type first; every integer this file compares a cell with is
    exactly representable there, so the comparison is the one of the exact
    values.  [None] is the unordered result (NaN). *)
Definition compare_Z (x : spec_float) (z : Z) : option comparison :=
  match x with
  | S754_nan => None
  | S754_infinity s => Some (if s then Lt else Gt)
  | _ => Some (Qcompare (F2Q x) (inject_Z z))
  end.

(** Comparison of two cells on their exact values. *)
Definition compare (x y : spec_float) : option comparison :=
  match x, y with
  | S754_nan, _ | _, S754_nan => None
  | S754_infinity s1, S754_infinity s2 =>
      Some (match s1, s2 with
            | true, false => Lt | false, true => Gt | _, _ => Eq end)
  | S754_infinity s, _ => Some (if s then Lt else Gt)
  | _, S754_infinity s => Some (if s then Gt else Lt)
  | _, _ => Some (Qcompare (F2Q x) (F2Q y))
  end.

(** Conversion of a floating value to an integer type discards the
    fractional part (truncation toward zero).  The result before it is
    fitted to the width of the target type. *)
Definition trunc (x : spec_float) : Z :=
  match x with
  | S754_finite _ _ _ => Z.quot (Qnum (F2Q x)) (Zpos (Qden (F2Q x)))
  | _ => 0
  end.

(** Round to the nearest integer, halfway cases away from zero. *)
Definition round_half_away (q : Q) : Z :=
  let n := Qnum q in
  let d := Zpos (Qden q) in
  Z.sgn n * ((2 * Z.abs n + d) / (2 * d)).

(** [std::llround]: the rounded value when it fits [long long]; outside
    of that range the C standard leaves the result unspecified, and the
    value here is the one of x86-64 ([LLONG_MIN]). *)
Definition llround (x : spec_float) : Z :=
  match x with
  | S754_zero _ => 0
  | S754_finite _ _ _ =>
      let r := round_half_away (F2Q x) in
      if (Int.INT64_MIN <=? r) && (r <=? Int.INT64_MAX) then r
      else Int.INT64_MIN
  | _ => Int.INT64_MIN
  end.

(** Conversion of an integer to a floating type: round to nearest, ties
    to even. *)
Definition of_Z (prec emax : Z) (z : Z) : spec_float :=
  binary_normalize prec emax z 0 false.

Definition Float32_of_Z : Z -> Float32 := of_Z 24 128.
Definition Float64_of_Z : Z -> Float64 := of_Z 53 1024.

(** Arithmetic of Float64. *)
Definition sub64 (x y : Float64) : Float64 := SFsub 53 1024 x y.
Definition mul64 (x y : Float64) : Float64 := SFmul 53 1024 x y.

End IEEE.

(** ** Exceptions *)

Inductive ErrorCode := BAD_ARGUMENTS | ARGUMENT_OUT_OF_BOUND | ILLEGAL_TYPE_OF_ARGUMENT.

Record Exception := { code : ErrorCode; message : string }.

Inductive result (A : Type) :=
| Ok (a : A)
| Throw (e : Exception).
Arguments Ok {A} a.
Arguments Throw {A} e.

Definition bind {A B} (r : result A) (k : A -> result B) : result B :=
  match r with
  | Ok a => k a
  | Throw e => Throw e
  end.

Notation "x <- r ;; k" := (bind r (fun x => k))
  (at level 61, r at next level, right associativity).

(** The loop over the rows of a column: the first row that throws ends the
    call, and the column built so far is dropped. *)
Fixpoint for_rows {A B} (body : A -> result B) (rows : list A) : result (list B) :=
  match rows with
  | [] => Ok []
  | r :: rows' =>
      b <- body r ;;
      bs <- for_rows body rows' ;;
      Ok (b :: bs)
  end.

(** ** The calendar lookup table

    [DateLUTImpl] (Common/DateLUTImpl.h) is used by the file and is not part
    of it.  A table gives the day number of a date ([Int16] year, [UInt8]
    month and day; an [Int32] count of days since 1970-01-01) and the time of
    a date and time of day ([Int64] seconds since the epoch in the time zone
    of the table).  [DATE_LUT_MIN_YEAR] and [DATE_LUT_MAX_YEAR] are macros of
    the same header, the first and last year a table covers. *)

Record DateLUTImpl := {
  DATE_LUT_MIN_YEAR : Z;
  DATE_LUT_MAX_YEAR : Z;
  makeDayNum : Z -> Z -> Z -> Z;
  makeDateTime : Z -> Z -> Z -> Z -> Z -> Z -> Z
}.

(** [DateLUT::instance(time_zone)]: the table of a time zone; the empty name
    is the time zone of the server. *)
Definition DateLUT := string -> DateLUTImpl.

(** ** Decimal composition *)

Module DecimalUtils.

(** Modelled from the spec: [common::exp10_i32], which is not part of the
    file: the power of ten that scales a fraction of [precision] digits. *)
Definition exp10_i32 (precision : Z) : Z := 10 ^ precision.

(** Modelled from the spec: [DecimalUtils::decimalFromComponents]
    (Core/DecimalFunctions.h is not part of the file).  The packed value is
    [whole * 10^scale + fractional], and the fraction takes the sign of a
    negative whole part. *)
Definition decimalFromComponents (whole fractional scale : Z) : Z :=
  let fractional_sign := if whole <? 0 then -1 else 1 in
  whole * 10 ^ scale + fractional_sign * fractional.

End DecimalUtils.

(** ** Numeric cells

    [FunctionDateTimeBase::dateTime] is a template over the type of its
    fields: [Float32] for the field constructors, [long long] for the packed
    ones.  The operations it uses on a field. *)

Class Numeric (T : Type) := {
  std_isnan : T -> bool;
  cmp : T -> Z -> option comparison;   (* comparison with an integer constant *)
  to_integer : T -> Z                  (* the value of [static_cast] to an integer type *)
}.

Definition less {T} `{Numeric T} (x : T) (c : Z) : bool :=
  match cmp x c with Some Lt => true | _ => false end.
Definition greater {T} `{Numeric T} (x : T) (c : Z) : bool :=
  match cmp x c with Some Gt => true | _ => false end.
Definition less_equal {T} `{Numeric T} (x : T) (c : Z) : bool :=
  match cmp x c with Some (Lt | Eq) => true | _ => false end.
Definition greater_equal {T} `{Numeric T} (x : T) (c : Z) : bool :=
  match cmp x c with Some (Gt | Eq) => true | _ => false end.

#[export] Instance Numeric_float : Numeric spec_float := {|
  std_isnan := IEEE.isnan;
  cmp := IEEE.compare_Z;
  to_integer := IEEE.trunc
|}.

#[export] Instance Numeric_long_long : Numeric Z := {|
  std_isnan := fun _ => false;
  cmp := fun x c => Some (Z.compare x c);
  to_integer := fun x => x
|}.

(** ** DateTraits and Date32Traits *)

Inductive Traits := DateTraits | Date32Traits.

Definition makeDateName (tr : Traits) : string :=
  match tr with DateTraits => "makeDate" | Date32Traits => "makeDate32" end.

Definition YYYYMMDDName (tr : Traits) : string :=
  match tr with DateTraits => "YYYYMMDDToDate" | Date32Traits => "YYYYMMDDToDate32" end.

Definition MIN_YEAR (tr : Traits) : Z :=
  match tr with DateTraits => 1970 | Date32Traits => 1900 end.

Definition MAX_YEAR (tr : Traits) : Z :=
  match tr with DateTraits => 2149 | Date32Traits => 2299 end.

Definition MAX_DATE (tr : Traits) : Z * Z * Z :=
  match tr with
  | DateTraits => (MAX_YEAR DateTraits, 6, 6)
  | Date32Traits => (MAX_YEAR Date32Traits, 12, 31)
  end.

(** [ReturnDataType::ColumnType]: a Date column holds [UInt16] cells, a
    Date32 column [Int32] cells.  The assignment [result_data[i] = day_num]
    converts the [Int32] day number to the cell type. *)
Definition store (tr : Traits) (day_num : Z) : Z :=
  match tr with
  | DateTraits => Int.to_UInt16 day_num
  | Date32Traits => Int.to_Int32 day_num
  end.

(** ** FunctionMakeDate: makeDate, makeDate32 *)

Module FunctionMakeDate.

Definition max_days_since_epoch (tr : Traits) (date_lut : DateLUTImpl) : Z :=
  let '(y, m, d) := MAX_DATE tr in makeDayNum date_lut y m d.

(** The body of the loop of the (year, month, day) variant. *)
Definition year_month_day (tr : Traits) (date_lut : DateLUTImpl)
    (year month day : IEEE.Float32) : Z :=
  let day_num :=
    if greater_equal year (MIN_YEAR tr) && less_equal year (MAX_YEAR tr) &&
       greater_equal month 1 && less_equal month 12 &&
       greater_equal day 1 && less_equal day 31
    then
      let days_since_epoch :=
        makeDayNum date_lut (Int.to_Int16 (to_integer year))
          (Int.to_UInt8 (to_integer month)) (Int.to_UInt8 (to_integer day)) in
      if days_since_epoch <=? max_days_since_epoch tr date_lut
      then days_since_epoch else 0
    else 0 in
  store tr day_num.

(** The body of the loop of the (year, dayofyear) variant.  The sum is an
    [Int32] sum; signed overflow is undefined in C++ and a day number is
    far from the ends of the range, so the sum is the one of [Z]. *)
Definition year_dayofyear (tr : Traits) (date_lut : DateLUTImpl)
    (year dayofyear : IEEE.Float32) : Z :=
  let day_num :=
    if greater_equal year (MIN_YEAR tr) && less_equal year (MAX_YEAR tr) &&
       greater_equal dayofyear 1 && less_equal dayofyear 365
    then
      let days_since_epoch :=
        makeDayNum date_lut (Int.to_Int16 (to_integer year)) 1 1
        + Int.to_Int32 (to_integer dayofyear) - 1 in
      if days_since_epoch <=? max_days_since_epoch tr date_lut
      then days_since_epoch else 0
    else 0 in
  store tr day_num.

(** The converted arguments: three columns or two, row by row. *)
Inductive Arguments :=
| YearMonthDay (rows : list (IEEE.Float32 * IEEE.Float32 * IEEE.Float32))
| YearDayOfYear (rows : list (IEEE.Float32 * IEEE.Float32)).

Definition executeImpl (tr : Traits) (instance : DateLUT) (arguments : Arguments)
    : list Z :=
  let date_lut := instance EmptyString in
  match arguments with
  | YearMonthDay rows =>
      map (fun '(year, month, day) => year_month_day tr date_lut year month day) rows
  | YearDayOfYear rows =>
      map (fun '(year, dayofyear) => year_dayofyear tr date_lut year dayofyear) rows
  end.

End FunctionMakeDate.

(** ** FunctionYYYYYMMDDToDate: YYYYMMDDToDate, YYYYMMDDToDate32 *)

Definition must_be_finite (name : string) : Exception :=
  {| code := BAD_ARGUMENTS;
     message := ("Argument for function " ++ name ++ " must be finite")%string |}.

Module FunctionYYYYYMMDDToDate.

(** The body of the loop after the test of the cell. *)
Definition day_num (tr : Traits) (date_lut : DateLUTImpl) (x : IEEE.Float64) : Z :=
  let yyyymmdd := IEEE.llround x in
  let year := Int.div yyyymmdd 10000 in
  let month := Int.rem (Int.div yyyymmdd 100) 100 in
  let day := Int.rem yyyymmdd 100 in
  let day_num :=
    if greater_equal year (MIN_YEAR tr) && less_equal year (MAX_YEAR tr) &&
       greater_equal month 1 && less_equal month 12 &&
       greater_equal day 1 && less_equal day 31
    then
      let days_since_epoch :=
        makeDayNum date_lut (Int.to_Int16 year) (Int.to_UInt8 month) (Int.to_UInt8 day) in
      if days_since_epoch <=? FunctionMakeDate.max_days_since_epoch tr date_lut
      then days_since_epoch else 0
    else 0 in
  store tr day_num.

Definition row (tr : Traits) (date_lut : DateLUTImpl) (x : IEEE.Float64) : result Z :=
  if IEEE.isinf x || IEEE.isnan x then Throw (must_be_finite (YYYYMMDDName tr))
  else Ok (day_num tr date_lut x).

Definition executeImpl (tr : Traits) (instance : DateLUT)
    (yyyymmdd_data : list IEEE.Float64) : result (list Z) :=
  for_rows (row tr (instance EmptyString)) yyyymmdd_data.

End FunctionYYYYYMMDDToDate.

(** ** FunctionDateTimeBase: what makeDateTime, makeDateTime64,
    YYYYMMDDhhmmssToDateTime and YYYYMMDDhhmmssToDateTime64 share *)

Module FunctionDateTimeBase.

Definition DEFAULT_PRECISION : Z := 3.

Definition minDateTime (lut : DateLUTImpl) : Z :=
  makeDateTime lut (DATE_LUT_MIN_YEAR lut - 1) 1 1 0 0 0.

Definition maxDateTime (lut : DateLUTImpl) : Z :=
  makeDateTime lut (DATE_LUT_MAX_YEAR lut + 1) 1 1 23 59 59.

Definition dateTime {T} `{Numeric T}
    (year month day_of_month hour minute second : T) (lut : DateLUTImpl) : Z :=
  if std_isnan year || std_isnan month || std_isnan day_of_month ||
     std_isnan hour || std_isnan minute || std_isnan second ||
     less year (DATE_LUT_MIN_YEAR lut) || less month 1 || greater month 12 ||
     less day_of_month 1 || greater day_of_month 31 ||
     less hour 0 || greater hour 99 || less minute 0 || greater minute 99 ||
     less second 0 || greater second 99
  then minDateTime lut
  else if greater year (DATE_LUT_MAX_YEAR lut)
  then maxDateTime lut
  else
    makeDateTime lut
      (Int.to_Int16 (to_integer year)) (Int.to_UInt8 (to_integer month))
      (Int.to_UInt8 (to_integer day_of_month))
      (Int.to_UInt8 (to_integer hour)) (Int.to_UInt8 (to_integer minute))
      (Int.to_UInt8 (to_integer second)).

(** The value of the constant precision argument ([getInt(0)]); the checks
    of its type and constness are made on the types of the columns. *)
Definition extractPrecision (name : string) (precision : Z) : result Z :=
  if (precision <? 0) || (precision >? 9)
  then Throw {| code := ARGUMENT_OUT_OF_BOUND;
                message := ("Argument 'precision' for function " ++ name
                            ++ " must be in range [0, 9]")%string |}
  else Ok (Int.to_UInt32 precision).

(** The clamp of makeDateTime and YYYYMMDDhhmmssToDateTime, and the
    conversion to the [UInt32] cell of a DateTime column. *)
Definition store_DateTime (date_time : Z) : Z :=
  let date_time :=
    if date_time <? 0 then 0
    else if date_time >? 0xffffffff then 0xffffffff
    else date_time in
  Int.to_UInt32 date_time.

End FunctionDateTimeBase.

(** A row of the six mandatory arguments, converted to Float32. *)
Record Fields := {
  f_year : IEEE.Float32;
  f_month : IEEE.Float32;
  f_day : IEEE.Float32;
  f_hour : IEEE.Float32;
  f_minute : IEEE.Float32;
  f_second : IEEE.Float32
}.

(** ** FunctionMakeDateTime: makeDateTime *)

Module FunctionMakeDateTime.
Import FunctionDateTimeBase.

Definition name : string := "makeDateTime".

Definition row (date_lut : DateLUTImpl) (r : Fields) : Z :=
  let date_time :=
    dateTime (f_year r) (f_month r) (f_day r) (f_hour r) (f_minute r) (f_second r)
      date_lut in
  store_DateTime date_time.

Definition executeImpl (instance : DateLUT) (rows : list Fields)
    (timezone_argument : option string) : list Z :=
  let timezone :=
    match timezone_argument with Some tz => tz | None => EmptyString end in
  let date_lut := instance timezone in
  map (row date_lut) rows.

End FunctionMakeDateTime.

(** ** FunctionMakeDateTime64: makeDateTime64 *)

Module FunctionMakeDateTime64.
Import FunctionDateTimeBase.

Definition name : string := "makeDateTime64".

(** [pow(10, precision) - 1], a double. *)
Definition max_fraction (precision : Z) : IEEE.Float64 :=
  IEEE.sub64 (IEEE.Float64_of_Z (10 ^ precision)) (IEEE.Float64_of_Z 1).

(** The seconds and the fraction a row hands to [decimalFromComponents]:
    [date_time] and [static_cast<Int64>(fraction)]. *)
Definition components (date_lut : DateLUTImpl) (precision : Z)
    (r : Fields) (fraction_data : option IEEE.Float64) : Z * Z :=
  let max_fraction := max_fraction precision in
  let min_date_time := minDateTime date_lut in
  let max_date_time := maxDateTime date_lut in
  let date_time :=
    dateTime (f_year r) (f_month r) (f_day r) (f_hour r) (f_minute r) (f_second r)
      date_lut in
  let '(date_time, fraction) :=
    if date_time =? min_date_time then (date_time, IEEE.Float64_of_Z 0)
    else if date_time =? max_date_time then (date_time, IEEE.Float64_of_Z 999999999)
    else
      let fraction :=
        match fraction_data with
        | Some f => f
        | None => IEEE.Float64_of_Z 0
        end in
      if IEEE.isnan fraction then (min_date_time, IEEE.Float64_of_Z 0)
      else if less fraction 0 then (date_time, IEEE.Float64_of_Z 0)
      else if match IEEE.compare fraction max_fraction with
              | Some Gt => true | _ => false end
      then (date_time, max_fraction)
      else (date_time, fraction) in
  (date_time, Int.to_Int64 (to_integer fraction)).

Definition row (date_lut : DateLUTImpl) (precision : Z)
    (r : Fields) (fraction_data : option IEEE.Float64) : Z :=
  let '(date_time, fraction) := components date_lut precision r fraction_data in
  DecimalUtils.decimalFromComponents date_time fraction (Int.to_UInt32 precision).

(** The fraction column, when given, has a cell for every row. *)
Definition executeImpl (instance : DateLUT) (rows : list Fields)
    (fraction_argument : option (list IEEE.Float64))
    (precision_argument : option Z) (timezone_argument : option string)
    : result (list Z) :=
  precision <-
    match precision_argument with
    | Some p => extractPrecision name p
    | None => Ok DEFAULT_PRECISION
    end ;;
  let timezone :=
    match timezone_argument with Some tz => tz | None => EmptyString end in
  let date_lut := instance timezone in
  Ok match fraction_argument with
     | Some fraction_data =>
         map (fun '(r, f) => row date_lut precision r (Some f))
             (combine rows fraction_data)
     | None => map (fun r => row date_lut precision r None) rows
     end.

End FunctionMakeDateTime64.

(** The fields of a packed [YYYYMMDDhhmmss] number, with the integer
    division and remainder of C++. *)
Definition unpack (yyyymmddhhmmss : Z) : Z * Z * Z * Z * Z * Z :=
  let yyyymmdd := Int.div yyyymmddhhmmss 1000000 in
  let hhmmss := Int.rem yyyymmddhhmmss 1000000 in
  let year := Int.div yyyymmdd 10000 in
  let month := Int.rem (Int.div yyyymmdd 100) 100 in
  let day := Int.rem yyyymmdd 100 in
  let hour := Int.div hhmmss 10000 in
  let minute := Int.rem (Int.div hhmmss 100) 100 in
  let second := Int.rem hhmmss 100 in
  (year, month, day, hour, minute, second).

(** ** FunctionYYYYMMDDhhmmssToDateTime: YYYYMMDDhhmmssToDateTime *)

Module FunctionYYYYMMDDhhmmssToDateTime.
Import FunctionDateTimeBase.

Definition name : string := "YYYYMMDDhhmmssToDateTime".

(** The body of the loop after the test of the cell. *)
Definition date_time (date_lut : DateLUTImpl) (x : IEEE.Float64) : Z :=
  let yyyymmddhhmmss := IEEE.llround x in
  let '(year, month, day, hour, minute, second) := unpack yyyymmddhhmmss in
  let date_time := dateTime year month day hour minute second date_lut in
  store_DateTime date_time.

Definition row (date_lut : DateLUTImpl) (x : IEEE.Float64) : result Z :=
  if IEEE.isinf x || IEEE.isnan x then Throw (must_be_finite name)
  else Ok (date_time date_lut x).

Definition executeImpl (instance : DateLUT) (yyyymmddhhmmss_data : list IEEE.Float64)
    (timezone_argument : option string) : result (list Z) :=
  let timezone :=
    match timezone_argument with Some tz => tz | None => EmptyString end in
  for_rows (row (instance timezone)) yyyymmddhhmmss_data.

End FunctionYYYYMMDDhhmmssToDateTime.

(** ** FunctionYYYYMMDDhhmmssToDateTime64: YYYYMMDDhhmmssToDateTime64 *)

Module FunctionYYYYMMDDhhmmssToDateTime64.
Import FunctionDateTimeBase.

Definition name : string := "YYYYMMDDhhmmssToDateTime64".

(** [decimal = float_date - yyyymmddhhmmss]: the integer is converted to
    double and subtracted. *)
Definition decimal (float_date : IEEE.Float64) : IEEE.Float64 :=
  IEEE.sub64 float_date (IEEE.Float64_of_Z (IEEE.llround float_date)).

(** [std::llround(decimal * fraction_pow)]. *)
Definition fraction (precision : Z) (float_date : IEEE.Float64) : Z :=
  let fraction_pow := DecimalUtils.exp10_i32 precision in
  IEEE.llround (IEEE.mul64 (decimal float_date) (IEEE.Float64_of_Z fraction_pow)).

(** The seconds of a row, for a finite cell. *)
Definition seconds (date_lut : DateLUTImpl) (float_date : IEEE.Float64) : Z :=
  let '(year, month, day, hour, minute, second) := unpack (IEEE.llround float_date) in
  dateTime year month day hour minute second date_lut.

(** The body of the loop after the test of the cell. *)
Definition value (date_lut : DateLUTImpl) (precision : Z) (float_date : IEEE.Float64)
    : Z :=
  let date_time := seconds date_lut float_date in
  let fraction := fraction precision float_date in
  DecimalUtils.decimalFromComponents date_time fraction precision.

Definition row (date_lut : DateLUTImpl) (precision : Z) (float_date : IEEE.Float64)
    : result Z :=
  if IEEE.isinf float_date || IEEE.isnan float_date then Throw (must_be_finite name)
  else Ok (value date_lut precision float_date).

Definition executeImpl (instance : DateLUT) (yyyymmddhhmmss_data : list IEEE.Float64)
    (precision_argument : option Z) (timezone_argument : option string)
    : result (list Z) :=
  precision <-
    match precision_argument with
    | Some p => extractPrecision name p
    | None => Ok DEFAULT_PRECISION
    end ;;
  let timezone :=
    match timezone_argument with Some tz => tz | None => EmptyString end in
  for_rows (row (instance timezone) precision) yyyymmddhhmmss_data.

End FunctionYYYYMMDDhhmmssToDateTime64.

(** ** The arguments of a call

    [getReturnTypeImpl] and [executeImpl] receive the arguments of a call as
    [ColumnsWithTypeAndName].  The column and type classes are not part of
    the file; an argument is what the file reads of it. *)

Module Call.

Local Open Scope string_scope.

(** The kinds of types that [isNumber], [isString] and
    [isStringOrFixedString] (DataTypes/IDataType.h) tell apart. *)
Inductive TypeKind := NumberKind | StringKind | FixedStringKind | OtherKind.

Definition isNumber (t : TypeKind) : bool :=
  match t with NumberKind => true | _ => false end.

Definition isString (t : TypeKind) : bool :=
  match t with StringKind => true | _ => false end.

Definition isStringOrFixedString (t : TypeKind) : bool :=
  match t with StringKind | FixedStringKind => true | _ => false end.

(** The column of an argument: its number of rows, whether it is a
    [ColumnConst] ([typeid_cast<const ColumnConst *>] gives a pointer), and
    its first cell as [getInt(0)] and as [getDataAt(0).toString()] give it. *)
Record IColumn := {
  size : nat;
  isColumnConst : bool;
  getInt : Z;
  getDataAt : string
}.

(** An argument: its column (a null pointer is [None]), its type, and the
    cells that [castColumn] to Float32 or to Float64 followed by
    [convertToFullColumnIfConst] gives ([getData] of the converted
    column). *)
Record ColumnWithTypeAndName := {
  column : option IColumn;
  type : TypeKind;
  Float32_cells : list IEEE.Float32;
  Float64_cells : list IEEE.Float64
}.

Definition ColumnsWithTypeAndName := list ColumnWithTypeAndName.

(** [arguments[i]] and [arguments.back()], read where the count of the
    arguments has been tested; the default is not reached there. *)
Definition no_argument : ColumnWithTypeAndName :=
  {| column := None; type := OtherKind; Float32_cells := []; Float64_cells := [] |}.

Definition at_index (arguments : ColumnsWithTypeAndName) (i : nat)
    : ColumnWithTypeAndName :=
  nth i arguments no_argument.

Definition back (arguments : ColumnsWithTypeAndName) : ColumnWithTypeAndName :=
  last arguments no_argument.

(** The types of the results. *)
Inductive DataType :=
| DataTypeDate
| DataTypeDate32
| DataTypeDateTime (time_zone : string)
| DataTypeDateTime64 (scale : Z) (time_zone : string).

(** The descriptors handed to [validateFunctionArguments]. *)
Inductive TypeValidator := validate_isNumber | validate_isString.

Inductive ColumnValidator := validate_isColumnConst.

Record FunctionArgumentDescriptor := {
  argument_name : string;
  type_validator : TypeValidator;
  column_validator : option ColumnValidator;
  expected_type_description : string
}.

(** [validateFunctionArguments] (Functions/FunctionHelpers.h) is not part of
    the file: it takes the name of the function, the arguments, and the
    descriptors of the mandatory and of the optional arguments, and returns
    or throws. *)
Definition Validator : Type :=
  string -> ColumnsWithTypeAndName ->
  list FunctionArgumentDescriptor -> list FunctionArgumentDescriptor -> result unit.

(** [FunctionWithNumericParamsBase::convertMandatoryArguments]: the cells of
    the first arguments, one column for each name. *)
Definition convertMandatoryArguments {T} (cells : ColumnWithTypeAndName -> list T)
    (arguments : ColumnsWithTypeAndName) (argument_names : list string)
    : list (list T) :=
  map (fun i => cells (at_index arguments i)) (seq 0 (List.length argument_names)).

(** [data[i]] of the column [k] of the converted arguments.  The columns of
    a call have [input_rows_count] rows, so that the default is not read. *)
Definition cell (converted_arguments : list (list spec_float)) (k i : nat)
    : spec_float :=
  nth i (nth k converted_arguments []) S754_nan.

(** [FunctionDateTimeBase::extractTimezone]. *)
Definition extractTimezone (name : string) (timezone_argument : ColumnWithTypeAndName)
    : result string :=
  let illegal :=
    {| code := ILLEGAL_TYPE_OF_ARGUMENT;
       message := ("Argument 'timezone' for function " ++ name
                   ++ " must be const string")%string |} in
  match column timezone_argument with
  | Some c =>
      if negb (isStringOrFixedString (type timezone_argument)) ||
         (negb (Nat.eqb (size c) 1) && negb (isColumnConst c))
      then Throw illegal
      else Ok (getDataAt c)
  | None => Throw illegal
  end.

(** [FunctionDateTimeBase::extractPrecision]: the tests of the type and of
    the column, then the value and its range. *)
Definition extractPrecision (name : string) (precision_argument : ColumnWithTypeAndName)
    : result Z :=
  let illegal :=
    {| code := ILLEGAL_TYPE_OF_ARGUMENT;
       message := ("Argument 'precision' for function " ++ name
                   ++ " must be constant number")%string |} in
  match column precision_argument with
  | Some c =>
      if negb (isNumber (type precision_argument)) ||
         (negb (Nat.eqb (size c) 1) && negb (isColumnConst c))
      then Throw illegal
      else FunctionDateTimeBase.extractPrecision name (getInt c)
  | None => Throw illegal
  end.

Definition Number (name : string) : FunctionArgumentDescriptor :=
  {| argument_name := name; type_validator := validate_isNumber;
     column_validator := None; expected_type_description := "Number" |}.

(** [FunctionMakeDateTimeBase::mandatory_argument_names] and
    [FunctionYYYYMMDDhhmmssToDateTimeBase::mandatory_argument_names]. *)
Definition field_names : list string :=
  ["year"; "month"; "day"; "hour"; "minute"; "second"].

Definition packed_names : list string := ["YYYYMMDDhhmmss"].

(** The row [i] of the six converted columns. *)
Definition fields_at (converted_arguments : list (list IEEE.Float32)) (i : nat)
    : Fields :=
  {| f_year := cell converted_arguments 0 i;
     f_month := cell converted_arguments 1 i;
     f_day := cell converted_arguments 2 i;
     f_hour := cell converted_arguments 3 i;
     f_minute := cell converted_arguments 4 i;
     f_second := cell converted_arguments 5 i |}.

Section Functions.

Variable validateFunctionArguments : Validator.
Variable instance : DateLUT.

(** *** FunctionMakeDateTime *)

Definition makeDateTime_getReturnTypeImpl (arguments : ColumnsWithTypeAndName)
    : result DataType :=
  let mandatory_args := map Number field_names in
  let optional_args :=
    [ {| argument_name := "timezone"; type_validator := validate_isString;
         column_validator := Some validate_isColumnConst;
         expected_type_description := "const String" |} ] in
  validated <-
    validateFunctionArguments FunctionMakeDateTime.name arguments
      mandatory_args optional_args ;;
  timezone <-
    (if Nat.eqb (List.length arguments) (List.length field_names + 1)
     then extractTimezone FunctionMakeDateTime.name (back arguments)
     else Ok "") ;;
  Ok (DataTypeDateTime timezone).

Definition makeDateTime_executeImpl (arguments : ColumnsWithTypeAndName)
    (input_rows_count : nat) : result (list Z) :=
  timezone <-
    (if Nat.eqb (List.length arguments) (List.length field_names + 1)
     then extractTimezone FunctionMakeDateTime.name (back arguments)
     else Ok "") ;;
  let converted_arguments :=
    convertMandatoryArguments Float32_cells arguments field_names in
  let date_lut := instance timezone in
  Ok (map (fun i => FunctionMakeDateTime.row date_lut (fields_at converted_arguments i))
          (seq 0 input_rows_count)).

(** *** FunctionMakeDateTime64 *)

Definition makeDateTime64_getReturnTypeImpl (arguments : ColumnsWithTypeAndName)
    : result DataType :=
  let mandatory_args := map Number field_names in
  let optional_args :=
    [ {| argument_name := "fraction"; type_validator := validate_isNumber;
         column_validator := None;
         expected_type_description := "const Number" |};
      {| argument_name := "precision"; type_validator := validate_isNumber;
         column_validator := Some validate_isColumnConst;
         expected_type_description := "const Number" |};
      {| argument_name := "timezone"; type_validator := validate_isString;
         column_validator := Some validate_isColumnConst;
         expected_type_description := "const String" |} ] in
  validated <-
    validateFunctionArguments FunctionMakeDateTime64.name arguments
      mandatory_args optional_args ;;
  checked <-
    (if Nat.leb (List.length field_names + 1) (List.length arguments)
     then
       let fraction_argument := at_index arguments (List.length field_names) in
       if negb (isNumber (type fraction_argument))
       then Throw {| code := ILLEGAL_TYPE_OF_ARGUMENT;
                     message := "Argument 'fraction' for function "
                                ++ FunctionMakeDateTime64.name ++ " must be a number" |}
       else Ok tt
     else Ok tt) ;;
  precision <-
    (if Nat.leb (List.length field_names + 2) (List.length arguments)
     then extractPrecision FunctionMakeDateTime64.name
            (at_index arguments (List.length field_names + 1))
     else Ok FunctionDateTimeBase.DEFAULT_PRECISION) ;;
  timezone <-
    (if Nat.eqb (List.length arguments) (List.length field_names + 3)
     then extractTimezone FunctionMakeDateTime64.name (back arguments)
     else Ok "") ;;
  Ok (DataTypeDateTime64 precision timezone).

Definition makeDateTime64_executeImpl (arguments : ColumnsWithTypeAndName)
    (input_rows_count : nat) : result (list Z) :=
  precision <-
    (if Nat.leb (List.length field_names + 2) (List.length arguments)
     then extractPrecision FunctionMakeDateTime64.name
            (at_index arguments (List.length field_names + 1))
     else Ok FunctionDateTimeBase.DEFAULT_PRECISION) ;;
  timezone <-
    (if Nat.eqb (List.length arguments) (List.length field_names + 3)
     then extractTimezone FunctionMakeDateTime64.name (back arguments)
     else Ok "") ;;
  let converted_arguments :=
    convertMandatoryArguments Float32_cells arguments field_names in
  let fraction_data :=
    if Nat.leb (List.length field_names + 1) (List.length arguments)
    then Some (Float64_cells (at_index arguments (List.length field_names)))
    else None in
  let date_lut := instance timezone in
  Ok (map (fun i =>
             FunctionMakeDateTime64.row date_lut precision
               (fields_at converted_arguments i)
               (option_map (fun data => nth i data S754_nan) fraction_data))
          (seq 0 input_rows_count)).

(** *** FunctionYYYYMMDDhhmmssToDateTime *)

Definition YYYYMMDDhhmmssToDateTime_getReturnTypeImpl (arguments : ColumnsWithTypeAndName)
    : result DataType :=
  let mandatory_args := map Number packed_names in
  let optional_args :=
    [ {| argument_name := "timezone"; type_validator := validate_isString;
         column_validator := Some validate_isColumnConst;
         expected_type_description := "const String" |} ] in
  validated <-
    validateFunctionArguments FunctionYYYYMMDDhhmmssToDateTime.name arguments
      mandatory_args optional_args ;;
  timezone <-
    (if Nat.eqb (List.length arguments) (List.length packed_names + 1)
     then extractTimezone FunctionYYYYMMDDhhmmssToDateTime.name (back arguments)
     else Ok "") ;;
  Ok (DataTypeDateTime timezone).

Definition YYYYMMDDhhmmssToDateTime_executeImpl (arguments : ColumnsWithTypeAndName)
    (input_rows_count : nat) : result (list Z) :=
  timezone <-
    (if Nat.eqb (List.length arguments) (List.length packed_names + 1)
     then extractTimezone FunctionYYYYMMDDhhmmssToDateTime.name (back arguments)
     else Ok "") ;;
  let converted_arguments :=
    convertMandatoryArguments Float64_cells arguments packed_names in
  let date_lut := instance timezone in
  for_rows (fun i => FunctionYYYYMMDDhhmmssToDateTime.row date_lut
                       (cell converted_arguments 0 i))
           (seq 0 input_rows_count).

(** *** FunctionYYYYMMDDhhmmssToDateTime64

    Both optional descriptors are written with [optional_argument_names[0]]
    in the source. *)

Definition YYYYMMDDhhmmssToDateTime64_getReturnTypeImpl
    (arguments : ColumnsWithTypeAndName) : result DataType :=
  let mandatory_args := map Number packed_names in
  let optional_args :=
    [ {| argument_name := "precision"; type_validator := validate_isNumber;
         column_validator := Some validate_isColumnConst;
         expected_type_description := "const Number" |};
      {| argument_name := "precision"; type_validator := validate_isString;
         column_validator := Some validate_isColumnConst;
         expected_type_description := "const String" |} ] in
  validated <-
    validateFunctionArguments FunctionYYYYMMDDhhmmssToDateTime64.name arguments
      mandatory_args optional_args ;;
  precision <-
    (if Nat.leb (List.length packed_names + 1) (List.length arguments)
     then extractPrecision FunctionYYYYMMDDhhmmssToDateTime64.name
            (at_index arguments (List.length packed_names))
     else Ok FunctionDateTimeBase.DEFAULT_PRECISION) ;;
  timezone <-
    (if Nat.eqb (List.length arguments) (List.length packed_names + 2)
     then extractTimezone FunctionYYYYMMDDhhmmssToDateTime64.name (back arguments)
     else Ok "") ;;
  Ok (DataTypeDateTime64 precision timezone).

Definition YYYYMMDDhhmmssToDateTime64_executeImpl (arguments : ColumnsWithTypeAndName)
    (input_rows_count : nat) : result (list Z) :=
  precision <-
    (if Nat.leb (List.length packed_names + 1) (List.length arguments)
     then extractPrecision FunctionYYYYMMDDhhmmssToDateTime64.name
            (at_index arguments (List.length packed_names))
     else Ok FunctionDateTimeBase.DEFAULT_PRECISION) ;;
  timezone <-
    (if Nat.eqb (List.length arguments) (List.length packed_names + 2)
     then extractTimezone FunctionYYYYMMDDhhmmssToDateTime64.name (back arguments)
     else Ok "") ;;
  let converted_arguments :=
    convertMandatoryArguments Float64_cells arguments packed_names in
  let date_lut := instance timezone in
  for_rows (fun i => FunctionYYYYMMDDhhmmssToDateTime64.row date_lut precision
                       (cell converted_arguments 0 i))
           (seq 0 input_rows_count).

End Functions.

(** An argument that passes the tests of [extractPrecision] or of
    [extractTimezone]: a column of one row or a [ColumnConst]. *)
Definition constant (a : ColumnWithTypeAndName) (c : IColumn) : Prop :=
  column a = Some c /\ (size c = 1%nat \/ isColumnConst c = true).

End Call.

(** ** A table of the calendar *)

Module Gregorian.

(** Modelled from the spec: the day number of the Calendar Service, which
    is not part of the file: the count of days from 1970-01-01 to a date of
    the proleptic Gregorian calendar. *)
Definition days_from_civil (year month day : Z) : Z :=
  let y := if month <=? 2 then year - 1 else year in
  let era := y / 400 in
  let yoe := y - era * 400 in
  let mp := if month >? 2 then month - 3 else month + 9 in
  let doy := (153 * mp + 2) / 5 + day - 1 in
  let doe := yoe * 365 + yoe / 4 - yoe / 100 + doy in
  era * 146097 + doe - 719468.

(** Modelled from the spec: the seconds since the epoch of the Calendar
    Service, in UTC; hours, minutes and seconds beyond their usual range
    roll over. *)
Definition seconds_from_civil (year month day hour minute second : Z) : Z :=
  days_from_civil year month day * 86400 + hour * 3600 + minute * 60 + second.

(** Modelled from the spec: a table of the Calendar Service, with the
    years of the wide date as its first and last year. *)
Definition lut : DateLUTImpl := {|
  DATE_LUT_MIN_YEAR := 1900;
  DATE_LUT_MAX_YEAR := 2299;
  makeDayNum := days_from_civil;
  makeDateTime := seconds_from_civil
|}.

Definition instance : DateLUT := fun _ => lut.

End Gregorian.

(** ** The vocabulary of the statements *)

Module Spec.

(** A cell holds a number between two integers. *)
Definition in_range (x : spec_float) (lo hi : Z) : Prop :=
  IEEE.is_finite x = true /\
  (inject_Z lo <= IEEE.F2Q x)%Q /\ (IEEE.F2Q x <= inject_Z hi)%Q.

(** A cell is smaller than an integer: a smaller number, or minus infinity. *)
Definition below (x : spec_float) (c : Z) : Prop :=
  x = S754_infinity true \/
  (IEEE.is_finite x = true /\ (IEEE.F2Q x < inject_Z c)%Q).

(** A cell is greater than an integer: a greater number, or plus infinity. *)
Definition above (x : spec_float) (c : Z) : Prop :=
  x = S754_infinity false \/
  (IEEE.is_finite x = true /\ (inject_Z c < IEEE.F2Q x)%Q).


(** A day number fits the cell of the column of the result. *)
Definition fits (tr : Traits) (day_num : Z) : Prop :=
  match tr with
  | DateTraits => 0 <= day_num <= 65535
  | Date32Traits => - 2 ^ 31 <= day_num <= 2 ^ 31 - 1
  end.

(** The years of a table are [Int16] values, as the table takes them. *)
Definition Int16_years (lut : DateLUTImpl) : Prop :=
  - 2 ^ 15 <= DATE_LUT_MIN_YEAR lut /\ DATE_LUT_MAX_YEAR lut <= 2 ^ 15 - 1.


(** The fractional part of a number, [q - floor q]. *)
Definition frac (q : Q) : Q := (q - inject_Z (Qfloor q))%Q.

End Spec.

(** Float32 cells of integers, for the examples. *)
Definition f32 (z : Z) : IEEE.Float32 := IEEE.Float32_of_Z z.
Definition f64 (z : Z) : IEEE.Float64 := IEEE.Float64_of_Z z.

(** The Float32 cell nearest to 2.9, and the one nearest to 59.9. *)
Definition f32_2_9 : IEEE.Float32 := S754_finite false 12163482 (-22).
Definition f32_59_9 : IEEE.Float32 := S754_finite false 15702426 (-18).

(** The Float64 cells 0.25, 20230911123456.75 and 23000101000000.25. *)
Definition f64_0_25 : IEEE.Float64 := S754_finite false 4503599627370496 (-54).
Definition f64_20230911123456_75 : IEEE.Float64 :=
  S754_finite false 5179113247604928 (-8).
Definition f64_23000101000000_25 : IEEE.Float64 :=
  S754_finite false 5888025856000064 (-8).

(** The row (2023, 2, 28, 17, 12, 33), and rows with a year before the first
    and after the last year of the table. *)
Definition fields (year month day hour minute second : Z) : Fields := {|
  f_year := f32 year; f_month := f32 month; f_day := f32 day;
  f_hour := f32 hour; f_minute := f32 minute; f_second := f32 second
|}.

Definition row_2023 : Fields := fields 2023 2 28 17 12 33.
Definition row_1800 : Fields := fields 1800 1 1 0 0 0.
Definition row_2300 : Fields := fields 2300 1 1 0 0 0.

(** Arguments for the examples: a column of numbers, a constant number and
    a constant string. *)
Definition number_column (numbers : list Z) : Call.ColumnWithTypeAndName :=
  {| Call.column :=
       Some {| Call.size := List.length numbers; Call.isColumnConst := false;
               Call.getInt := hd 0 numbers; Call.getDataAt := EmptyString |};
     Call.type := Call.NumberKind;
     Call.Float32_cells := map f32 numbers;
     Call.Float64_cells := map f64 numbers |}.

Definition const_number (rows : nat) (z : Z) : Call.ColumnWithTypeAndName :=
  {| Call.column :=
       Some {| Call.size := rows; Call.isColumnConst := true;
               Call.getInt := z; Call.getDataAt := EmptyString |};
     Call.type := Call.NumberKind;
     Call.Float32_cells := repeat (f32 z) rows;
     Call.Float64_cells := repeat (f64 z) rows |}.

Definition const_string (rows : nat) (s : string) : Call.ColumnWithTypeAndName :=
  {| Call.column :=
       Some {| Call.size := rows; Call.isColumnConst := true;
               Call.getInt := 0; Call.getDataAt := s |};
     Call.type := Call.StringKind;
     Call.Float32_cells := [];
     Call.Float64_cells := [] |}.

(** A validator that accepts every call, for the examples. *)
Definition accept_all : Call.Validator := fun _ _ _ _ => Ok tt.

(** The years of a table are [Int16] values, the first not after the last. *)
Definition ordered_years (lut : DateLUTImpl) : Prop :=
  Spec.Int16_years lut /\ DATE_LUT_MIN_YEAR lut <= DATE_LUT_MAX_YEAR lut.

(** * Properties *)

Example days_2023_02_28 : Gregorian.days_from_civil 2023 2 28 = 19416.
Proof. reflexivity. Qed.

Example days_2149_06_06 : Gregorian.days_from_civil 2149 6 6 = 65535.
Proof. reflexivity. Qed.

Example days_1970_01_01 : Gregorian.days_from_civil 1970 1 1 = 0.
Proof. reflexivity. Qed.

Example makeDate_2023_02_28 :
  FunctionMakeDate.year_month_day DateTraits Gregorian.lut (f32 2023) (f32 2) (f32 28)
  = 19416.
Proof. vm_compute. reflexivity. Qed.

Example makeDate_2023_42 :
  FunctionMakeDate.year_dayofyear DateTraits Gregorian.lut (f32 2023) (f32 42)
  = Gregorian.days_from_civil 2023 2 11.
Proof. vm_compute. reflexivity. Qed.

Example f32_2_9_valid : IEEE.is_Float32 f32_2_9 = true /\ IEEE.is_Float32 f32_59_9 = true.
Proof. split; reflexivity. Qed.

(** ** Comparisons and truncation of cells *)

Lemma Qtrunc_between (q : Q) (lo hi : Z) :
  (inject_Z lo <= q)%Q -> (q <= inject_Z hi)%Q ->
  lo <= Z.quot (Qnum q) (Zpos (Qden q)) <= hi.
Proof.
  destruct q as [n d]. unfold Qle. cbn [Qnum Qden inject_Z]. intros Hlo Hhi.
  rewrite Z.mul_1_r in Hlo, Hhi. split.
  - rewrite <- (Z.quot_mul lo (Zpos d)) by discriminate.
    apply Z.quot_le_mono; lia.
  - rewrite <- (Z.quot_mul hi (Zpos d)) by discriminate.
    apply Z.quot_le_mono; lia.
Qed.

Lemma trunc_in_range (x : spec_float) (lo hi : Z) :
  Spec.in_range x lo hi -> lo <= IEEE.trunc x <= hi.
Proof.
  intros (Hf & Hlo & Hhi). destruct x as [s | s | | s m e]; try discriminate.
  - cbn in *. unfold Qle in *. cbn in *. lia.
  - unfold IEEE.trunc. apply Qtrunc_between; assumption.
Qed.

Lemma in_range_iff (x : spec_float) (lo hi : Z) :
  greater_equal x lo && less_equal x hi = true <-> Spec.in_range x lo hi.
Proof.
  unfold greater_equal, less_equal, Spec.in_range. cbn [cmp Numeric_float].
  rewrite andb_true_iff.
  destruct x as [s | s | | s m e]; cbn [IEEE.compare_Z IEEE.is_finite].
  3: { split; [ intros [H _] | intros [H _] ]; discriminate. }
  2: { destruct s; split; intros [H1 H2]; discriminate. }
  all: rewrite (Qle_alt (inject_Z lo)), (Qle_alt _ (inject_Z hi));
    rewrite <- (Qcompare_antisym _ (inject_Z lo));
    destruct (Qcompare _ (inject_Z lo)), (Qcompare _ (inject_Z hi)); cbn;
    intuition congruence.
Qed.

Lemma less_iff (x : spec_float) (c : Z) : less x c = true <-> Spec.below x c.
Proof.
  unfold less, Spec.below. cbn [cmp Numeric_float].
  destruct x as [s | s | | s m e]; cbn [IEEE.compare_Z IEEE.is_finite].
  3: { split; [ discriminate | intros [H | [H _]]; discriminate ]. }
  2: { destruct s; split; intros H; auto; try discriminate.
       destruct H as [H | [H _]]; discriminate. }
  all: rewrite Qlt_alt; destruct (Qcompare _ (inject_Z c));
    split; intros H; auto; try discriminate;
    destruct H as [H | [_ H]]; discriminate.
Qed.

Lemma greater_iff (x : spec_float) (c : Z) : greater x c = true <-> Spec.above x c.
Proof.
  unfold greater, Spec.above. cbn [cmp Numeric_float].
  destruct x as [s | s | | s m e]; cbn [IEEE.compare_Z IEEE.is_finite].
  3: { split; [ discriminate | intros [H | [H _]]; discriminate ]. }
  2: { destruct s; split; intros H; auto; try discriminate.
       destruct H as [H | [H _]]; discriminate. }
  all: rewrite Qgt_alt; destruct (Qcompare _ (inject_Z c));
    split; intros H; auto; try discriminate;
    destruct H as [H | [_ H]]; discriminate.
Qed.

Lemma isnan_iff (x : spec_float) : IEEE.isnan x = true <-> x = S754_nan.
Proof. destruct x; cbn; split; intros H; congruence. Qed.

(** A cell that is a number and is on neither side of an interval is in it. *)
Lemma in_range_of_not_outside (x : spec_float) (lo hi : Z) :
  x <> S754_nan -> ~ Spec.below x lo -> ~ Spec.above x hi ->
  Spec.in_range x lo hi.
Proof.
  unfold Spec.below, Spec.above, Spec.in_range. intros Hn Hb Ha.
  destruct x as [s | s | | s m e]; try congruence.
  2: { destruct s; [ elim Hb | elim Ha ]; auto. }
  all: cbn [IEEE.is_finite] in *; split; [ reflexivity | ];
    split; apply Qnot_lt_le; intros H; [ apply Hb | apply Ha ]; auto.
Qed.

Lemma in_range_not_outside (x : spec_float) (lo hi : Z) :
  Spec.in_range x lo hi ->
  x <> S754_nan /\ ~ Spec.below x lo /\ ~ Spec.above x hi.
Proof.
  unfold Spec.below, Spec.above, Spec.in_range. intros (Hf & Hlo & Hhi).
  repeat split.
  - intros ->. discriminate.
  - intros [-> | [_ H]]; [ discriminate | ]. apply (Qlt_not_le _ _ H Hlo).
  - intros [-> | [_ H]]; [ discriminate | ]. apply (Qlt_not_le _ _ H Hhi).
Qed.

(** ** Conversions that keep the value *)

Lemma to_Int16_small (z : Z) : - 2 ^ 15 <= z <= 2 ^ 15 - 1 -> Int.to_Int16 z = z.
Proof.
  intros H. unfold Int.to_Int16, Int.to_signed.
  change (2 ^ (16 - 1)) with 32768 in *. change (2 ^ 16) with 65536.
  change (2 ^ 15) with 32768 in H.
  rewrite Z.mod_small; lia.
Qed.

Lemma to_Int32_small (z : Z) : - 2 ^ 31 <= z <= 2 ^ 31 - 1 -> Int.to_Int32 z = z.
Proof.
  intros H. unfold Int.to_Int32, Int.to_signed.
  change (2 ^ (32 - 1)) with 2147483648 in *. change (2 ^ 32) with 4294967296.
  change (2 ^ 31) with 2147483648 in H.
  rewrite Z.mod_small; lia.
Qed.

Lemma to_Int64_small (z : Z) : - 2 ^ 63 <= z <= 2 ^ 63 - 1 -> Int.to_Int64 z = z.
Proof.
  intros H. unfold Int.to_Int64, Int.to_signed.
  change (2 ^ (64 - 1)) with 9223372036854775808 in *.
  change (2 ^ 64) with 18446744073709551616.
  change (2 ^ 63) with 9223372036854775808 in H.
  rewrite Z.mod_small; lia.
Qed.

Lemma to_UInt8_small (z : Z) : 0 <= z <= 255 -> Int.to_UInt8 z = z.
Proof.
  intros H. unfold Int.to_UInt8, Int.to_unsigned. change (2 ^ 8) with 256.
  apply Z.mod_small; lia.
Qed.

Lemma to_UInt16_small (z : Z) : 0 <= z <= 65535 -> Int.to_UInt16 z = z.
Proof.
  intros H. unfold Int.to_UInt16, Int.to_unsigned. change (2 ^ 16) with 65536.
  apply Z.mod_small; lia.
Qed.

Lemma to_UInt32_small (z : Z) : 0 <= z <= 4294967295 -> Int.to_UInt32 z = z.
Proof.
  intros H. unfold Int.to_UInt32, Int.to_unsigned. change (2 ^ 32) with 4294967296.
  apply Z.mod_small; lia.
Qed.

Lemma store_fits (tr : Traits) (v : Z) : Spec.fits tr v -> store tr v = v.
Proof.
  destruct tr; cbn [Spec.fits store]; intros H.
  - apply to_UInt16_small; assumption.
  - apply to_Int32_small; assumption.
Qed.

Lemma store_0 (tr : Traits) : store tr 0 = 0.
Proof. destruct tr; reflexivity. Qed.

Lemma year_range_Int16 (tr : Traits) (z : Z) :
  MIN_YEAR tr <= z <= MAX_YEAR tr -> - 2 ^ 15 <= z <= 2 ^ 15 - 1.
Proof. destruct tr; cbn; lia. Qed.

(** ** makeDate and makeDate32 *)

Ltac split_andb :=
  repeat match goal with
         | H : _ && _ = true |- _ => apply andb_true_iff in H; destruct H
         end.

(** The test of the (year, month, day) variant, on the values of the cells. *)
Lemma year_month_day_test (tr : Traits) (year month day : spec_float) :
  greater_equal year (MIN_YEAR tr) && less_equal year (MAX_YEAR tr) &&
  greater_equal month 1 && less_equal month 12 &&
  greater_equal day 1 && less_equal day 31 = true <->
  Spec.in_range year (MIN_YEAR tr) (MAX_YEAR tr) /\
  Spec.in_range month 1 12 /\ Spec.in_range day 1 31.
Proof.
  rewrite <- !in_range_iff, !andb_true_iff. tauto.
Qed.

(** The casts of the (year, month, day) variant keep the truncated values. *)
Lemma year_month_day_casts (tr : Traits) (year month day : spec_float) :
  Spec.in_range year (MIN_YEAR tr) (MAX_YEAR tr) ->
  Spec.in_range month 1 12 -> Spec.in_range day 1 31 ->
  Int.to_Int16 (IEEE.trunc year) = IEEE.trunc year /\
  Int.to_UInt8 (IEEE.trunc month) = IEEE.trunc month /\
  Int.to_UInt8 (IEEE.trunc day) = IEEE.trunc day.
Proof.
  intros Hy Hm Hd.
  apply trunc_in_range in Hy. apply trunc_in_range in Hm. apply trunc_in_range in Hd.
  repeat split.
  - apply to_Int16_small, (year_range_Int16 tr), Hy.
  - apply to_UInt8_small. lia.
  - apply to_UInt8_small. lia.
Qed.

(** The value of a row that passes the test. *)
Lemma year_month_day_value (tr : Traits) (date_lut : DateLUTImpl)
    (year month day : IEEE.Float32) :
  Spec.in_range year (MIN_YEAR tr) (MAX_YEAR tr) ->
  Spec.in_range month 1 12 -> Spec.in_range day 1 31 ->
  FunctionMakeDate.year_month_day tr date_lut year month day =
  store tr
    (let day_number :=
       makeDayNum date_lut (IEEE.trunc year) (IEEE.trunc month) (IEEE.trunc day) in
     if day_number <=? FunctionMakeDate.max_days_since_epoch tr date_lut
     then day_number else 0).
Proof.
  intros Hy Hm Hd. unfold FunctionMakeDate.year_month_day.
  cbn [to_integer Numeric_float].
  destruct (year_month_day_casts tr year month day Hy Hm Hd) as (-> & -> & ->).
  rewrite (proj2 (year_month_day_test tr year month day)) by auto.
  reflexivity.
Qed.

(** ** The column of a call

    [executeImpl] writes the value of the body of the loop into the cell of
    the row: the cell at an index of the column that is returned. *)

Lemma nth_error_combine {A B} (xs : list A) (ys : list B) (i : nat) (x : A) (y : B) :
  nth_error xs i = Some x -> nth_error ys i = Some y ->
  nth_error (combine xs ys) i = Some (x, y).
Proof.
  revert ys i. induction xs as [ | x' xs IH ]; intros ys i Hx Hy.
  - destruct i; discriminate Hx.
  - destruct ys as [ | y' ys ]; [ destruct i; discriminate Hy | ].
    destruct i as [ | i ]; cbn in *.
    + congruence.
    + apply IH; assumption.
Qed.

Lemma makeDate_year_month_day_cell (tr : Traits) (instance : DateLUT)
    (rows : list (IEEE.Float32 * IEEE.Float32 * IEEE.Float32)) (i : nat)
    (year month day : IEEE.Float32) :
  nth_error rows i = Some (year, month, day) ->
  nth_error (FunctionMakeDate.executeImpl tr instance (FunctionMakeDate.YearMonthDay rows)) i
  = Some (FunctionMakeDate.year_month_day tr (instance EmptyString) year month day).
Proof.
  intros Hrow. unfold FunctionMakeDate.executeImpl. cbv zeta.
  rewrite (map_nth_error _ i rows Hrow). reflexivity.
Qed.

Lemma makeDate_year_dayofyear_cell (tr : Traits) (instance : DateLUT)
    (rows : list (IEEE.Float32 * IEEE.Float32)) (i : nat)
    (year dayofyear : IEEE.Float32) :
  nth_error rows i = Some (year, dayofyear) ->
  nth_error (FunctionMakeDate.executeImpl tr instance (FunctionMakeDate.YearDayOfYear rows)) i
  = Some (FunctionMakeDate.year_dayofyear tr (instance EmptyString) year dayofyear).
Proof.
  intros Hrow. unfold FunctionMakeDate.executeImpl. cbv zeta.
  rewrite (map_nth_error _ i rows Hrow). reflexivity.
Qed.

Lemma makeDate_column_length (tr : Traits) (instance : DateLUT)
    (arguments : FunctionMakeDate.Arguments) :
  List.length (FunctionMakeDate.executeImpl tr instance arguments) =
  match arguments with
  | FunctionMakeDate.YearMonthDay rows => List.length rows
  | FunctionMakeDate.YearDayOfYear rows => List.length rows
  end.
Proof. destruct arguments; cbn; apply length_map. Qed.

(** C1.  A row of the three-argument makeDate or makeDate32 whose year is in
    the range of the type, whose month is in [1,12], whose day is in [1,31]
    and whose day number (of the calendar, at the integer parts of the
    fields) does not exceed the day number of MAX_DATE, yields that day
    number; every other row, one with a NaN field included, yields 0.  The
    function raises nothing and returns a column with a cell for every row,
    and the cell at the index of a row holds that value: the day number of
    an accepted row, 0 for every other row. *)
Theorem makeDate_year_month_day_spec
    (tr : Traits) (date_lut : DateLUTImpl) (year month day : IEEE.Float32) :
  let day_number :=
    makeDayNum date_lut (IEEE.trunc year) (IEEE.trunc month) (IEEE.trunc day) in
  let accepted :=
    Spec.in_range year (MIN_YEAR tr) (MAX_YEAR tr) /\
    Spec.in_range month 1 12 /\ Spec.in_range day 1 31 /\
    day_number <= FunctionMakeDate.max_days_since_epoch tr date_lut in
  (accepted -> Spec.fits tr day_number ->
   FunctionMakeDate.year_month_day tr date_lut year month day = day_number) /\
  (~ accepted ->
   FunctionMakeDate.year_month_day tr date_lut year month day = 0) /\
  (forall (instance : DateLUT) rows,
     let column :=
       FunctionMakeDate.executeImpl tr instance (FunctionMakeDate.YearMonthDay rows) in
     List.length column = List.length rows /\
     forall i : nat,
       instance EmptyString = date_lut ->
       nth_error rows i = Some (year, month, day) ->
       nth_error column i =
         Some (FunctionMakeDate.year_month_day tr date_lut year month day) /\
       (accepted -> Spec.fits tr day_number -> nth_error column i = Some day_number) /\
       (~ accepted -> nth_error column i = Some 0)).
Proof.
  intros day_number accepted.
  assert (Hyes : accepted -> Spec.fits tr day_number ->
                 FunctionMakeDate.year_month_day tr date_lut year month day = day_number).
  { intros (Hy & Hm & Hd & Hmax) Hfits.
    rewrite (year_month_day_value tr date_lut year month day Hy Hm Hd).
    cbv zeta. fold day_number. apply Z.leb_le in Hmax. rewrite Hmax.
    apply store_fits, Hfits. }
  assert (Hno : ~ accepted ->
                FunctionMakeDate.year_month_day tr date_lut year month day = 0).
  { intros Hno. unfold FunctionMakeDate.year_month_day.
    destruct (greater_equal year (MIN_YEAR tr) && less_equal year (MAX_YEAR tr) &&
              greater_equal month 1 && less_equal month 12 &&
              greater_equal day 1 && less_equal day 31) eqn:Htest.
    + apply year_month_day_test in Htest. destruct Htest as (Hy & Hm & Hd).
      cbn [to_integer Numeric_float].
      destruct (year_month_day_casts tr year month day Hy Hm Hd) as (-> & -> & ->).
      fold day_number.
      destruct (day_number <=? FunctionMakeDate.max_days_since_epoch tr date_lut)
        eqn:Hmax.
      * apply Z.leb_le in Hmax. elim Hno. unfold accepted. auto.
      * apply store_0.
    + apply store_0. }
  split; [ exact Hyes | ]. split; [ exact Hno | ].
  intros instance rows column. split.
  - apply (makeDate_column_length tr instance (FunctionMakeDate.YearMonthDay rows)).
  - intros i Hlut Hrow.
    assert (Hcell : nth_error column i =
                    Some (FunctionMakeDate.year_month_day tr date_lut year month day)).
    { rewrite <- Hlut. apply makeDate_year_month_day_cell, Hrow. }
    split; [ exact Hcell | ]. rewrite Hcell. split.
    + intros Ha Hf. rewrite (Hyes Ha Hf). reflexivity.
    + intros Hn. rewrite (Hno Hn). reflexivity.
Qed.

Lemma makeDate_year_month_day_spec_witness :
  FunctionMakeDate.year_month_day DateTraits Gregorian.lut (f32 2023) (f32 2) (f32 28)
  = 19416 /\
  nth_error
    (FunctionMakeDate.executeImpl DateTraits Gregorian.instance
       (FunctionMakeDate.YearMonthDay
          [(f32 1970, f32 1, f32 1); (f32 2023, f32 2, f32 28)])) 1
  = Some 19416.
Proof.
  assert (Haccepted :
    Spec.in_range (f32 2023) (MIN_YEAR DateTraits) (MAX_YEAR DateTraits) /\
    Spec.in_range (f32 2) 1 12 /\ Spec.in_range (f32 28) 1 31 /\
    makeDayNum Gregorian.lut (IEEE.trunc (f32 2023)) (IEEE.trunc (f32 2))
      (IEEE.trunc (f32 28))
    <= FunctionMakeDate.max_days_since_epoch DateTraits Gregorian.lut).
  { unfold Spec.in_range. repeat split; vm_compute; congruence. }
  assert (Hfits : Spec.fits DateTraits
            (makeDayNum Gregorian.lut (IEEE.trunc (f32 2023)) (IEEE.trunc (f32 2))
               (IEEE.trunc (f32 28)))).
  { vm_compute. split; congruence. }
  destruct (makeDate_year_month_day_spec DateTraits Gregorian.lut
              (f32 2023) (f32 2) (f32 28)) as (Hrow & _ & Hcall).
  split.
  - exact (Hrow Haccepted Hfits).
  - destruct (Hcall Gregorian.instance
                [(f32 1970, f32 1, f32 1); (f32 2023, f32 2, f32 28)])
      as (_ & Hcells).
    destruct (Hcells 1%nat eq_refl eq_refl) as (_ & Hcell & _).
    exact (Hcell Haccepted Hfits).
Defined.

Lemma in_range_f32_1 (hi : Z) : 1 <= hi -> Spec.in_range (f32 1) 1 hi.
Proof.
  intros H. unfold Spec.in_range. split; [ reflexivity | ].
  change (IEEE.F2Q (f32 1)) with (Qmake 8388608 (2 ^ 23)%positive).
  unfold Qle. cbn. lia.
Qed.

Lemma trunc_f32_1 : IEEE.trunc (f32 1) = 1.
Proof. reflexivity. Qed.

(** The value of a row of the (year, dayofyear) variant that passes the test. *)
Lemma year_dayofyear_value (tr : Traits) (date_lut : DateLUTImpl)
    (year dayofyear : IEEE.Float32) :
  Spec.in_range year (MIN_YEAR tr) (MAX_YEAR tr) ->
  Spec.in_range dayofyear 1 365 ->
  FunctionMakeDate.year_dayofyear tr date_lut year dayofyear =
  store tr
    (let day_number :=
       makeDayNum date_lut (IEEE.trunc year) 1 1 + IEEE.trunc dayofyear - 1 in
     if day_number <=? FunctionMakeDate.max_days_since_epoch tr date_lut
     then day_number else 0).
Proof.
  intros Hy Hd. unfold FunctionMakeDate.year_dayofyear.
  cbn [to_integer Numeric_float].
  rewrite (proj2 (in_range_iff year _ _) Hy). cbn [andb].
  rewrite (proj2 (in_range_iff dayofyear _ _) Hd).
  apply trunc_in_range in Hy. apply trunc_in_range in Hd.
  rewrite to_Int16_small by (apply (year_range_Int16 tr), Hy).
  rewrite to_Int32_small by (change (2 ^ 31) with 2147483648; lia).
  reflexivity.
Qed.

(** The claim of C7 fails in the last year of makeDate: day 200 of the year
    2149 lies after 2149-06-06, the row yields 0 and not the day number of
    2149-01-01 plus 199. *)
Lemma makeDate_year_dayofyear_last_year :
  Spec.in_range (f32 2149) (MIN_YEAR DateTraits) (MAX_YEAR DateTraits) /\
  Spec.in_range (f32 200) 1 365 /\
  FunctionMakeDate.year_dayofyear DateTraits Gregorian.lut (f32 2149) (f32 200) = 0 /\
  FunctionMakeDate.year_month_day DateTraits Gregorian.lut (f32 2149) (f32 1) (f32 1)
    + IEEE.trunc (f32 200) - 1 = 65578 /\
  FunctionMakeDate.year_dayofyear DateTraits Gregorian.lut (f32 2149) (f32 200) <>
  FunctionMakeDate.year_month_day DateTraits Gregorian.lut (f32 2149) (f32 1) (f32 1)
    + IEEE.trunc (f32 200) - 1.
Proof.
  unfold Spec.in_range. repeat split; vm_compute; congruence.
Qed.

(** C7, amended.  A row of the two-argument makeDate or makeDate32 whose year
    is in the range of the type and whose day of the year is in [1,365]
    yields the day number of January 1st of the year plus the integer part of
    the day of the year minus 1, which is makeDate(year, 1, 1) plus that
    offset, when this day number does not exceed the day number of MAX_DATE,
    and 0 when it does; a day of the year outside of [1,365] or a year out
    of range yields 0.  The column that the function returns has a cell for
    every row, and the cell at the index of a row holds that value. *)
Theorem makeDate_year_dayofyear_spec
    (tr : Traits) (date_lut : DateLUTImpl) (year dayofyear : IEEE.Float32) :
  let january_1st := makeDayNum date_lut (IEEE.trunc year) 1 1 in
  let day_number := january_1st + IEEE.trunc dayofyear - 1 in
  let in_ranges :=
    Spec.in_range year (MIN_YEAR tr) (MAX_YEAR tr) /\
    Spec.in_range dayofyear 1 365 in
  (in_ranges -> day_number <= FunctionMakeDate.max_days_since_epoch tr date_lut ->
   Spec.fits tr day_number -> Spec.fits tr january_1st ->
   FunctionMakeDate.year_dayofyear tr date_lut year dayofyear = day_number /\
   FunctionMakeDate.year_dayofyear tr date_lut year dayofyear =
   FunctionMakeDate.year_month_day tr date_lut year (f32 1) (f32 1)
   + IEEE.trunc dayofyear - 1) /\
  (in_ranges -> FunctionMakeDate.max_days_since_epoch tr date_lut < day_number ->
   FunctionMakeDate.year_dayofyear tr date_lut year dayofyear = 0) /\
  (~ in_ranges ->
   FunctionMakeDate.year_dayofyear tr date_lut year dayofyear = 0) /\
  (forall (instance : DateLUT) rows,
     let column :=
       FunctionMakeDate.executeImpl tr instance (FunctionMakeDate.YearDayOfYear rows) in
     List.length column = List.length rows /\
     forall i : nat,
       instance EmptyString = date_lut ->
       nth_error rows i = Some (year, dayofyear) ->
       nth_error column i =
         Some (FunctionMakeDate.year_dayofyear tr date_lut year dayofyear) /\
       (in_ranges ->
        day_number <= FunctionMakeDate.max_days_since_epoch tr date_lut ->
        Spec.fits tr day_number -> nth_error column i = Some day_number) /\
       (in_ranges ->
        FunctionMakeDate.max_days_since_epoch tr date_lut < day_number ->
        nth_error column i = Some 0) /\
       (~ in_ranges -> nth_error column i = Some 0)).
Proof.
  intros january_1st day_number in_ranges.
  assert (Hcast : in_ranges ->
            FunctionMakeDate.year_dayofyear tr date_lut year dayofyear =
            store tr (if day_number <=? FunctionMakeDate.max_days_since_epoch tr date_lut
                      then day_number else 0)).
  { intros [Hy Hd]. apply year_dayofyear_value; assumption. }
  assert (Hunder : in_ranges ->
            day_number <= FunctionMakeDate.max_days_since_epoch tr date_lut ->
            Spec.fits tr day_number ->
            FunctionMakeDate.year_dayofyear tr date_lut year dayofyear = day_number).
  { intros Hin Hmax Hfits. rewrite (Hcast Hin). apply Z.leb_le in Hmax. rewrite Hmax.
    apply store_fits, Hfits. }
  assert (Hover : in_ranges ->
            FunctionMakeDate.max_days_since_epoch tr date_lut < day_number ->
            FunctionMakeDate.year_dayofyear tr date_lut year dayofyear = 0).
  { intros Hin Hmax. rewrite (Hcast Hin).
    apply Z.leb_gt in Hmax. rewrite Hmax. apply store_0. }
  assert (Hout : ~ in_ranges ->
            FunctionMakeDate.year_dayofyear tr date_lut year dayofyear = 0).
  { intros Hno. unfold FunctionMakeDate.year_dayofyear.
    destruct (greater_equal year (MIN_YEAR tr) && less_equal year (MAX_YEAR tr) &&
              greater_equal dayofyear 1 && less_equal dayofyear 365) eqn:Htest.
    + elim Hno. rewrite <- andb_assoc in Htest. apply andb_true_iff in Htest.
      destruct Htest as [H1 H2]. split; apply in_range_iff; assumption.
    + apply store_0. }
  split; [ | split; [ exact Hover | split; [ exact Hout | ] ] ].
  - intros Hin Hmax Hfits Hfits1.
    pose proof (Hunder Hin Hmax Hfits) as Hres.
    split; [ exact Hres | ]. rewrite Hres.
    destruct Hin as [Hy Hd].
    rewrite (year_month_day_value tr date_lut year (f32 1) (f32 1) Hy)
      by (apply in_range_f32_1; lia).
    cbv zeta. rewrite trunc_f32_1. fold january_1st.
    apply trunc_in_range in Hd.
    replace (january_1st <=? FunctionMakeDate.max_days_since_epoch tr date_lut)
      with true by (symmetry; apply Z.leb_le; unfold day_number in Hmax; lia).
    rewrite (store_fits tr january_1st Hfits1). reflexivity.
  - intros instance rows column. split.
    + apply (makeDate_column_length tr instance (FunctionMakeDate.YearDayOfYear rows)).
    + intros i Hlut Hrow.
      assert (Hcell : nth_error column i =
                Some (FunctionMakeDate.year_dayofyear tr date_lut year dayofyear)).
      { rewrite <- Hlut. apply makeDate_year_dayofyear_cell, Hrow. }
      split; [ exact Hcell | ]. rewrite Hcell.
      split; [ | split ].
      * intros Hin Hmax Hfits. rewrite (Hunder Hin Hmax Hfits). reflexivity.
      * intros Hin Hmax. rewrite (Hover Hin Hmax). reflexivity.
      * intros Hno. rewrite (Hout Hno). reflexivity.
Qed.

Lemma makeDate_year_dayofyear_spec_witness :
  FunctionMakeDate.year_dayofyear DateTraits Gregorian.lut (f32 2023) (f32 42)
  = Gregorian.days_from_civil 2023 2 11.
Proof.
  refine (proj1 (proj1 (makeDate_year_dayofyear_spec DateTraits Gregorian.lut
                          (f32 2023) (f32 42)) _ _ _ _)).
  - unfold Spec.in_range. repeat split; vm_compute; congruence.
  - vm_compute. congruence.
  - vm_compute. split; congruence.
  - vm_compute. split; congruence.
Defined.

Example makeDate_2024_366 :
  FunctionMakeDate.year_dayofyear DateTraits Gregorian.lut (f32 2024) (f32 366) = 0.
Proof. vm_compute. reflexivity. Qed.

(** ** dateTime and makeDateTime *)

Section DateTimeOfFields.

Variable date_lut : DateLUTImpl.
Variable r : Fields.

Let year := f_year r.
Let month := f_month r.
Let day := f_day r.
Let hour := f_hour r.
Let minute := f_minute r.
Let second := f_second r.






End DateTimeOfFields.

Lemma store_DateTime_clamp (date_time : Z) :
  FunctionDateTimeBase.store_DateTime date_time
  = Z.max 0 (Z.min date_time 0xffffffff).
Proof.
  unfold FunctionDateTimeBase.store_DateTime.
  destruct (date_time <? 0) eqn:H0.
  - apply Z.ltb_lt in H0. cbn. lia.
  - apply Z.ltb_ge in H0. destruct (date_time >? 0xffffffff) eqn:H1.
    + apply Z.gtb_lt in H1. cbn. lia.
    + rewrite Z.gtb_ltb in H1. apply Z.ltb_ge in H1.
      rewrite to_UInt32_small by lia. lia.
Qed.


Lemma Gregorian_Int16_years : Spec.Int16_years Gregorian.lut.
Proof. split; vm_compute; congruence. Qed.


(** ** Calls that fail *)

(** A loop whose body throws the same exception at every bad row fails with
    it when there is a bad row, and returns a cell for every row otherwise. *)
Lemma for_rows_guard {A B} (good : A -> bool) (f : A -> B) (e : Exception)
    (body : A -> result B) (rows : list A) :
  (forall r, body r = if good r then Ok (f r) else Throw e) ->
  for_rows body rows = if forallb good rows then Ok (map f rows) else Throw e.
Proof.
  intros Hbody. induction rows as [ | r rows IH ]; cbn [for_rows forallb map].
  - reflexivity.
  - rewrite Hbody, IH. destruct (good r); cbn; [ | reflexivity ].
    destruct (forallb good rows); reflexivity.
Qed.

Lemma forallb_finite_true (data : list spec_float) :
  (forall x, In x data -> IEEE.is_finite x = true) ->
  forallb IEEE.is_finite data = true.
Proof. intros H. apply forallb_forall, H. Qed.

Lemma forallb_finite_false (data : list spec_float) :
  (exists x, In x data /\ IEEE.is_finite x = false) ->
  forallb IEEE.is_finite data = false.
Proof.
  intros (x & Hin & Hx). destruct (forallb IEEE.is_finite data) eqn:Hall; auto.
  rewrite forallb_forall in Hall. rewrite (Hall x Hin) in Hx. discriminate.
Qed.

Lemma not_finite (x : spec_float) :
  IEEE.isinf x || IEEE.isnan x = negb (IEEE.is_finite x).
Proof. destruct x; reflexivity. Qed.

Section Calls.

Variable instance : DateLUT.

Lemma YYYYMMDDToDate_call (tr : Traits) (data : list IEEE.Float64) :
  FunctionYYYYYMMDDToDate.executeImpl tr instance data =
  if forallb IEEE.is_finite data
  then Ok (map (FunctionYYYYYMMDDToDate.day_num tr (instance EmptyString)) data)
  else Throw (must_be_finite (YYYYMMDDName tr)).
Proof.
  apply for_rows_guard. intros x. unfold FunctionYYYYYMMDDToDate.row.
  rewrite not_finite. destruct (IEEE.is_finite x); reflexivity.
Qed.

Lemma YYYYMMDDhhmmssToDateTime_call (timezone : option string)
    (data : list IEEE.Float64) :
  FunctionYYYYMMDDhhmmssToDateTime.executeImpl instance data timezone =
  if forallb IEEE.is_finite data
  then Ok (map (FunctionYYYYMMDDhhmmssToDateTime.date_time
                  (instance match timezone with Some tz => tz | None => EmptyString end))
             data)
  else Throw (must_be_finite FunctionYYYYMMDDhhmmssToDateTime.name).
Proof.
  apply for_rows_guard. intros x. unfold FunctionYYYYMMDDhhmmssToDateTime.row.
  rewrite not_finite. destruct (IEEE.is_finite x); reflexivity.
Qed.

Lemma extractPrecision_ok (name : string) (p : Z) :
  0 <= p <= 9 -> FunctionDateTimeBase.extractPrecision name p = Ok p.
Proof.
  intros H. unfold FunctionDateTimeBase.extractPrecision.
  replace (p <? 0) with false by (symmetry; apply Z.ltb_ge; lia).
  replace (p >? 9) with false by (symmetry; rewrite Z.gtb_ltb; apply Z.ltb_ge; lia).
  cbn [orb]. rewrite to_UInt32_small by lia. reflexivity.
Qed.

Lemma YYYYMMDDhhmmssToDateTime64_call (precision : option Z)
    (timezone : option string) (data : list IEEE.Float64) :
  (forall p, precision = Some p -> 0 <= p <= 9) ->
  FunctionYYYYMMDDhhmmssToDateTime64.executeImpl instance data precision timezone =
  if forallb IEEE.is_finite data
  then Ok (map (FunctionYYYYMMDDhhmmssToDateTime64.value
                  (instance match timezone with Some tz => tz | None => EmptyString end)
                  match precision with
                  | Some p => p
                  | None => FunctionDateTimeBase.DEFAULT_PRECISION
                  end)
             data)
  else Throw (must_be_finite FunctionYYYYMMDDhhmmssToDateTime64.name).
Proof.
  intros Hp. unfold FunctionYYYYMMDDhhmmssToDateTime64.executeImpl.
  destruct precision as [p | ];
    [ rewrite (extractPrecision_ok _ _ (Hp p eq_refl)) | ]; cbn [bind];
    apply for_rows_guard; intros x; unfold FunctionYYYYMMDDhhmmssToDateTime64.row;
    rewrite not_finite; destruct (IEEE.is_finite x); reflexivity.
Qed.

End Calls.

(** C5.  A call of YYYYMMDDToDate, YYYYMMDDToDate32, YYYYMMDDhhmmssToDateTime
    or YYYYMMDDhhmmssToDateTime64 (with a precision in [0,9]) on a column
    with a cell that is infinite or NaN fails with BAD_ARGUMENTS and a message
    that names the function, and returns no column; a call on a column of
    finite cells returns a column with a cell for every row, whatever the
    fields of the rows are. *)
Theorem packed_calls_fail_on_non_finite_only
    (instance : DateLUT) (data : list IEEE.Float64) :
  ((exists x, In x data /\ IEEE.is_finite x = false) ->
   (forall tr,
      FunctionYYYYYMMDDToDate.executeImpl tr instance data =
      Throw {| code := BAD_ARGUMENTS;
               message := ("Argument for function " ++ YYYYMMDDName tr
                           ++ " must be finite")%string |}) /\
   (forall timezone,
      FunctionYYYYMMDDhhmmssToDateTime.executeImpl instance data timezone =
      Throw {| code := BAD_ARGUMENTS;
               message := "Argument for function YYYYMMDDhhmmssToDateTime must be finite" |}) /\
   (forall precision timezone,
      (forall p, precision = Some p -> 0 <= p <= 9) ->
      FunctionYYYYMMDDhhmmssToDateTime64.executeImpl instance data precision timezone =
      Throw {| code := BAD_ARGUMENTS;
               message := "Argument for function YYYYMMDDhhmmssToDateTime64 must be finite" |})) /\
  ((forall x, In x data -> IEEE.is_finite x = true) ->
   (forall tr, exists column,
      FunctionYYYYYMMDDToDate.executeImpl tr instance data = Ok column /\
      List.length column = List.length data) /\
   (forall timezone, exists column,
      FunctionYYYYMMDDhhmmssToDateTime.executeImpl instance data timezone = Ok column /\
      List.length column = List.length data) /\
   (forall precision timezone,
      (forall p, precision = Some p -> 0 <= p <= 9) ->
      exists column,
        FunctionYYYYMMDDhhmmssToDateTime64.executeImpl instance data precision timezone
        = Ok column /\
        List.length column = List.length data)).
Proof.
  split.
  - intros Hbad. apply forallb_finite_false in Hbad. repeat split.
    + intros tr. rewrite YYYYMMDDToDate_call, Hbad. reflexivity.
    + intros timezone. rewrite YYYYMMDDhhmmssToDateTime_call, Hbad. reflexivity.
    + intros precision timezone Hp.
      rewrite YYYYMMDDhhmmssToDateTime64_call, Hbad by exact Hp. reflexivity.
  - intros Hgood. apply forallb_finite_true in Hgood. repeat split.
    + intros tr. rewrite YYYYMMDDToDate_call, Hgood.
      eexists. split; [ reflexivity | apply length_map ].
    + intros timezone. rewrite YYYYMMDDhhmmssToDateTime_call, Hgood.
      eexists. split; [ reflexivity | apply length_map ].
    + intros precision timezone Hp.
      rewrite YYYYMMDDhhmmssToDateTime64_call, Hgood by exact Hp.
      eexists. split; [ reflexivity | apply length_map ].
Qed.

Lemma packed_calls_fail_on_non_finite_only_witness :
  FunctionYYYYYMMDDToDate.executeImpl DateTraits Gregorian.instance
    [f64 20230911; S754_nan] =
  Throw {| code := BAD_ARGUMENTS;
           message := "Argument for function YYYYMMDDToDate must be finite" |} /\
  exists column,
    FunctionYYYYMMDDhhmmssToDateTime64.executeImpl Gregorian.instance
      [f64 20230911131415; f64 0] (Some 3) None = Ok column /\
    List.length column = 2%nat.
Proof.
  split.
  - refine (proj1 (proj1 (packed_calls_fail_on_non_finite_only Gregorian.instance
                            [f64 20230911; S754_nan]) _) DateTraits).
    exists S754_nan. split; [ right; left; reflexivity | reflexivity ].
  - refine (proj2 (proj2 (proj2 (packed_calls_fail_on_non_finite_only Gregorian.instance
                                   [f64 20230911131415; f64 0]) _)) (Some 3) None _).
    + intros x [<- | [<- | []]]; reflexivity.
    + intros p [= <-]. lia.
Defined.

(** ** makeDateTime64 *)

(** Comparison with a cell whose value is an integer. *)
Lemma compare_integer (x y : spec_float) (c : Z) :
  IEEE.is_finite y = true -> (IEEE.F2Q y == inject_Z c)%Q ->
  IEEE.compare x y = IEEE.compare_Z x c.
Proof.
  intros Hf Hy.
  destruct y as [sy | sy | | sy my ey]; try discriminate;
    destruct x as [sx | sx | | sx mx ex]; cbn [IEEE.compare IEEE.compare_Z];
    try reflexivity; f_equal; apply Qcompare_comp; (reflexivity || assumption).
Qed.

Lemma precision_cases (p : Z) :
  0 <= p <= 9 ->
  p = 0 \/ p = 1 \/ p = 2 \/ p = 3 \/ p = 4 \/ p = 5 \/ p = 6 \/ p = 7 \/ p = 8 \/ p = 9.
Proof. lia. Qed.

(** [pow(10, precision) - 1] is computed without a rounding error. *)
Lemma max_fraction_exact (p : Z) :
  0 <= p <= 9 ->
  IEEE.is_finite (FunctionMakeDateTime64.max_fraction p) = true /\
  (IEEE.F2Q (FunctionMakeDateTime64.max_fraction p) == inject_Z (10 ^ p - 1))%Q /\
  IEEE.trunc (FunctionMakeDateTime64.max_fraction p) = 10 ^ p - 1.
Proof.
  intros Hp.
  destruct (precision_cases p Hp) as [-> | [-> | [-> | [-> | [-> | [-> | [-> | [-> | [-> | ->]]]]]]]]];
    repeat split; vm_compute; reflexivity.
Qed.

Lemma above_not_below (x : spec_float) (c c' : Z) :
  Spec.above x c -> c' <= c -> ~ Spec.below x c'.
Proof.
  intros [-> | [Hf Ha]] Hc [Hb | [Hf' Hb]]; try discriminate.
  - rewrite Hb in Hf. discriminate.
  - apply (Qlt_irrefl (IEEE.F2Q x)).
    apply Qlt_trans with (1 := Hb).
    apply Qle_lt_trans with (2 := Ha).
    rewrite <- Zle_Qle. exact Hc.
Qed.

Lemma less_false (x : spec_float) (c : Z) : ~ Spec.below x c -> less x c = false.
Proof.
  intros H. destruct (less x c) eqn:E; [ | reflexivity ].
  elim H. apply less_iff, E.
Qed.

Lemma pow10_pos (p : Z) : 0 <= p -> 1 <= 10 ^ p.
Proof. intros H. pose proof (Z.pow_pos_nonneg 10 p). lia. Qed.

Section MakeDateTime64Row.

Variable date_lut : DateLUTImpl.
Variable precision : Z.
Variable r : Fields.

Let seconds :=
  FunctionDateTimeBase.dateTime
    (f_year r) (f_month r) (f_day r) (f_hour r) (f_minute r) (f_second r) date_lut.

Lemma components_min (fraction_data : option IEEE.Float64) :
  seconds = FunctionDateTimeBase.minDateTime date_lut ->
  FunctionMakeDateTime64.components date_lut precision r fraction_data = (seconds, 0).
Proof.
  intros H. unfold FunctionMakeDateTime64.components. fold seconds.
  rewrite <- H, Z.eqb_refl. reflexivity.
Qed.

Lemma components_max (fraction_data : option IEEE.Float64) :
  seconds = FunctionDateTimeBase.maxDateTime date_lut ->
  seconds <> FunctionDateTimeBase.minDateTime date_lut ->
  FunctionMakeDateTime64.components date_lut precision r fraction_data
  = (seconds, 999999999).
Proof.
  intros Hmax Hmin. unfold FunctionMakeDateTime64.components. fold seconds.
  apply Z.eqb_neq in Hmin. rewrite Hmin, <- Hmax, Z.eqb_refl. reflexivity.
Qed.

(** A row whose seconds are no sentinel: the fraction argument decides. *)
Lemma components_plain (fraction : IEEE.Float64) :
  seconds <> FunctionDateTimeBase.minDateTime date_lut ->
  seconds <> FunctionDateTimeBase.maxDateTime date_lut ->
  FunctionMakeDateTime64.components date_lut precision r (Some fraction) =
  if IEEE.isnan fraction then (FunctionDateTimeBase.minDateTime date_lut, 0)
  else if less fraction 0 then (seconds, 0)
  else if match IEEE.compare fraction (FunctionMakeDateTime64.max_fraction precision)
          with Some Gt => true | _ => false end
       then (seconds,
             Int.to_Int64 (IEEE.trunc (FunctionMakeDateTime64.max_fraction precision)))
       else (seconds, Int.to_Int64 (IEEE.trunc fraction)).
Proof.
  intros Hmin Hmax. unfold FunctionMakeDateTime64.components. fold seconds.
  apply Z.eqb_neq in Hmin, Hmax. rewrite Hmin, Hmax.
  destruct (IEEE.isnan fraction); [ reflexivity | ].
  destruct (less fraction 0); [ reflexivity | ].
  destruct (IEEE.compare fraction _) as [[ | | ] | ]; reflexivity.
Qed.

(** The seconds of a row are those of [dateTime], but for a NaN fraction. *)
Lemma components_seconds (fraction_data : option IEEE.Float64) :
  (forall f, fraction_data = Some f -> f <> S754_nan) ->
  fst (FunctionMakeDateTime64.components date_lut precision r fraction_data) = seconds.
Proof.
  intros Hnan. unfold FunctionMakeDateTime64.components. fold seconds.
  destruct (seconds =? _); [ reflexivity | ].
  destruct (seconds =? _); [ reflexivity | ].
  destruct fraction_data as [f | ].
  - destruct (IEEE.isnan f) eqn:Hf.
    + elim (Hnan f eq_refl). apply isnan_iff, Hf.
    + destruct (less f 0); [ reflexivity | ].
      destruct (IEEE.compare f _) as [[ | | ] | ]; reflexivity.
  - change (IEEE.isnan (IEEE.Float64_of_Z 0)) with false.
    change (less (IEEE.Float64_of_Z 0) 0) with false. cbv iota.
    destruct (IEEE.compare _ _) as [[ | | ] | ]; reflexivity.
Qed.

End MakeDateTime64Row.


(** The column of makeDateTime64, for a precision argument in [0,9] or
    none. *)
Lemma makeDateTime64_column (instance : DateLUT) (rows : list Fields)
    (fraction_argument : option (list IEEE.Float64))
    (precision_argument : option Z) (timezone_argument : option string)
    (precision : Z) :
  0 <= precision <= 9 ->
  precision_argument = Some precision \/
  precision_argument = None /\ precision = FunctionDateTimeBase.DEFAULT_PRECISION ->
  let date_lut :=
    instance match timezone_argument with Some tz => tz | None => EmptyString end in
  FunctionMakeDateTime64.executeImpl instance rows fraction_argument
    precision_argument timezone_argument =
  Ok match fraction_argument with
     | Some fraction_data =>
         map (fun '(r, f) => FunctionMakeDateTime64.row date_lut precision r (Some f))
             (combine rows fraction_data)
     | None => map (fun r => FunctionMakeDateTime64.row date_lut precision r None) rows
     end.
Proof.
  intros Hp Hprecision date_lut. unfold FunctionMakeDateTime64.executeImpl.
  destruct Hprecision as [-> | [-> ->]].
  - rewrite (extractPrecision_ok _ _ Hp). reflexivity.
  - reflexivity.
Qed.

(** The cell of a row of makeDateTime64.  The fraction column, when there is
    one, has a cell for every row. *)
Lemma makeDateTime64_cell (instance : DateLUT) (rows : list Fields)
    (fraction_argument : option (list IEEE.Float64))
    (precision_argument : option Z) (timezone_argument : option string)
    (precision : Z) (i : nat) (r : Fields) :
  0 <= precision <= 9 ->
  precision_argument = Some precision \/
  precision_argument = None /\ precision = FunctionDateTimeBase.DEFAULT_PRECISION ->
  (forall fraction_data,
     fraction_argument = Some fraction_data ->
     List.length fraction_data = List.length rows) ->
  nth_error rows i = Some r ->
  exists cells,
    FunctionMakeDateTime64.executeImpl instance rows fraction_argument
      precision_argument timezone_argument = Ok cells /\
    nth_error cells i =
    Some (FunctionMakeDateTime64.row
            (instance match timezone_argument with Some tz => tz | None => EmptyString end)
            precision r
            match fraction_argument with
            | Some fraction_data => nth_error fraction_data i
            | None => None
            end).
Proof.
  intros Hp Hprecision Hlength Hr.
  rewrite (makeDateTime64_column instance rows fraction_argument precision_argument
             timezone_argument precision Hp Hprecision).
  eexists. split; [ reflexivity | ].
  destruct fraction_argument as [fraction_data | ].
  - destruct (nth_error fraction_data i) as [f | ] eqn:Hf.
    + rewrite (map_nth_error _ i _ (nth_error_combine rows fraction_data i r f Hr Hf)).
      reflexivity.
    + apply nth_error_None in Hf. rewrite (Hlength fraction_data eq_refl) in Hf.
      apply nth_error_None in Hf. congruence.
  - rewrite (map_nth_error _ i rows Hr). reflexivity.
Qed.

(** C8.  In makeDateTime64, for a row whose seconds are not a sentinel: a NaN
    fraction makes the seconds the minimum sentinel and the fraction 0; a
    negative fraction becomes 0; a fraction above 10^precision - 1 becomes
    10^precision - 1; a fraction in between is kept, with its integer part.
    The cell is seconds * 10^precision + fraction, the fraction with the sign
    of negative seconds: it is the cell at the index of the row in the column
    that a call returns, with the precision of the call (3 when the call
    has no precision argument) and the table of its time zone. *)
Theorem makeDateTime64_fraction_spec
    (date_lut : DateLUTImpl) (precision : Z) (r : Fields) (fraction : IEEE.Float64) :
  0 <= precision <= 9 ->
  let seconds :=
    FunctionDateTimeBase.dateTime
      (f_year r) (f_month r) (f_day r) (f_hour r) (f_minute r) (f_second r) date_lut in
  let components :=
    FunctionMakeDateTime64.components date_lut precision r (Some fraction) in
  seconds <> FunctionDateTimeBase.minDateTime date_lut ->
  seconds <> FunctionDateTimeBase.maxDateTime date_lut ->
  (fraction = S754_nan ->
   components = (FunctionDateTimeBase.minDateTime date_lut, 0)) /\
  (Spec.below fraction 0 -> components = (seconds, 0)) /\
  (Spec.above fraction (10 ^ precision - 1) ->
   components = (seconds, 10 ^ precision - 1)) /\
  (Spec.in_range fraction 0 (10 ^ precision - 1) ->
   components = (seconds, IEEE.trunc fraction)) /\
  FunctionMakeDateTime64.row date_lut precision r (Some fraction) =
  fst components * 10 ^ precision
  + (if fst components <? 0 then - snd components else snd components) /\
  (forall (instance : DateLUT) rows fraction_data precision_argument timezone_argument
          (i : nat),
     instance match timezone_argument with Some tz => tz | None => EmptyString end
     = date_lut ->
     precision_argument = Some precision \/
     precision_argument = None /\ precision = FunctionDateTimeBase.DEFAULT_PRECISION ->
     nth_error rows i = Some r ->
     nth_error fraction_data i = Some fraction ->
     exists cells,
       FunctionMakeDateTime64.executeImpl instance rows (Some fraction_data)
         precision_argument timezone_argument = Ok cells /\
       nth_error cells i =
       Some (fst components * 10 ^ precision
             + (if fst components <? 0 then - snd components else snd components))).
Proof.
  intros Hp seconds components Hmin Hmax.
  destruct (max_fraction_exact precision Hp) as (Hfin & Hval & Htrunc).
  pose proof (pow10_pos precision (proj1 Hp)) as Hpow.
  assert (Hpow9 : 10 ^ precision <= 10 ^ 9) by (apply Z.pow_le_mono_r; lia).
  change (10 ^ 9) with 1000000000 in Hpow9.
  assert (Hc : components =
               if IEEE.isnan fraction
               then (FunctionDateTimeBase.minDateTime date_lut, 0)
               else if less fraction 0 then (seconds, 0)
               else if greater fraction (10 ^ precision - 1)
                    then (seconds, 10 ^ precision - 1)
                    else (seconds, Int.to_Int64 (IEEE.trunc fraction))).
  { unfold components. rewrite (components_plain _ _ _ _ Hmin Hmax).
    fold seconds. rewrite (compare_integer _ _ _ Hfin Hval), Htrunc.
    rewrite to_Int64_small by (change (2 ^ 63) with 9223372036854775808; lia).
    reflexivity. }
  assert (Hrow : FunctionMakeDateTime64.row date_lut precision r (Some fraction) =
                 fst components * 10 ^ precision
                 + (if fst components <? 0 then - snd components else snd components)).
  { unfold FunctionMakeDateTime64.row. fold components.
    destruct components as [s f]. cbn [fst snd].
    unfold DecimalUtils.decimalFromComponents.
    rewrite to_UInt32_small by lia.
    destruct (s <? 0); lia. }
  repeat match goal with |- _ /\ _ => split end.
  - intros ->. rewrite Hc. reflexivity.
  - intros Hb. rewrite Hc.
    destruct (IEEE.isnan fraction) eqn:Hn.
    { apply isnan_iff in Hn. subst fraction.
      destruct Hb as [Hb | [Hb _]]; discriminate. }
    rewrite (proj2 (less_iff _ _) Hb). reflexivity.
  - intros Ha. rewrite Hc.
    destruct (IEEE.isnan fraction) eqn:Hn.
    { apply isnan_iff in Hn. subst fraction.
      destruct Ha as [Ha | [Ha _]]; discriminate. }
    rewrite (less_false _ _ (above_not_below _ _ 0 Ha ltac:(lia))).
    rewrite (proj2 (greater_iff _ _) Ha). reflexivity.
  - intros Hin. rewrite Hc.
    destruct (in_range_not_outside _ _ _ Hin) as (Hn & Hb & Ha).
    destruct (IEEE.isnan fraction) eqn:Hnan.
    { elim Hn. apply isnan_iff, Hnan. }
    rewrite (less_false _ _ Hb).
    destruct (greater fraction (10 ^ precision - 1)) eqn:Hgt.
    { elim Ha. apply greater_iff, Hgt. }
    apply trunc_in_range in Hin.
    rewrite to_Int64_small by (change (2 ^ 63) with 9223372036854775808; lia).
    reflexivity.
  - exact Hrow.
  - intros instance rows fraction_data precision_argument timezone_argument i
      Hlut Hprecision Hr Hf.
    rewrite (makeDateTime64_column instance rows (Some fraction_data) precision_argument
               timezone_argument precision Hp Hprecision).
    rewrite Hlut. eexists. split; [ reflexivity | ].
    rewrite (map_nth_error _ i _ (nth_error_combine rows fraction_data i r fraction Hr Hf)).
    rewrite Hrow. reflexivity.
Qed.

Lemma makeDateTime64_fraction_spec_witness :
  FunctionMakeDateTime64.components Gregorian.lut 5 (fields 2023 5 15 10 30 45)
    (Some (f64 779)) = (1684146645, 779) /\
  FunctionMakeDateTime64.row Gregorian.lut 5 (fields 2023 5 15 10 30 45)
    (Some (f64 779)) = 168414664500779 /\
  exists cells,
    FunctionMakeDateTime64.executeImpl Gregorian.instance
      [fields 2023 5 15 10 30 45] (Some [f64 779]) (Some 5) None = Ok cells /\
    nth_error cells 0 = Some 168414664500779.
Proof.
  assert (Hp : 0 <= 5 <= 9) by lia.
  assert (Hmin : FunctionDateTimeBase.dateTime
                   (f32 2023) (f32 5) (f32 15) (f32 10) (f32 30) (f32 45) Gregorian.lut
                 <> FunctionDateTimeBase.minDateTime Gregorian.lut)
    by (vm_compute; congruence).
  assert (Hmax : FunctionDateTimeBase.dateTime
                   (f32 2023) (f32 5) (f32 15) (f32 10) (f32 30) (f32 45) Gregorian.lut
                 <> FunctionDateTimeBase.maxDateTime Gregorian.lut)
    by (vm_compute; congruence).
  destruct (makeDateTime64_fraction_spec Gregorian.lut 5 (fields 2023 5 15 10 30 45)
              (f64 779) Hp Hmin Hmax) as (_ & _ & _ & Hin & Hrow & Hcall).
  assert (Hc : FunctionMakeDateTime64.components Gregorian.lut 5
                 (fields 2023 5 15 10 30 45) (Some (f64 779)) = (1684146645, 779)).
  { rewrite Hin; [ reflexivity | ].
    unfold Spec.in_range. repeat split; vm_compute; congruence. }
  split; [ exact Hc | ]. split; [ rewrite Hrow, Hc; reflexivity | ].
  destruct (Hcall Gregorian.instance [fields 2023 5 15 10 30 45] [f64 779]
              (Some 5) None 0%nat eq_refl (or_introl eq_refl) eq_refl eq_refl)
    as (cells & Hcells & Hcell).
  exists cells. split; [ exact Hcells | ].
  rewrite Hcell, Hc. reflexivity.
Defined.

(** The claim of C3 fails at the default precision: the fraction of a row at
    the maximum sentinel is 999999999 and not 10^3 - 1. *)
Lemma makeDateTime64_max_sentinel_precision_3 :
  FunctionDateTimeBase.dateTime
    (f_year row_2300) (f_month row_2300) (f_day row_2300)
    (f_hour row_2300) (f_minute row_2300) (f_second row_2300) Gregorian.lut
  = FunctionDateTimeBase.maxDateTime Gregorian.lut /\
  snd (FunctionMakeDateTime64.components Gregorian.lut 3 row_2300 None) = 999999999 /\
  snd (FunctionMakeDateTime64.components Gregorian.lut 3 row_2300 None) <> 10 ^ 3 - 1.
Proof. repeat split; vm_compute; congruence. Qed.

(** C3, amended.  For a row of makeDateTime64 whose seconds are the maximum
    sentinel (and not the minimum sentinel too), the fraction handed to the
    packing is the constant 999999999 at every precision: it is
    10^precision - 1 at precision 9, and at a precision in [0,9] its remainder
    modulo 10^precision is 10^precision - 1 (0 at precision 0).  For a row
    whose seconds are the minimum sentinel the fraction is 0.  The cell of
    the row in the column that a call returns is packed from the sentinel
    and that fraction, whatever the fraction argument holds. *)
Theorem makeDateTime64_sentinel_fraction
    (date_lut : DateLUTImpl) (precision : Z) (r : Fields)
    (fraction_data : option IEEE.Float64) :
  let seconds :=
    FunctionDateTimeBase.dateTime
      (f_year r) (f_month r) (f_day r) (f_hour r) (f_minute r) (f_second r) date_lut in
  (seconds = FunctionDateTimeBase.maxDateTime date_lut ->
   seconds <> FunctionDateTimeBase.minDateTime date_lut ->
   FunctionMakeDateTime64.components date_lut precision r fraction_data
   = (seconds, 999999999) /\
   (precision = 9 -> 999999999 = 10 ^ precision - 1) /\
   (0 <= precision <= 9 -> 999999999 mod 10 ^ precision = 10 ^ precision - 1)) /\
  (seconds = FunctionDateTimeBase.minDateTime date_lut ->
   FunctionMakeDateTime64.components date_lut precision r fraction_data
   = (seconds, 0)) /\
  (forall (instance : DateLUT) rows fraction_argument precision_argument
          timezone_argument (i : nat),
     0 <= precision <= 9 ->
     instance match timezone_argument with Some tz => tz | None => EmptyString end
     = date_lut ->
     precision_argument = Some precision \/
     precision_argument = None /\ precision = FunctionDateTimeBase.DEFAULT_PRECISION ->
     (forall column,
        fraction_argument = Some column -> List.length column = List.length rows) ->
     nth_error rows i = Some r ->
     exists cells,
       FunctionMakeDateTime64.executeImpl instance rows fraction_argument
         precision_argument timezone_argument = Ok cells /\
       (seconds = FunctionDateTimeBase.maxDateTime date_lut ->
        seconds <> FunctionDateTimeBase.minDateTime date_lut ->
        nth_error cells i =
        Some (DecimalUtils.decimalFromComponents seconds 999999999 precision)) /\
       (seconds = FunctionDateTimeBase.minDateTime date_lut ->
        nth_error cells i =
        Some (DecimalUtils.decimalFromComponents seconds 0 precision))).
Proof.
  intros seconds. split; [ | split ].
  - intros Hmax Hmin. split; [ apply components_max; assumption | ]. split.
    + intros ->. reflexivity.
    + intros Hp.
      destruct (precision_cases precision Hp)
        as [-> | [-> | [-> | [-> | [-> | [-> | [-> | [-> | [-> | ->]]]]]]]]];
        reflexivity.
  - apply components_min.
  - intros instance rows fraction_argument precision_argument timezone_argument i
      Hp Hlut Hprecision Hlength Hr.
    destruct (makeDateTime64_cell instance rows fraction_argument precision_argument
                timezone_argument precision i r Hp Hprecision Hlength Hr)
      as (cells & Hcells & Hcell).
    exists cells. split; [ exact Hcells | ].
    rewrite Hcell, Hlut. unfold FunctionMakeDateTime64.row.
    rewrite to_UInt32_small by lia. split.
    + intros Hmax Hmin. rewrite (components_max date_lut precision r _ Hmax Hmin).
      reflexivity.
    + intros Hmin. rewrite (components_min date_lut precision r _ Hmin). reflexivity.
Qed.

Lemma makeDateTime64_sentinel_fraction_witness :
  FunctionMakeDateTime64.components Gregorian.lut 3 row_2300 (Some (f64 5))
  = (FunctionDateTimeBase.maxDateTime Gregorian.lut, 999999999) /\
  FunctionMakeDateTime64.components Gregorian.lut 3 row_1800 (Some (f64 5))
  = (FunctionDateTimeBase.minDateTime Gregorian.lut, 0).
Proof.
  split.
  - refine (proj1 (proj1 (makeDateTime64_sentinel_fraction Gregorian.lut 3 row_2300
                            (Some (f64 5))) _ _)).
    + vm_compute. reflexivity.
    + vm_compute. congruence.
  - refine (proj1 (proj2 (makeDateTime64_sentinel_fraction Gregorian.lut 3 row_1800
                            (Some (f64 5)))) _).
    vm_compute. reflexivity.
Defined.

(** ** Truncation of the fields *)




(** ** Rounding to a floating type *)

Lemma digits2_pos_bounds (p : positive) :
  2 ^ (Zpos (digits2_pos p) - 1) <= Zpos p < 2 ^ Zpos (digits2_pos p).
Proof.
  induction p as [p IH | p IH | ]; cbn [digits2_pos].
  - rewrite Pos2Z.inj_succ.
    replace (Z.succ (Zpos (digits2_pos p)) - 1) with (Z.succ (Zpos (digits2_pos p) - 1))
      by lia.
    rewrite !Z.pow_succ_r by lia. lia.
  - rewrite Pos2Z.inj_succ.
    replace (Z.succ (Zpos (digits2_pos p)) - 1) with (Z.succ (Zpos (digits2_pos p) - 1))
      by lia.
    rewrite !Z.pow_succ_r by lia. lia.
  - cbn. lia.
Qed.

(** The number of digits of a number below a power of two. *)
Lemma digits2_pos_le (p : positive) (n : Z) :
  0 <= n -> Zpos p < 2 ^ n -> Zpos (digits2_pos p) <= n.
Proof.
  intros Hn Hp. destruct (Z_le_gt_dec (Zpos (digits2_pos p)) n) as [ | Hgt ]; auto.
  pose proof (digits2_pos_bounds p) as [Hlo _].
  assert (2 ^ n <= 2 ^ (Zpos (digits2_pos p) - 1)) by (apply Z.pow_le_mono_r; lia).
  lia.
Qed.

Lemma iter_xO_value (p k : positive) :
  Zpos (Pos.iter xO p k) = Zpos p * 2 ^ Zpos k.
Proof.
  induction k as [ | k IH ] using Pos.peano_ind.
  - cbn. lia.
  - rewrite Pos.iter_succ, Pos2Z.inj_succ, Z.pow_succ_r by lia.
    rewrite Pos2Z.inj_xO, IH. lia.
Qed.

Lemma iter_xO_digits (p k : positive) :
  Zpos (digits2_pos (Pos.iter xO p k)) = Zpos (digits2_pos p) + Zpos k.
Proof.
  induction k as [ | k IH ] using Pos.peano_ind.
  - cbn [Pos.iter digits2_pos]. lia.
  - rewrite Pos.iter_succ. cbn [digits2_pos]. rewrite !Pos2Z.inj_succ, IH. lia.
Qed.

(** Alignment to a smaller exponent keeps the value. *)
Lemma shl_align_spec (mx : positive) (ex ex' : Z) :
  ex' <= ex ->
  exists mz,
    shl_align mx ex ex' = (mz, ex') /\
    Zpos mz = Zpos mx * 2 ^ (ex - ex') /\
    Zpos (digits2_pos mz) = Zpos (digits2_pos mx) + (ex - ex').
Proof.
  intros Hle. unfold shl_align.
  destruct (ex' - ex) as [ | d | d ] eqn:Hd; try lia.
  - exists mx. assert (ex' = ex) as -> by lia.
    rewrite Z.sub_diag. repeat split; lia.
  - exists (Pos.iter xO mx d).
    replace (ex - ex') with (Zpos d) by lia.
    repeat split; [ apply iter_xO_value | apply iter_xO_digits ].
Qed.

Section Rounding.

Variables prec emax : Z.

(** A number whose digits fit the precision is not rounded. *)
Lemma binary_round_exact (sx : bool) (mx : positive) (ex : Z) :
  let e := fexp prec emax (Zpos (digits2_pos mx) + ex) in
  e <= ex -> e <= emax - prec ->
  exists mz,
    binary_round prec emax sx mx ex = S754_finite sx mz e /\
    Zpos mz = Zpos mx * 2 ^ (ex - e) /\
    Zpos (digits2_pos mz) = Zpos (digits2_pos mx) + (ex - e).
Proof.
  intros e Hle Hmax. unfold binary_round. fold e.
  destruct (shl_align_spec mx ex e Hle) as (mz & -> & Hmz & Hdz).
  exists mz. split; [ | split; [ exact Hmz | exact Hdz ] ].
  assert (Hshift : fexp prec emax (Zpos (digits2_pos mz) + e) - e = 0).
  { rewrite Hdz. replace (Zpos (digits2_pos mx) + (ex - e) + e)
      with (Zpos (digits2_pos mx) + ex) by lia. fold e. lia. }
  unfold binary_round_aux, shr_fexp.
  cbn [Zdigits2 shr_record_of_loc]. rewrite Hshift.
  cbn [shr shr_m loc_of_shr_record round_nearest_even Zdigits2 shr_record_of_loc].
  rewrite Hshift. cbn [shr shr_m].
  apply Z.leb_le in Hmax. rewrite Hmax. reflexivity.
Qed.

End Rounding.

(** ** The value of a cell *)

(** The value of a finite cell with the denominator cleared. *)
Lemma F2Q_scaled (s : bool) (m : positive) (e k : Z) :
  0 <= k -> 0 <= e + k ->
  (IEEE.F2Q (S754_finite s m e) * inject_Z (2 ^ k) ==
   inject_Z (cond_Zopp s (Zpos m) * 2 ^ (e + k)))%Q.
Proof.
  intros Hk Hek. unfold IEEE.F2Q. destruct e as [ | j | j ].
  - rewrite Z.add_0_l, Z.mul_1_r, <- inject_Z_mult. reflexivity.
  - rewrite <- inject_Z_mult, <- Z.mul_assoc, <- Z.pow_add_r by lia. reflexivity.
  - unfold Qeq, Qmult, inject_Z. cbn [Qnum Qden].
    rewrite Pos.mul_1_r, Z.mul_1_r, Pos2Z.inj_pow.
    replace k with (Zneg j + k + Zpos j) at 1 by lia.
    rewrite Z.pow_add_r by lia. lia.
Qed.

(** A cell of the form of an integer. *)
Lemma F2Q_integer (s : bool) (m : positive) (e : Z) (z : Z) :
  e <= 0 -> cond_Zopp s (Zpos m) = z * 2 ^ (- e) ->
  (IEEE.F2Q (S754_finite s m e) == inject_Z z)%Q.
Proof.
  intros He Hm.
  assert (Hpow : 0 < 2 ^ (- e)) by (apply Z.pow_pos_nonneg; lia).
  apply (Qmult_inj_r _ _ (inject_Z (2 ^ (- e)))).
  - intros H. unfold Qeq in H. cbn [Qnum Qden inject_Z] in H. lia.
  - rewrite F2Q_scaled by lia. rewrite <- inject_Z_mult.
    replace (e + - e) with 0 by lia. rewrite Z.pow_0_r, Z.mul_1_r, Hm. reflexivity.
Qed.

Section ConversionOfIntegers.

Variables prec emax : Z.
Hypothesis Hprec : 1 < prec.
Hypothesis Hemax : prec <= emax.

(** An integer of at most [prec] digits is converted without a rounding
    error. *)
Lemma of_Z_exact (z : Z) :
  Z.abs z < 2 ^ prec -> z <> 0 ->
  exists m e,
    IEEE.of_Z prec emax z = S754_finite (z <? 0) m e /\
    e <= 0 /\ Zpos m = Z.abs z * 2 ^ (- e) /\ Zpos m < 2 ^ prec.
Proof.
  intros Hz Hz0. unfold IEEE.of_Z, binary_normalize.
  destruct z as [ | p | p ]; [ congruence | | ].
  all: assert (Hd : Zpos (digits2_pos p) <= prec)
         by (apply digits2_pos_le; [ lia | exact Hz ]).
  all: assert (He : fexp prec emax (Zpos (digits2_pos p) + 0) <= 0)
         by (unfold fexp, emin; lia).
  all: assert (He' : Zpos (digits2_pos p) - prec
                     <= fexp prec emax (Zpos (digits2_pos p) + 0))
         by (unfold fexp, emin; lia).
  - destruct (binary_round_exact prec emax false p 0 He ltac:(lia))
      as (mz & Hr & Hmz & Hdz).
    exists mz, (fexp prec emax (Zpos (digits2_pos p) + 0)).
    rewrite Hr. repeat split; [ exact He | | ].
    + rewrite Hmz, Z.sub_0_l. reflexivity.
    + pose proof (digits2_pos_bounds mz) as [_ Hhi].
      apply Z.lt_le_trans with (1 := Hhi). apply Z.pow_le_mono_r; lia.
  - destruct (binary_round_exact prec emax true p 0 He ltac:(lia))
      as (mz & Hr & Hmz & Hdz).
    exists mz, (fexp prec emax (Zpos (digits2_pos p) + 0)).
    rewrite Hr. repeat split; [ exact He | | ].
    + rewrite Hmz, Z.sub_0_l. reflexivity.
    + pose proof (digits2_pos_bounds mz) as [_ Hhi].
      apply Z.lt_le_trans with (1 := Hhi). apply Z.pow_le_mono_r; lia.
Qed.

Lemma of_Z_value (z : Z) :
  Z.abs z < 2 ^ prec ->
  IEEE.is_finite (IEEE.of_Z prec emax z) = true /\
  (IEEE.F2Q (IEEE.of_Z prec emax z) == inject_Z z)%Q.
Proof.
  intros Hz. destruct (Z.eq_dec z 0) as [-> | Hz0].
  { split; reflexivity. }
  destruct (of_Z_exact z Hz Hz0) as (m & e & -> & He & Hm & _).
  split; [ reflexivity | ].
  apply F2Q_integer; [ exact He | ].
  unfold cond_Zopp. rewrite Hm.
  destruct (z <? 0) eqn:Hs; [ apply Z.ltb_lt in Hs | apply Z.ltb_ge in Hs ]; lia.
Qed.

End ConversionOfIntegers.

(** The integer part and the comparisons of a cell whose value is an
    integer. *)
Lemma trunc_integer (x : spec_float) (z : Z) :
  IEEE.is_finite x = true -> (IEEE.F2Q x == inject_Z z)%Q -> IEEE.trunc x = z.
Proof.
  intros Hf Hx. destruct x as [s | s | | s m e]; try discriminate.
  - unfold Qeq in Hx. cbn in Hx. cbn. lia.
  - unfold IEEE.trunc. destruct (IEEE.F2Q (S754_finite s m e)) as [n d].
    unfold Qeq in Hx. cbn [Qnum Qden inject_Z] in *. rewrite Z.mul_1_r in Hx.
    rewrite Hx. apply Z.quot_mul. discriminate.
Qed.

Lemma compare_Z_integer (x : spec_float) (z c : Z) :
  IEEE.is_finite x = true -> (IEEE.F2Q x == inject_Z z)%Q ->
  IEEE.compare_Z x c = Some (Z.compare z c).
Proof.
  intros Hf Hx. destruct x as [s | s | | s m e]; try discriminate;
    cbn [IEEE.compare_Z]; f_equal;
    rewrite (Qcompare_comp _ _ Hx _ _ (Qeq_refl (inject_Z c)));
    unfold Qcompare; cbn [Qnum Qden inject_Z]; rewrite !Z.mul_1_r; reflexivity.
Qed.

(** ** Integers of more digits than the precision *)

Lemma shr_1_m (mrs : shr_record) :
  0 <= shr_m mrs -> shr_m (shr_1 mrs) = shr_m mrs / 2.
Proof.
  destruct mrs as [m r s]. cbn [shr_m]. intros Hm. unfold shr_1.
  destruct m as [ | [p | p | ] | p ]; cbn [shr_m]; try reflexivity; try lia.
  - rewrite (Pos2Z.inj_xI p). apply (Z.div_unique _ _ _ 1); lia.
  - rewrite (Pos2Z.inj_xO p). apply (Z.div_unique _ _ _ 0); lia.
Qed.

Lemma pow2_pos (n : Z) : 0 <= n -> 0 < 2 ^ n.
Proof. intros H. apply Z.pow_pos_nonneg; lia. Qed.

Lemma iter_shr_1_m (n : positive) (mrs : shr_record) :
  0 <= shr_m mrs ->
  shr_m (iter_pos shr_1 n mrs) = shr_m mrs / 2 ^ Zpos n.
Proof.
  revert mrs. induction n as [n IH | n IH | ]; intros mrs Hm; cbn [iter_pos].
  - assert (H1 : 0 <= shr_m (shr_1 mrs))
      by (rewrite shr_1_m by exact Hm; apply Z.div_pos; lia).
    pose proof (pow2_pos (Zpos n) ltac:(lia)) as Hp.
    assert (H2 : 0 <= shr_m (iter_pos shr_1 n (shr_1 mrs)))
      by (rewrite IH by exact H1; apply Z.div_pos; lia).
    rewrite IH by exact H2. rewrite IH by exact H1. rewrite shr_1_m by exact Hm.
    rewrite !Z.div_div by lia. f_equal.
    rewrite (Pos2Z.inj_xI n).
    replace (2 * Zpos n + 1) with (1 + Zpos n + Zpos n) by lia.
    rewrite !Z.pow_add_r by lia. lia.
  - pose proof (pow2_pos (Zpos n) ltac:(lia)) as Hp.
    assert (H2 : 0 <= shr_m (iter_pos shr_1 n mrs))
      by (rewrite IH by exact Hm; apply Z.div_pos; lia).
    rewrite IH by exact H2. rewrite IH by exact Hm.
    rewrite !Z.div_div by lia. f_equal.
    rewrite (Pos2Z.inj_xO n).
    replace (2 * Zpos n) with (Zpos n + Zpos n) by lia.
    rewrite !Z.pow_add_r by lia. lia.
  - rewrite shr_1_m by exact Hm. reflexivity.
Qed.

Lemma round_nearest_even_bounds (m : Z) (l : location) :
  m <= round_nearest_even m l <= m + 1.
Proof.
  unfold round_nearest_even. destruct l as [ | [ | | ]]; try lia.
  destruct (Z.even m); lia.
Qed.

(** A lower bound of a shifted number. *)
Lemma div_pow2_lower (x a n : Z) :
  0 <= n <= a -> 2 ^ a <= x -> 2 ^ (a - n) <= x / 2 ^ n.
Proof.
  intros Hn Hx. apply Z.div_le_lower_bound.
  - apply pow2_pos. lia.
  - rewrite <- Z.pow_add_r by lia. replace (n + (a - n)) with a by lia. exact Hx.
Qed.

Lemma digits2_pos_ge (p : positive) (n : Z) :
  2 ^ (n - 1) <= Zpos p -> n <= Zpos (digits2_pos p).
Proof.
  intros Hp. destruct (Z_le_gt_dec n (Zpos (digits2_pos p))) as [ | Hgt ]; auto.
  pose proof (digits2_pos_bounds p) as [_ Hhi].
  assert (2 ^ Zpos (digits2_pos p) <= 2 ^ (n - 1)) by (apply Z.pow_le_mono_r; lia).
  lia.
Qed.

Section BigIntegers.

Variables prec emax : Z.
Hypothesis Hprec : 1 < prec.
Hypothesis Hemax : prec <= emax.

Lemma binary_round_big (sx : bool) (p : positive) :
  prec < Zpos (digits2_pos p) ->
  binary_round prec emax sx p 0 = S754_infinity sx \/
  exists m e,
    binary_round prec emax sx p 0 = S754_finite sx m e /\
    1 <= e /\ 2 ^ (prec - 1) <= Zpos m.
Proof.
  intros Hd. pose proof (digits2_pos_bounds p) as [Hlo Hhi].
  unfold binary_round.
  set (e0 := fexp prec emax _).
  assert (He0 : e0 = Zpos (digits2_pos p) - prec)
    by (subst e0; unfold fexp, emin; lia).
  unfold shl_align.
  set (s0 := Z.sub e0 0).
  assert (Hs0 : s0 = e0) by (subst s0; lia).
  destruct s0 as [ | k | k ]; try lia.
  unfold binary_round_aux, shr_fexp. cbn [Zdigits2 shr_record_of_loc].
  set (n1 := Z.sub (fexp prec emax _) 0).
  assert (Hn1 : n1 = Zpos k) by (subst n1; unfold fexp, emin; lia).
  rewrite Hn1. cbn [shr].
  set (mrs := iter_pos shr_1 k _).
  assert (Hm : shr_m mrs = Zpos p / 2 ^ Zpos k)
    by (unfold mrs; rewrite iter_shr_1_m by (cbn; lia); reflexivity).
  assert (Hm_lo : 2 ^ (prec - 1) <= shr_m mrs).
  { rewrite Hm. replace (prec - 1) with (Zpos (digits2_pos p) - 1 - Zpos k) by lia.
    apply div_pow2_lower; [ lia | exact Hlo ]. }
  pose proof (round_nearest_even_bounds (shr_m mrs) (loc_of_shr_record mrs)) as Hr.
  set (m1 := round_nearest_even (shr_m mrs) (loc_of_shr_record mrs)) in *.
  pose proof (pow2_pos (prec - 1) ltac:(lia)) as Hpp.
  destruct m1 as [ | p1 | p1 ]; try lia.
  cbn [Zdigits2].
  pose proof (digits2_pos_ge p1 prec ltac:(lia)) as Hd1.
  pose proof (digits2_pos_bounds p1) as [Hlo1 Hhi1].
  set (e1 := Z.add 0 (Zpos k)).
  set (n2 := Z.sub (fexp prec emax _) e1).
  assert (Hn2 : n2 = Zpos (digits2_pos p1) - prec)
    by (subst n2 e1; unfold fexp, emin; lia).
  destruct n2 as [ | k2 | k2 ]; try lia; cbn [shr].
  - cbn [shr_m]. destruct (e1 <=? emax - prec); [ right | left; reflexivity ].
    exists p1, e1. repeat split; subst e1; lia.
  - set (mrs2 := iter_pos shr_1 k2 _).
    assert (Hm2 : shr_m mrs2 = Zpos p1 / 2 ^ Zpos k2)
      by (unfold mrs2; rewrite iter_shr_1_m by (cbn; lia); reflexivity).
    assert (Hm2_lo : 2 ^ (prec - 1) <= shr_m mrs2).
    { rewrite Hm2. replace (prec - 1) with (Zpos (digits2_pos p1) - 1 - Zpos k2) by lia.
      apply div_pow2_lower; [ lia | exact Hlo1 ]. }
    destruct (shr_m mrs2) as [ | p2 | p2 ]; try lia.
    destruct (_ <=? _); [ right | left; reflexivity ].
    eexists _, _. repeat split; [ | exact Hm2_lo ]. subst e1. lia.
Qed.

(** An integer of more digits is converted to a cell at least as large as
    the smallest integer of [prec + 1] digits, or to an infinity. *)
Lemma of_Z_big (z : Z) :
  2 ^ prec <= Z.abs z ->
  IEEE.of_Z prec emax z = S754_infinity (z <? 0) \/
  exists m e,
    IEEE.of_Z prec emax z = S754_finite (z <? 0) m e /\
    1 <= e /\ 2 ^ (prec - 1) <= Zpos m.
Proof.
  intros Hz. pose proof (pow2_pos prec ltac:(lia)) as Hpp.
  unfold IEEE.of_Z, binary_normalize. destruct z as [ | p | p ]; cbn [Z.abs] in Hz.
  - lia.
  - apply binary_round_big.
    pose proof (digits2_pos_ge p (prec + 1)) as H.
    replace (prec + 1 - 1) with prec in H by lia. specialize (H Hz). lia.
  - apply binary_round_big.
    pose proof (digits2_pos_ge p (prec + 1)) as H.
    replace (prec + 1 - 1) with prec in H by lia. specialize (H Hz). lia.
Qed.

(** The conversion keeps the order with respect to an integer of at most
    [prec] digits. *)
Lemma of_Z_compare (z c : Z) :
  Z.abs c < 2 ^ prec ->
  IEEE.compare_Z (IEEE.of_Z prec emax z) c = Some (Z.compare z c).
Proof.
  intros Hc. destruct (Z_lt_le_dec (Z.abs z) (2 ^ prec)) as [Hz | Hz].
  - destruct (of_Z_value prec emax Hprec Hemax z Hz) as [Hf Hv].
    apply compare_Z_integer; assumption.
  - pose proof (pow2_pos (prec - 1) ltac:(lia)) as Hpp.
    assert (Hp2 : 2 ^ prec = 2 * 2 ^ (prec - 1)).
    { replace prec with (Z.succ (prec - 1)) at 1 by lia.
      apply Z.pow_succ_r. lia. }
    destruct (of_Z_big z Hz) as [-> | (m & e & -> & He & Hm)].
    + cbn [IEEE.compare_Z]. f_equal.
      destruct (z <? 0) eqn:Hs; [ apply Z.ltb_lt in Hs | apply Z.ltb_ge in Hs ];
        symmetry; [ apply Z.compare_lt_iff | apply Z.compare_gt_iff ]; lia.
    + cbn [IEEE.compare_Z]. f_equal. unfold IEEE.F2Q.
      destruct e as [ | e | e ]; try lia.
      unfold Qcompare. cbn [Qnum Qden inject_Z]. rewrite !Z.mul_1_r.
      assert (Hbig : 2 ^ prec <= Zpos m * 2 ^ Zpos e).
      { rewrite Hp2, Z.mul_comm.
        assert (2 <= 2 ^ Zpos e)
          by (change 2 with (2 ^ 1) at 1; apply Z.pow_le_mono_r; lia).
        nia. }
      destruct (z <? 0) eqn:Hs; [ apply Z.ltb_lt in Hs | apply Z.ltb_ge in Hs ];
        cbn [cond_Zopp].
      * transitivity Lt; [ apply Z.compare_lt_iff | symmetry; apply Z.compare_lt_iff ];
          lia.
      * transitivity Gt; [ apply Z.compare_gt_iff | symmetry; apply Z.compare_gt_iff ];
          lia.
Qed.

Lemma of_Z_trunc (z : Z) :
  Z.abs z < 2 ^ prec -> IEEE.trunc (IEEE.of_Z prec emax z) = z.
Proof.
  intros Hz. destruct (of_Z_value prec emax Hprec Hemax z Hz) as [Hf Hv].
  apply trunc_integer; assumption.
Qed.

End BigIntegers.

(** ** YYYYMMDDToDate and YYYYMMDDToDate32 *)

Lemma f32_cmp (z c : Z) :
  Z.abs c < 2 ^ 24 -> cmp (f32 z) c = cmp z c.
Proof. intros Hc. cbn [cmp Numeric_float Numeric_long_long]. apply of_Z_compare; lia. Qed.

Lemma f32_trunc (z : Z) : Z.abs z < 2 ^ 24 -> IEEE.trunc (f32 z) = z.
Proof. apply of_Z_trunc; lia. Qed.

Lemma greater_equal_Z (z c : Z) : greater_equal z c = (c <=? z).
Proof.
  unfold greater_equal. cbn [cmp Numeric_long_long].
  rewrite (Z.leb_compare c z), (Z.compare_antisym c z).
  destruct (c ?= z); reflexivity.
Qed.

Lemma less_equal_Z (z c : Z) : less_equal z c = (z <=? c).
Proof.
  unfold less_equal. cbn [cmp Numeric_long_long].
  rewrite (Z.leb_compare z c). destruct (z ?= c); reflexivity.
Qed.

Lemma less_Z (z c : Z) : less z c = (z <? c).
Proof.
  unfold less. cbn [cmp Numeric_long_long].
  rewrite (Z.ltb_compare z c). destruct (z ?= c); reflexivity.
Qed.

Lemma greater_Z (z c : Z) : greater z c = (c <? z).
Proof.
  unfold greater. cbn [cmp Numeric_long_long].
  rewrite (Z.ltb_compare c z), (Z.compare_antisym c z).
  destruct (c ?= z); reflexivity.
Qed.

Lemma greater_equal_f32 (z c : Z) :
  Z.abs c < 2 ^ 24 -> greater_equal (f32 z) c = (c <=? z).
Proof.
  intros Hc. rewrite <- greater_equal_Z. unfold greater_equal.
  rewrite (f32_cmp z c Hc). reflexivity.
Qed.

Lemma less_equal_f32 (z c : Z) :
  Z.abs c < 2 ^ 24 -> less_equal (f32 z) c = (z <=? c).
Proof.
  intros Hc. rewrite <- less_equal_Z. unfold less_equal.
  rewrite (f32_cmp z c Hc). reflexivity.
Qed.

Lemma year_bounds_small (tr : Traits) :
  Z.abs (MIN_YEAR tr) < 2 ^ 24 /\ Z.abs (MAX_YEAR tr) < 2 ^ 24.
Proof. destruct tr; cbn; lia. Qed.

(** The row of the packed constructor is the row of makeDate on the fields
    of the rounded number. *)
Lemma day_num_is_year_month_day (tr : Traits) (date_lut : DateLUTImpl) (x : IEEE.Float64) :
  let yyyymmdd := IEEE.llround x in
  FunctionYYYYYMMDDToDate.day_num tr date_lut x =
  FunctionMakeDate.year_month_day tr date_lut
    (f32 (Z.quot yyyymmdd 10000))
    (f32 (Z.rem (Z.quot yyyymmdd 100) 100))
    (f32 (Z.rem yyyymmdd 100)).
Proof.
  intros yyyymmdd.
  unfold FunctionYYYYYMMDDToDate.day_num, FunctionMakeDate.year_month_day.
  fold yyyymmdd. unfold Int.div, Int.rem.
  set (year := Z.quot yyyymmdd 10000).
  set (month := Z.rem (Z.quot yyyymmdd 100) 100).
  set (day := Z.rem yyyymmdd 100).
  destruct (year_bounds_small tr) as [Hmin Hmax].
  rewrite !greater_equal_f32, !less_equal_f32 by (assumption || (cbn; lia)).
  rewrite (greater_equal_Z year), (less_equal_Z year), (greater_equal_Z month),
    (less_equal_Z month), (greater_equal_Z day), (less_equal_Z day).
  destruct (_ && _) eqn:Htest; [ | reflexivity ].
  split_andb.
  repeat match goal with H : (_ <=? _) = true |- _ => apply Z.leb_le in H end.
  cbn [to_integer Numeric_float].
  rewrite !f32_trunc by lia. reflexivity.
Qed.

(** [round_half_away] gives the nearest integer, and of two nearest integers
    the one away from zero. *)
Lemma round_half_away_spec (q : Q) :
  let r := IEEE.round_half_away q in
  ((0 <= q)%Q -> (inject_Z r - (1 # 2) <= q)%Q /\ (q < inject_Z r + (1 # 2))%Q) /\
  ((q <= 0)%Q -> (inject_Z r - (1 # 2) < q)%Q /\ (q <= inject_Z r + (1 # 2))%Q).
Proof.
  destruct q as [n d]. unfold IEEE.round_half_away. cbn [Qnum Qden].
  pose proof (Z.div_mod (2 * Z.abs n + Zpos d) (2 * Zpos d) ltac:(lia)) as Hdiv.
  pose proof (Z.mod_pos_bound (2 * Z.abs n + Zpos d) (2 * Zpos d) ltac:(lia)) as Hmod.
  set (t := (2 * Z.abs n + Zpos d) / (2 * Zpos d)) in *.
  set (rem := (2 * Z.abs n + Zpos d) mod (2 * Zpos d)) in *.
  unfold Qle, Qlt, Qminus, Qplus, Qopp, inject_Z. cbn [Qnum Qden].
  change (Z.pos (1 * 2)) with 2.
  clearbody t rem. 
  destruct n as [ | p | p ]; cbn [Z.sgn Z.abs] in *; split; intros Hs; lia.
Qed.

Lemma llround_in_range (x : spec_float) :
  IEEE.is_finite x = true ->
  Int.INT64_MIN <= IEEE.round_half_away (IEEE.F2Q x) <= Int.INT64_MAX ->
  IEEE.llround x = IEEE.round_half_away (IEEE.F2Q x).
Proof.
  intros Hf [Hlo Hhi]. destruct x as [s | s | | s m e]; try discriminate.
  - reflexivity.
  - unfold IEEE.llround. apply Z.leb_le in Hlo, Hhi. rewrite Hlo, Hhi. reflexivity.
Qed.

(** The cell of a row of YYYYMMDDToDate or YYYYMMDDToDate32, in a call on
    finite cells. *)
Lemma YYYYMMDDToDate_cell (tr : Traits) (instance : DateLUT)
    (data : list IEEE.Float64) (i : nat) (x : IEEE.Float64) :
  (forall y, In y data -> IEEE.is_finite y = true) ->
  nth_error data i = Some x ->
  exists column,
    FunctionYYYYYMMDDToDate.executeImpl tr instance data = Ok column /\
    nth_error column i =
    Some (FunctionYYYYYMMDDToDate.day_num tr (instance EmptyString) x).
Proof.
  intros Hfinite Hx.
  rewrite YYYYMMDDToDate_call, (forallb_finite_true data Hfinite).
  eexists. split; [ reflexivity | ]. apply map_nth_error, Hx.
Qed.

(** The cell of a row of YYYYMMDDhhmmssToDateTime64, in a call on finite
    cells with a precision argument in [0,9] or none. *)
Lemma YYYYMMDDhhmmssToDateTime64_cell (instance : DateLUT)
    (data : list IEEE.Float64) (precision_argument : option Z)
    (timezone_argument : option string) (precision : Z) (i : nat) (x : IEEE.Float64) :
  0 <= precision <= 9 ->
  precision_argument = Some precision \/
  precision_argument = None /\ precision = FunctionDateTimeBase.DEFAULT_PRECISION ->
  (forall y, In y data -> IEEE.is_finite y = true) ->
  nth_error data i = Some x ->
  exists column,
    FunctionYYYYMMDDhhmmssToDateTime64.executeImpl instance data precision_argument
      timezone_argument = Ok column /\
    nth_error column i =
    Some (FunctionYYYYMMDDhhmmssToDateTime64.value
            (instance match timezone_argument with Some tz => tz | None => EmptyString end)
            precision x).
Proof.
  intros Hp Hprecision Hfinite Hx.
  rewrite YYYYMMDDhhmmssToDateTime64_call, (forallb_finite_true data Hfinite).
  - eexists. split; [ reflexivity | ].
    rewrite (map_nth_error _ i data Hx).
    destruct Hprecision as [-> | [-> ->]]; reflexivity.
  - intros p Hsome. destruct Hprecision as [-> | [-> _]]; [ | discriminate Hsome ].
    injection Hsome as <-. exact Hp.
Qed.

(** C6.  For a finite cell, YYYYMMDDToDate and YYYYMMDDToDate32 round the
    number to the nearest integer, halfway cases away from zero (where the
    rounded number is a [long long]), take year = n / 10000,
    month = n / 100 mod 100 and day = n mod 100 with the truncating division,
    and return what the three-argument makeDate or makeDate32 returns on
    these fields, the 0 of a failed test or of a day number beyond MAX_DATE
    included: this is the cell of the row in the column that a call on
    finite cells returns.  YYYYMMDDToDate(20230911) is makeDate(2023, 9, 11). *)
Theorem YYYYMMDDToDate_is_makeDate_of_fields
    (tr : Traits) (date_lut : DateLUTImpl) (x : IEEE.Float64) :
  IEEE.is_finite x = true ->
  let n := IEEE.round_half_away (IEEE.F2Q x) in
  let yyyymmdd := IEEE.llround x in
  (Int.INT64_MIN <= n <= Int.INT64_MAX -> yyyymmdd = n) /\
  ((0 <= IEEE.F2Q x)%Q ->
   (inject_Z n - (1 # 2) <= IEEE.F2Q x)%Q /\ (IEEE.F2Q x < inject_Z n + (1 # 2))%Q) /\
  ((IEEE.F2Q x <= 0)%Q ->
   (inject_Z n - (1 # 2) < IEEE.F2Q x)%Q /\ (IEEE.F2Q x <= inject_Z n + (1 # 2))%Q) /\
  FunctionYYYYYMMDDToDate.row tr date_lut x =
  Ok (FunctionMakeDate.year_month_day tr date_lut
        (f32 (Z.quot yyyymmdd 10000))
        (f32 (Z.rem (Z.quot yyyymmdd 100) 100))
        (f32 (Z.rem yyyymmdd 100))) /\
  FunctionYYYYYMMDDToDate.row DateTraits Gregorian.lut (f64 20230911) =
  Ok (FunctionMakeDate.year_month_day DateTraits Gregorian.lut
        (f32 2023) (f32 9) (f32 11)) /\
  FunctionMakeDate.year_month_day DateTraits Gregorian.lut (f32 2023) (f32 9) (f32 11)
  = Gregorian.days_from_civil 2023 9 11 /\
  (forall (instance : DateLUT) (data : list IEEE.Float64) (i : nat),
     instance EmptyString = date_lut ->
     (forall y, In y data -> IEEE.is_finite y = true) ->
     nth_error data i = Some x ->
     exists column,
       FunctionYYYYYMMDDToDate.executeImpl tr instance data = Ok column /\
       nth_error column i =
       Some (FunctionMakeDate.year_month_day tr date_lut
               (f32 (Z.quot yyyymmdd 10000))
               (f32 (Z.rem (Z.quot yyyymmdd 100) 100))
               (f32 (Z.rem yyyymmdd 100)))).
Proof.
  intros Hf n yyyymmdd.
  split; [ apply llround_in_range, Hf | ].
  split; [ apply (round_half_away_spec (IEEE.F2Q x)) | ].
  split; [ apply (round_half_away_spec (IEEE.F2Q x)) | ].
  split; [ | split; [ vm_compute; reflexivity | split; [ vm_compute; reflexivity | ] ] ].
  - unfold FunctionYYYYYMMDDToDate.row. rewrite not_finite, Hf. cbn [negb].
    f_equal. apply day_num_is_year_month_day.
  - intros instance data i Hlut Hfinite Hx.
    destruct (YYYYMMDDToDate_cell tr instance data i x Hfinite Hx)
      as (column & Hcolumn & Hcell).
    exists column. split; [ exact Hcolumn | ].
    rewrite Hcell, Hlut. f_equal. apply day_num_is_year_month_day.
Qed.

Lemma YYYYMMDDToDate_is_makeDate_of_fields_witness :
  FunctionYYYYYMMDDToDate.row DateTraits Gregorian.lut (f64 20230911) =
  Ok (FunctionMakeDate.year_month_day DateTraits Gregorian.lut
        (f32 (Z.quot 20230911 10000))
        (f32 (Z.rem (Z.quot 20230911 100) 100))
        (f32 (Z.rem 20230911 100))).
Proof.
  refine (proj1 (proj2 (proj2 (proj2
    (YYYYMMDDToDate_is_makeDate_of_fields DateTraits Gregorian.lut (f64 20230911) _))))).
  reflexivity.
Defined.

(** ** YYYYMMDDhhmmssToDateTime64 *)

Example f64_cells_valid :
  IEEE.is_Float64 f64_0_25 = true /\
  IEEE.is_Float64 f64_20230911123456_75 = true /\
  IEEE.is_Float64 f64_23000101000000_25 = true /\
  (IEEE.F2Q f64_0_25 == 1 # 4)%Q /\
  (IEEE.F2Q f64_20230911123456_75 == 20230911123456 + (3 # 4))%Q /\
  (IEEE.F2Q f64_23000101000000_25 == 23000101000000 + (1 # 4))%Q.
Proof. repeat split; vm_compute; reflexivity. Qed.

(** C4.  For a finite cell, YYYYMMDDhhmmssToDateTime64 takes the residue of
    the cell (the cell minus its rounded integer), scales it by 10^precision
    and rounds the product to the nearest integer; this fraction is packed
    with the seconds of the fields of the rounded integer as it is, also
    when the seconds are the minimum or the maximum sentinel, and the packed
    value is the cell of the row in the column that a call on finite cells
    returns.  The cells 0.25 and 23000101000000.25 are at the two sentinels
    and keep the fraction 250, where makeDateTime64 has 0 and 999999999. *)
Theorem YYYYMMDDhhmmssToDateTime64_packs_residue
    (date_lut : DateLUTImpl) (precision : Z) (x : IEEE.Float64) :
  IEEE.is_finite x = true ->
  let rounded := IEEE.llround x in
  let residue := IEEE.sub64 x (IEEE.Float64_of_Z rounded) in
  let fraction :=
    IEEE.llround (IEEE.mul64 residue (IEEE.Float64_of_Z (10 ^ precision))) in
  let seconds :=
    let '(year, month, day, hour, minute, second) := unpack rounded in
    FunctionDateTimeBase.dateTime year month day hour minute second date_lut in
  FunctionYYYYMMDDhhmmssToDateTime64.row date_lut precision x =
  Ok (DecimalUtils.decimalFromComponents seconds fraction precision) /\
  (seconds = FunctionDateTimeBase.minDateTime date_lut ->
   FunctionYYYYMMDDhhmmssToDateTime64.row date_lut precision x =
   Ok (DecimalUtils.decimalFromComponents
         (FunctionDateTimeBase.minDateTime date_lut) fraction precision)) /\
  (seconds = FunctionDateTimeBase.maxDateTime date_lut ->
   FunctionYYYYMMDDhhmmssToDateTime64.row date_lut precision x =
   Ok (DecimalUtils.decimalFromComponents
         (FunctionDateTimeBase.maxDateTime date_lut) fraction precision)) /\
  FunctionYYYYMMDDhhmmssToDateTime64.row Gregorian.lut 3 f64_0_25 =
  Ok (DecimalUtils.decimalFromComponents
        (FunctionDateTimeBase.minDateTime Gregorian.lut) 250 3) /\
  FunctionYYYYMMDDhhmmssToDateTime64.row Gregorian.lut 3 f64_23000101000000_25 =
  Ok (DecimalUtils.decimalFromComponents
        (FunctionDateTimeBase.maxDateTime Gregorian.lut) 250 3) /\
  FunctionMakeDateTime64.components Gregorian.lut 3 row_1800 (Some (f64 250)) =
  (FunctionDateTimeBase.minDateTime Gregorian.lut, 0) /\
  FunctionMakeDateTime64.components Gregorian.lut 3 row_2300 (Some (f64 250)) =
  (FunctionDateTimeBase.maxDateTime Gregorian.lut, 999999999) /\
  (forall (instance : DateLUT) (data : list IEEE.Float64) precision_argument
          timezone_argument (i : nat),
     0 <= precision <= 9 ->
     instance match timezone_argument with Some tz => tz | None => EmptyString end
     = date_lut ->
     precision_argument = Some precision \/
     precision_argument = None /\ precision = FunctionDateTimeBase.DEFAULT_PRECISION ->
     (forall y, In y data -> IEEE.is_finite y = true) ->
     nth_error data i = Some x ->
     exists column,
       FunctionYYYYMMDDhhmmssToDateTime64.executeImpl instance data precision_argument
         timezone_argument = Ok column /\
       nth_error column i =
       Some (DecimalUtils.decimalFromComponents seconds fraction precision)).
Proof.
  intros Hf rounded residue fraction seconds.
  assert (Hrow : FunctionYYYYMMDDhhmmssToDateTime64.row date_lut precision x =
                 Ok (DecimalUtils.decimalFromComponents seconds fraction precision)).
  { unfold FunctionYYYYMMDDhhmmssToDateTime64.row. rewrite not_finite, Hf.
    reflexivity. }
  split; [ exact Hrow | ].
  split; [ intros <-; exact Hrow | ].
  split; [ intros <-; exact Hrow | ].
  do 4 (split; [ vm_compute; reflexivity | ]).
  intros instance data precision_argument timezone_argument i Hp Hlut Hprecision
    Hfinite Hx.
  destruct (YYYYMMDDhhmmssToDateTime64_cell instance data precision_argument
              timezone_argument precision i x Hp Hprecision Hfinite Hx)
    as (column & Hcolumn & Hcell).
  exists column. split; [ exact Hcolumn | ]. rewrite Hcell, Hlut. reflexivity.
Qed.

Lemma YYYYMMDDhhmmssToDateTime64_packs_residue_witness :
  FunctionYYYYMMDDhhmmssToDateTime64.row Gregorian.lut 3 f64_20230911123456_75 =
  Ok (Gregorian.seconds_from_civil 2023 9 11 12 34 57 * 1000 - 250).
Proof.
  refine (proj1 (YYYYMMDDhhmmssToDateTime64_packs_residue Gregorian.lut 3
                   f64_20230911123456_75 _)).
  reflexivity.
Defined.

(** ** Subtraction without a rounding error *)

Lemma Qeq_by_scaling (a b : Q) (k : Z) :
  0 <= k -> (a * inject_Z (2 ^ k) == b * inject_Z (2 ^ k))%Q -> (a == b)%Q.
Proof.
  intros Hk H. pose proof (pow2_pos k Hk) as Hp.
  apply (Qmult_inj_r _ _ (inject_Z (2 ^ k))); [ | exact H ].
  intros H0. unfold Qeq in H0. cbn [Qnum Qden inject_Z] in H0. lia.
Qed.

Section Subtraction.

Variables prec emax : Z.
Variables (sx sy : bool) (mx my : positive) (ex ey : Z).

Let ez := Z.min ex ey.
Let Dz := cond_Zopp sx (Zpos mx * 2 ^ (ex - ez)) - cond_Zopp sy (Zpos my * 2 ^ (ey - ez)).
Let e' := fexp prec emax (Zdigits2 Dz + ez).

(** A difference whose digits fit the precision is not rounded. *)
Lemma SFsub_exact :
  Dz <> 0 -> e' <= ez -> e' <= emax - prec ->
  exists mz,
    SFsub prec emax (S754_finite sx mx ex) (S754_finite sy my ey)
    = S754_finite (Dz <? 0) mz e' /\
    Zpos mz = Z.abs Dz * 2 ^ (ez - e').
Proof.
  intros HD He Hmax. unfold SFsub. fold ez.
  destruct (shl_align_spec mx ex ez ltac:(subst ez; lia)) as (mx' & -> & Hmx' & _).
  destruct (shl_align_spec my ey ez ltac:(subst ez; lia)) as (my' & -> & Hmy' & _).
  cbn [fst]. rewrite Hmx', Hmy'. fold Dz.
  unfold binary_normalize. subst e'.
  destruct Dz as [ | p | p ]; [ congruence | | ]; cbn [Zdigits2] in *.
  - destruct (binary_round_exact prec emax false p ez He Hmax) as (mz & Hr & Hmz & _).
    exists mz. split; [ exact Hr | exact Hmz ].
  - destruct (binary_round_exact prec emax true p ez He Hmax) as (mz & Hr & Hmz & _).
    exists mz. split; [ exact Hr | exact Hmz ].
Qed.

Lemma SFsub_value :
  Dz <> 0 -> e' <= ez -> e' <= emax - prec ->
  let z := SFsub prec emax (S754_finite sx mx ex) (S754_finite sy my ey) in
  IEEE.is_finite z = true /\ IEEE.signbit z = (Dz <? 0) /\
  (IEEE.F2Q z == IEEE.F2Q (S754_finite sx mx ex) - IEEE.F2Q (S754_finite sy my ey))%Q.
Proof.
  intros HD He Hmax z. subst z.
  destruct (SFsub_exact HD He Hmax) as (mz & -> & Hmz).
  split; [ reflexivity | ]. split; [ reflexivity | ].
  set (k := Z.max 0 (- e')).
  assert (Hz : ez <= ex /\ ez <= ey) by (subst ez; lia).
  apply (Qeq_by_scaling _ _ k); [ lia | ].
  unfold Qminus. rewrite Qmult_plus_distr_l.
  assert (Hopp : forall a b : Q, (- a * b == - (a * b))%Q) by (intros; ring).
  rewrite Hopp, !F2Q_scaled by lia.
  rewrite <- inject_Z_opp, <- inject_Z_plus.
  apply inject_Z_injective.
  assert (Hsign : cond_Zopp (Dz <? 0) (Zpos mz) = Dz * 2 ^ (ez - e')).
  { rewrite Hmz. destruct (Dz <? 0) eqn:Hs;
      [ apply Z.ltb_lt in Hs | apply Z.ltb_ge in Hs ]; cbn [cond_Zopp]; lia. }
  rewrite Hsign.
  replace (ex + k) with ((ex - ez) + (ez + k)) by lia.
  replace (ey + k) with ((ey - ez) + (ez + k)) by lia.
  replace (e' + k) with ((ez + k) - (ez - e')) by lia.
  assert (Hsplit : 2 ^ (ez + k) = 2 ^ (ez - e') * 2 ^ (ez + k - (ez - e'))).
  { rewrite <- Z.pow_add_r by lia. f_equal. lia. }
  rewrite (Z.pow_add_r 2 (ex - ez) (ez + k)), (Z.pow_add_r 2 (ey - ez) (ez + k)) by lia.
  rewrite <- Z.mul_assoc, <- Hsplit.
  unfold Dz. destruct sx, sy; cbn [cond_Zopp]; ring.
Qed.

End Subtraction.


(** ** The residue of a packed number *)

Lemma Float64_finite_bounds (s : bool) (m : positive) (e : Z) :
  IEEE.is_Float64 (S754_finite s m e) = true ->
  - 1074 <= e /\ Zpos m < 2 ^ 53.
Proof.
  unfold IEEE.is_Float64, valid_binary, bounded, canonical_mantissa.
  intros H. apply andb_true_iff in H. destruct H as [Hc _].
  apply Z.eqb_eq in Hc. unfold fexp, emin in Hc.
  pose proof (digits2_pos_bounds m) as [_ Hhi].
  split; [ lia | ].
  apply Z.lt_le_trans with (1 := Hhi). apply Z.pow_le_mono_r; lia.
Qed.

Lemma frac_gt_half (n : Z) (d : positive) :
  (1 # 2 < Spec.frac (n # d))%Q -> Zpos d < 2 * (n mod Zpos d).
Proof.
  unfold Spec.frac, Qfloor, Qlt, Qminus, Qplus, Qopp, inject_Z. cbn [Qnum Qden].
  rewrite Z.mod_eq by discriminate. intros H. lia.
Qed.

Lemma round_half_away_up (n : Z) (d : positive) :
  Zpos d < 2 * (n mod Zpos d) ->
  IEEE.round_half_away (n # d) = n / Zpos d + 1.
Proof.
  intros H. unfold IEEE.round_half_away. cbn [Qnum Qden].
  pose proof (Z.div_mod n (Zpos d) ltac:(discriminate)) as Hdiv.
  pose proof (Z.mod_pos_bound n (Zpos d) ltac:(lia)) as Hmod.
  set (fl := n / Zpos d) in *. set (rr := n mod Zpos d) in *.
  destruct (Z.lt_trichotomy n 0) as [Hn | [Hn | Hn]].
  - rewrite (Z.sgn_neg n Hn), (Z.abs_neq n) by lia.
    rewrite <- (Z.div_unique (2 * - n + Zpos d) (2 * Zpos d) (- fl - 1)
                  (3 * Zpos d - 2 * rr)); lia.
  - exfalso. unfold rr in H. rewrite Hn, Z.mod_0_l in H by discriminate. lia.
  - rewrite (Z.sgn_pos n Hn), (Z.abs_eq n) by lia.
    rewrite <- (Z.div_unique (2 * n + Zpos d) (2 * Zpos d) (fl + 1)
                  (2 * rr - Zpos d)); lia.
Qed.

Lemma llround_nonpos (x : spec_float) :
  IEEE.signbit x = true -> IEEE.llround x <= 0.
Proof.
  destruct x as [s | s | | s m e]; cbn [IEEE.signbit]; intros Hs;
    [ unfold IEEE.llround; lia | vm_compute; congruence | discriminate | ].
  subst s. unfold IEEE.llround.
  assert (Hr : IEEE.round_half_away (IEEE.F2Q (S754_finite true m e)) <= 0).
  { unfold IEEE.round_half_away.
    set (q := IEEE.F2Q (S754_finite true m e)).
    assert (Hn : Qnum q < 0).
  { subst q. unfold IEEE.F2Q. destruct e as [ | e | e ]; cbn [Qnum inject_Z cond_Zopp].
    - lia.
    - pose proof (pow2_pos (Zpos e) ltac:(lia)). nia.
    - lia. }
    rewrite (Z.sgn_neg _ Hn).
    assert (0 <= (2 * Z.abs (Qnum q) + Zpos (Qden q)) / (2 * Zpos (Qden q)))
      by (apply Z.div_pos; lia).
    lia. }
  destruct (_ && _); [ exact Hr | vm_compute; congruence ].
Qed.

Lemma shr_record_of_loc_m (m : Z) (l : location) : shr_m (shr_record_of_loc m l) = m.
Proof. destruct l as [ | [ | | ]]; reflexivity. Qed.

Lemma shr_nonneg (mrs : shr_record) (e n : Z) :
  0 <= shr_m mrs -> 0 <= shr_m (fst (shr mrs e n)).
Proof.
  intros Hm. unfold shr. destruct n as [ | p | p ]; cbn [fst]; auto.
  rewrite iter_shr_1_m by exact Hm. apply Z.div_pos; [ exact Hm | ].
  apply pow2_pos. lia.
Qed.

(** Rounding keeps the sign and gives no NaN. *)
Lemma binary_round_aux_sign (prec emax : Z) (sx : bool) (mx : Z) (ex : Z)
    (lx : location) :
  0 <= mx ->
  IEEE.isnan (binary_round_aux prec emax sx mx ex lx) = false /\
  IEEE.signbit (binary_round_aux prec emax sx mx ex lx) = sx.
Proof.
  intros Hm. unfold binary_round_aux, shr_fexp.
  set (n1 := Z.sub _ ex).
  pose proof (shr_nonneg (shr_record_of_loc mx lx) ex n1) as H1.
  rewrite shr_record_of_loc_m in H1. specialize (H1 Hm).
  destruct (shr (shr_record_of_loc mx lx) ex n1) as [mrs' e']. cbn [fst] in H1.
  pose proof (round_nearest_even_bounds (shr_m mrs') (loc_of_shr_record mrs')) as Hr.
  set (m1 := round_nearest_even (shr_m mrs') (loc_of_shr_record mrs')) in *.
  set (n2 := Z.sub _ e').
  pose proof (shr_nonneg (shr_record_of_loc m1 loc_Exact) e' n2) as H2.
  rewrite shr_record_of_loc_m in H2. specialize (H2 ltac:(lia)).
  destruct (shr (shr_record_of_loc m1 loc_Exact) e' n2) as [mrs'' e'']. cbn [fst] in H2.
  destruct (shr_m mrs'') as [ | p | p ]; [ | | lia ].
  - split; reflexivity.
  - destruct (_ <=? _); split; reflexivity.
Qed.

Lemma mul64_negative (x : spec_float) (my : positive) (ey : Z) :
  IEEE.is_finite x = true -> IEEE.signbit x = true ->
  IEEE.signbit (IEEE.mul64 x (S754_finite false my ey)) = true.
Proof.
  intros Hf Hs. destruct x as [s | s | | s m e]; try discriminate;
    cbn [IEEE.signbit] in Hs; subst s; unfold IEEE.mul64, SFmul.
  - reflexivity.
  - apply binary_round_aux_sign. lia.
Qed.

Lemma residue_of_rounded_up (x : IEEE.Float64) :
  IEEE.is_Float64 x = true -> IEEE.is_finite x = true ->
  (1 # 2 < Spec.frac (IEEE.F2Q x))%Q ->
  let residue := FunctionYYYYMMDDhhmmssToDateTime64.decimal x in
  IEEE.llround x = Qfloor (IEEE.F2Q x) + 1 /\
  IEEE.is_finite residue = true /\ IEEE.signbit residue = true /\
  (IEEE.F2Q residue == IEEE.F2Q x - inject_Z (IEEE.llround x))%Q /\
  (IEEE.F2Q residue < 0)%Q.
Proof.
  intros Hv Hf Hfrac.
  destruct x as [s | s | | s m e];
    [ apply (frac_gt_half 0 1) in Hfrac; rewrite Z.mod_0_l in Hfrac; lia
    | discriminate | discriminate | ].
  destruct (Float64_finite_bounds s m e Hv) as [He Hm].
  destruct e as [ | pe | j ].
  { exfalso. unfold IEEE.F2Q, inject_Z in Hfrac. apply frac_gt_half in Hfrac.
    rewrite Z.mod_1_r in Hfrac. lia. }
  { exfalso. unfold IEEE.F2Q, inject_Z in Hfrac. apply frac_gt_half in Hfrac.
    rewrite Z.mod_1_r in Hfrac. lia. }
  assert (HF : IEEE.F2Q (S754_finite s m (Zneg j))
               = Qmake (cond_Zopp s (Zpos m)) (2 ^ j)%positive) by reflexivity.
  rewrite HF in *. clear HF.
  set (M := cond_Zopp s (Zpos m)) in *.
  assert (HD : Zpos (2 ^ j)%positive = 2 ^ Zpos j) by apply Pos2Z.inj_pow.
  apply frac_gt_half in Hfrac.
  pose proof (round_half_away_up M _ Hfrac) as Hround.
  rewrite HD in *.
  pose proof (pow2_pos (Zpos j) ltac:(lia)) as HDpos.
  set (D := 2 ^ Zpos j) in *.
  pose proof (Z.div_mod M D ltac:(lia)) as Hdiv.
  pose proof (Z.mod_pos_bound M D ltac:(lia)) as Hmod.
  set (fl := M / D) in *. set (rr := M mod D) in *.
  assert (HM : Z.abs M = Zpos m) by (subst M; destruct s; reflexivity).
  assert (HD2 : 2 <= D).
  { subst D. change 2 with (2 ^ 1) at 1. apply Z.pow_le_mono_r; lia. }
  change (2 ^ 53) with 9007199254740992 in *.
  assert (Hfl : - 4503599627370496 <= fl < 4503599627370496) by nia.
  assert (Hll : IEEE.llround (S754_finite s m (Zneg j)) = fl + 1).
  { rewrite <- Hround. apply llround_in_range; [ reflexivity | ].
    change (IEEE.F2Q (S754_finite s m (Zneg j))) with (M # 2 ^ j).
    rewrite Hround. unfold Int.INT64_MIN, Int.INT64_MAX.
    change (2 ^ 63) with 9223372036854775808. lia. }
  intros residue. subst residue.
  unfold FunctionYYYYMMDDhhmmssToDateTime64.decimal. rewrite Hll.
  split. { unfold Qfloor. rewrite HD. reflexivity. }
  assert (Hneg : M - (fl + 1) * D < 0) by lia.
  assert (Hlt : ((M # 2 ^ j) - inject_Z (fl + 1) < 0)%Q).
  { unfold Qlt, Qminus, Qplus, Qopp, inject_Z. cbn [Qnum Qden].
    rewrite Pos.mul_1_r, HD. lia. }
  destruct (Z.eq_dec (fl + 1) 0) as [H0 | H0].
  - rewrite H0 in *.
    change (IEEE.sub64 (S754_finite s m (Zneg j)) (IEEE.Float64_of_Z 0))
      with (S754_finite s m (Zneg j)).
    assert (Hs : s = true) by (destruct s; [ reflexivity | subst M; cbn in *; lia ]).
    split; [ reflexivity | ]. split; [ exact Hs | ].
    change (IEEE.F2Q (S754_finite s m (Zneg j))) with (M # 2 ^ j).
    split; [ ring | ].
    assert (Heq : ((M # 2 ^ j) == (M # 2 ^ j) - inject_Z 0)%Q) by ring.
    rewrite Heq. exact Hlt.
  - set (r := fl + 1) in *.
    destruct (of_Z_exact 53 1024 ltac:(lia) ltac:(lia) r) as (my & ey & Hy & Hey & Hmy & Hmyb);
      [ change (2 ^ 53) with 9007199254740992; lia | exact H0 | ].
    unfold IEEE.Float64_of_Z. rewrite Hy.
    pose proof (SFsub_value 53 1024 s (r <? 0) m my (Zneg j) ey) as Hsub.
    cbv zeta in Hsub.
    set (ez := Z.min (Zneg j) ey) in *.
    set (Dz := Z.sub _ _) in Hsub.
    assert (Hcy : cond_Zopp (r <? 0) (Zpos my) = r * 2 ^ (- ey)).
    { rewrite Hmy. destruct (r <? 0) eqn:Hs;
        [ apply Z.ltb_lt in Hs; rewrite Z.abs_neq by lia
        | apply Z.ltb_ge in Hs; rewrite Z.abs_eq by lia ]; cbn [cond_Zopp]; ring. }
    assert (Hyv : (IEEE.F2Q (S754_finite (r <? 0) my ey) == inject_Z r)%Q)
      by (apply F2Q_integer; assumption).
    assert (HDm : D < 2 * Zpos m) by nia.
    assert (Hj : Zpos j < 54).
    { apply (Z.pow_lt_mono_r_iff 2); [ lia | lia | ].
      change (2 ^ 54) with 18014398509481984. fold D. lia. }
    assert (Hey' : - ey < 53).
    { apply (Z.pow_lt_mono_r_iff 2); [ lia | lia | ].
      pose proof (pow2_pos (- ey) ltac:(lia)). nia. }
    assert (Hez : - 53 <= ez <= Zneg j /\ ez <= ey) by (subst ez; lia).
    set (P := 2 ^ (Zneg j - ez)) in *.
    pose proof (pow2_pos (Zneg j - ez) ltac:(lia)) as HP. fold P in HP.
    assert (HDP : 2 ^ (- ey) * 2 ^ (ey - ez) = D * P).
    { subst D P. rewrite <- !Z.pow_add_r by lia. f_equal. lia. }
    assert (HDz : Dz = (M - r * D) * P).
    { subst Dz.
      replace (cond_Zopp s (Zpos m * P)) with (M * P)
        by (subst M; destruct s; cbn [cond_Zopp]; ring).
      replace (cond_Zopp (r <? 0) (Zpos my * 2 ^ (ey - ez)))
        with (cond_Zopp (r <? 0) (Zpos my) * 2 ^ (ey - ez))
        by (destruct (r <? 0); cbn [cond_Zopp]; ring).
      rewrite Hcy, <- Z.mul_assoc, HDP. ring. }
    assert (HDzneg : Dz < 0) by nia.
    assert (HDzbound : 2 * - Dz < D * P) by nia.
    assert (HDPbound : D * P <= 2 ^ 53).
    { rewrite <- HDP, <- Z.pow_add_r by lia. apply Z.pow_le_mono_r; lia. }
    assert (Hdig : Zdigits2 Dz <= 53).
    { destruct Dz as [ | p | p ]; try lia. cbn [Zdigits2].
      apply digits2_pos_le; lia. }
    assert (Hdig0 : 0 <= Zdigits2 Dz) by (destruct Dz; cbn; lia).
    destruct Hsub as (Hfin & Hsign & Hval).
    { lia. }
    { unfold fexp, emin. lia. }
    { unfold fexp, emin. lia. }
    unfold IEEE.sub64.
    split; [ exact Hfin | ].
    split; [ rewrite Hsign; apply Z.ltb_lt; exact HDzneg | ].
    assert (Hval' : (IEEE.F2Q (SFsub 53 1024 (S754_finite s m (Zneg j))
                                 (S754_finite (r <? 0) my ey))
                     == (M # 2 ^ j) - inject_Z r)%Q).
    { rewrite Hval, Hyv. reflexivity. }
    split; [ exact Hval' | ]. rewrite Hval'. exact Hlt.
Qed.

(** The claim of C10 fails at precision 0: the cell 20230911123456.75 is
    rounded up, its residue is -0.25, and the fraction is 0, not negative. *)
Lemma YYYYMMDDhhmmssToDateTime64_fraction_zero :
  IEEE.is_Float64 f64_20230911123456_75 = true /\
  IEEE.is_finite f64_20230911123456_75 = true /\
  (1 # 2 < Spec.frac (IEEE.F2Q f64_20230911123456_75))%Q /\
  IEEE.llround f64_20230911123456_75 = 20230911123457 /\
  (IEEE.F2Q (FunctionYYYYMMDDhhmmssToDateTime64.decimal f64_20230911123456_75)
   == - (1 # 4))%Q /\
  FunctionYYYYMMDDhhmmssToDateTime64.fraction 0 f64_20230911123456_75 = 0 /\
  ~ FunctionYYYYMMDDhhmmssToDateTime64.fraction 0 f64_20230911123456_75 < 0.
Proof. repeat split; vm_compute; congruence. Qed.

(** C10, amended.  In YYYYMMDDhhmmssToDateTime64 the cell is rounded to the
    nearest integer before it is taken apart: for a finite Float64 cell
    whose fractional part exceeds one half, the fields are those of the
    rounded-up integer and the residue (the cell minus the rounded integer)
    is negative, so the fraction that is packed is never positive: it is
    negative, or 0 when the scaled residue rounds to 0.  For some finite
    cells the fraction is negative (-250 for 20230911123456.75 at precision
    3), not one in [0, 10^precision - 1].  The cell of the row in the column
    that a call on finite cells returns is packed from these seconds and
    this fraction. *)
Theorem YYYYMMDDhhmmssToDateTime64_rounded_up
    (date_lut : DateLUTImpl) (precision : Z) (x : IEEE.Float64) :
  IEEE.is_Float64 x = true -> IEEE.is_finite x = true ->
  (1 # 2 < Spec.frac (IEEE.F2Q x))%Q ->
  0 <= precision <= 9 ->
  let rounded_up := Qfloor (IEEE.F2Q x) + 1 in
  let residue := FunctionYYYYMMDDhhmmssToDateTime64.decimal x in
  IEEE.llround x = rounded_up /\
  FunctionYYYYMMDDhhmmssToDateTime64.seconds date_lut x =
  (let '(year, month, day, hour, minute, second) := unpack rounded_up in
   FunctionDateTimeBase.dateTime year month day hour minute second date_lut) /\
  (IEEE.F2Q residue == IEEE.F2Q x - inject_Z rounded_up)%Q /\
  (IEEE.F2Q residue < 0)%Q /\
  FunctionYYYYMMDDhhmmssToDateTime64.fraction precision x <= 0 /\
  FunctionYYYYMMDDhhmmssToDateTime64.fraction 3 f64_20230911123456_75 = - 250 /\
  (forall (instance : DateLUT) (data : list IEEE.Float64) precision_argument
          timezone_argument (i : nat),
     instance match timezone_argument with Some tz => tz | None => EmptyString end
     = date_lut ->
     precision_argument = Some precision \/
     precision_argument = None /\ precision = FunctionDateTimeBase.DEFAULT_PRECISION ->
     (forall y, In y data -> IEEE.is_finite y = true) ->
     nth_error data i = Some x ->
     exists column,
       FunctionYYYYMMDDhhmmssToDateTime64.executeImpl instance data precision_argument
         timezone_argument = Ok column /\
       nth_error column i =
       Some (DecimalUtils.decimalFromComponents
               (FunctionYYYYMMDDhhmmssToDateTime64.seconds date_lut x)
               (FunctionYYYYMMDDhhmmssToDateTime64.fraction precision x)
               precision)).
Proof.
  intros Hv Hf Hfrac Hp rounded_up residue.
  destruct (residue_of_rounded_up x Hv Hf Hfrac) as (Hll & Hfin & Hsign & Hval & Hneg).
  fold rounded_up in Hll. fold residue in Hfin, Hsign, Hval, Hneg.
  split; [ exact Hll | ].
  split; [ unfold FunctionYYYYMMDDhhmmssToDateTime64.seconds; rewrite Hll; reflexivity | ].
  split; [ rewrite <- Hll; exact Hval | ].
  split; [ exact Hneg | ].
  split; [ | split; [ vm_compute; reflexivity | ] ].
  - unfold FunctionYYYYMMDDhhmmssToDateTime64.fraction, DecimalUtils.exp10_i32.
    fold residue.
    pose proof (pow10_pos precision (proj1 Hp)) as Hpow.
    assert (Hpow9 : 10 ^ precision <= 10 ^ 9) by (apply Z.pow_le_mono_r; lia).
    change (10 ^ 9) with 1000000000 in Hpow9.
    destruct (of_Z_exact 53 1024 ltac:(lia) ltac:(lia) (10 ^ precision))
      as (my & ey & Hy & _);
      [ change (2 ^ 53) with 9007199254740992; lia | lia | ].
    unfold IEEE.Float64_of_Z. rewrite Hy.
    replace (10 ^ precision <? 0) with false by (symmetry; apply Z.ltb_ge; lia).
    apply llround_nonpos, mul64_negative; assumption.
  - intros instance data precision_argument timezone_argument i Hlut Hprecision
      Hfinite Hx.
    destruct (YYYYMMDDhhmmssToDateTime64_cell instance data precision_argument
                timezone_argument precision i x Hp Hprecision Hfinite Hx)
      as (column & Hcolumn & Hcell).
    exists column. split; [ exact Hcolumn | ]. rewrite Hcell, Hlut. reflexivity.
Qed.

Lemma YYYYMMDDhhmmssToDateTime64_rounded_up_witness :
  IEEE.llround f64_20230911123456_75 = 20230911123457 /\
  FunctionYYYYMMDDhhmmssToDateTime64.fraction 3 f64_20230911123456_75 <= 0.
Proof.
  assert (Hfrac : (1 # 2 < Spec.frac (IEEE.F2Q f64_20230911123456_75))%Q)
    by (vm_compute; reflexivity).
  assert (Hp : 0 <= 3 <= 9) by lia.
  destruct (YYYYMMDDhhmmssToDateTime64_rounded_up Gregorian.lut 3
              f64_20230911123456_75 eq_refl eq_refl Hfrac Hp)
    as (Hll & _ & _ & _ & Hle & _).
  split; [ exact Hll | exact Hle ].
Defined.

(** ** The fields of a packed number *)

(** The truncating division and its remainder, by a positive divisor. *)
Lemma quot_rem_facts (a b : Z) :
  0 < b ->
  a = b * Z.quot a b + Z.rem a b /\
  (0 <= a -> 0 <= Z.rem a b < b /\ 0 <= Z.quot a b) /\
  (a <= 0 -> - b < Z.rem a b <= 0 /\ Z.quot a b <= 0).
Proof.
  intros Hb. split; [ apply Z.quot_rem'; lia | ]. split; intros Ha.
  - split; [ apply Z.rem_bound_pos; lia | apply Z.quot_pos; lia ].
  - split; [ apply Z.rem_bound_pos_neg; lia | ].
    pose proof (Z.mul_quot_ge a b Ha ltac:(lia)). nia.
Qed.

(** The six fields of a number are its pairs of decimal digits, the year
    taking what is left, and they have the sign of the number. *)
Lemma unpack_digits (n : Z) :
  let '(year, month, day, hour, minute, second) := unpack n in
  n = ((((year * 100 + month) * 100 + day) * 100 + hour) * 100 + minute) * 100
      + second /\
  (0 <= n ->
   0 <= year /\ 0 <= month < 100 /\ 0 <= day < 100 /\
   0 <= hour < 100 /\ 0 <= minute < 100 /\ 0 <= second < 100) /\
  (n <= 0 ->
   year <= 0 /\ - 100 < month <= 0 /\ - 100 < day <= 0 /\
   - 100 < hour <= 0 /\ - 100 < minute <= 0 /\ - 100 < second <= 0).
Proof.
  unfold unpack, Int.div, Int.rem.
  set (yyyymmdd := Z.quot n 1000000). set (hhmmss := Z.rem n 1000000).
  assert (Hy : Z.quot yyyymmdd 10000 = Z.quot (Z.quot yyyymmdd 100) 100)
    by (rewrite Z.quot_quot by lia; reflexivity).
  assert (Hh : Z.quot hhmmss 10000 = Z.quot (Z.quot hhmmss 100) 100)
    by (rewrite Z.quot_quot by lia; reflexivity).
  rewrite Hy, Hh.
  destruct (quot_rem_facts n 1000000 ltac:(lia)) as (E0 & P0 & N0).
  destruct (quot_rem_facts yyyymmdd 100 ltac:(lia)) as (E1 & P1 & N1).
  destruct (quot_rem_facts (Z.quot yyyymmdd 100) 100 ltac:(lia)) as (E2 & P2 & N2).
  destruct (quot_rem_facts hhmmss 100 ltac:(lia)) as (E3 & P3 & N3).
  destruct (quot_rem_facts (Z.quot hhmmss 100) 100 ltac:(lia)) as (E4 & P4 & N4).
  fold yyyymmdd hhmmss in E0, P0, N0.
  split; [ lia | ]. split; intros Hn.
  - specialize (P0 Hn). specialize (P1 ltac:(lia)). specialize (P2 ltac:(lia)).
    specialize (P3 ltac:(lia)). specialize (P4 ltac:(lia)). lia.
  - specialize (N0 Hn). specialize (N1 ltac:(lia)). specialize (N2 ltac:(lia)).
    specialize (N3 ltac:(lia)). specialize (N4 ltac:(lia)). lia.
Qed.

(** X1.  Taking a number apart loses nothing: the year, month, day, hour,
    minute and second that YYYYMMDDhhmmssToDateTime and
    YYYYMMDDhhmmssToDateTime64 read from a rounded number recombine to it,
    the five fields after the year are below 100 in magnitude, and no field
    has the sign opposite to the number's (the division of C++ truncates). *)
Theorem unpack_recombines (n : Z) :
  let '(year, month, day, hour, minute, second) := unpack n in
  n = ((((year * 100 + month) * 100 + day) * 100 + hour) * 100 + minute) * 100
      + second /\
  Z.abs month < 100 /\ Z.abs day < 100 /\ Z.abs hour < 100 /\
  Z.abs minute < 100 /\ Z.abs second < 100 /\
  0 <= n * year /\ 0 <= n * month /\ 0 <= n * day /\
  0 <= n * hour /\ 0 <= n * minute /\ 0 <= n * second.
Proof.
  pose proof (unpack_digits n) as H.
  destruct (unpack n) as [[[[[year month] day] hour] minute] second].
  destruct H as (E & P & N). split; [ exact E | ].
  destruct (Z_le_gt_dec 0 n) as [Hn | Hn].
  - specialize (P Hn). repeat split; try lia; apply Z.mul_nonneg_nonneg; lia.
  - specialize (N ltac:(lia)). repeat split; try lia; apply Z.mul_nonpos_nonpos; lia.
Qed.

(** ** Cells of integers *)

(** The conversion of an integer gives no NaN. *)
Lemma of_Z_not_nan (prec emax z : Z) : IEEE.isnan (IEEE.of_Z prec emax z) = false.
Proof.
  unfold IEEE.of_Z, binary_normalize. destruct z as [ | p | p ]; [ reflexivity | | ].
  all: unfold binary_round; destruct (shl_align _ _ _) as [mz ez];
    apply binary_round_aux_sign; lia.
Qed.

(** An integer is its own nearest integer. *)
Lemma round_half_away_integer (q : Q) (z : Z) :
  (q == inject_Z z)%Q -> IEEE.round_half_away q = z.
Proof.
  destruct q as [n d]. unfold Qeq, IEEE.round_half_away. cbn [Qnum Qden inject_Z].
  rewrite Z.mul_1_r. intros ->.
  assert (Hdiv : (2 * Z.abs (z * Zpos d) + Zpos d) / (2 * Zpos d) = Z.abs z).
  { symmetry. apply (Z.div_unique _ _ _ (Zpos d)); [ lia | ].
    rewrite Z.abs_mul, (Z.abs_eq (Zpos d)) by lia. ring. }
  rewrite Hdiv, Z.sgn_mul, (Z.sgn_pos (Zpos d)), Z.mul_1_r by lia.
  rewrite Z.mul_comm. apply Z.abs_sgn.
Qed.

Lemma llround_integer (x : spec_float) (z : Z) :
  IEEE.is_finite x = true -> (IEEE.F2Q x == inject_Z z)%Q ->
  Int.INT64_MIN <= z <= Int.INT64_MAX -> IEEE.llround x = z.
Proof.
  intros Hf Hx Hz. rewrite llround_in_range by
    (rewrite ?(round_half_away_integer _ _ Hx); assumption).
  apply round_half_away_integer, Hx.
Qed.

(** The Float64 cell of an integer of at most 53 digits, and its rounding. *)
Lemma llround_f64 (n : Z) :
  Z.abs n < 2 ^ 53 ->
  IEEE.is_finite (f64 n) = true /\ IEEE.llround (f64 n) = n.
Proof.
  intros Hn.
  destruct (of_Z_value 53 1024 ltac:(lia) ltac:(lia) n Hn) as [Hf Hv].
  split; [ exact Hf | ]. apply llround_integer; [ exact Hf | exact Hv | ].
  unfold Int.INT64_MIN, Int.INT64_MAX.
  change (2 ^ 53) with 9007199254740992 in Hn.
  change (2 ^ 63) with 9223372036854775808. lia.
Qed.

Lemma less_f32 (z c : Z) : Z.abs c < 2 ^ 24 -> less (f32 z) c = (z <? c).
Proof.
  intros Hc. rewrite <- less_Z. unfold less. rewrite (f32_cmp z c Hc). reflexivity.
Qed.

Lemma greater_f32 (z c : Z) : Z.abs c < 2 ^ 24 -> greater (f32 z) c = (c <? z).
Proof.
  intros Hc. rewrite <- greater_Z. unfold greater. rewrite (f32_cmp z c Hc). reflexivity.
Qed.

(** [dateTime] on [long long] fields is [dateTime] on their Float32 cells:
    the packed constructors and the field constructors share the tests and
    the calendar. *)
Lemma dateTime_of_integers (lut : DateLUTImpl) (year month day hour minute second : Z) :
  ordered_years lut ->
  FunctionDateTimeBase.dateTime year month day hour minute second lut =
  FunctionDateTimeBase.dateTime
    (f32 year) (f32 month) (f32 day) (f32 hour) (f32 minute) (f32 second) lut.
Proof.
  intros [[Hmin Hmax] Hord]. change (2 ^ 15) with 32768 in Hmin, Hmax.
  unfold FunctionDateTimeBase.dateTime.
  cbn [std_isnan Numeric_float Numeric_long_long]. unfold f32, IEEE.Float32_of_Z.
  rewrite !of_Z_not_nan. fold IEEE.Float32_of_Z. fold (f32 year) (f32 month) (f32 day)
    (f32 hour) (f32 minute) (f32 second).
  rewrite !less_f32, !greater_f32 by (change (2 ^ 24) with 16777216; lia).
  rewrite (less_Z year), (less_Z month), (less_Z day), (less_Z hour), (less_Z minute),
    (less_Z second), (greater_Z year), (greater_Z month), (greater_Z day),
    (greater_Z hour), (greater_Z minute), (greater_Z second).
  cbn [orb].
  destruct (_ || _) eqn:Htest; [ reflexivity | ].
  destruct (DATE_LUT_MAX_YEAR lut <? year) eqn:Hgt; [ reflexivity | ].
  repeat match goal with
         | H : _ || _ = false |- _ => apply orb_false_iff in H; destruct H
         end.
  repeat match goal with
         | H : (_ <? _) = false |- _ => apply Z.ltb_ge in H
         end.
  cbn [to_integer Numeric_float Numeric_long_long].
  rewrite !f32_trunc by (change (2 ^ 24) with 16777216; lia). reflexivity.
Qed.

(** ** The packed constructors and the field constructors *)

(** X2.  For a finite cell, YYYYMMDDhhmmssToDateTime returns what makeDateTime
    returns on the year, month, day, hour, minute and second of the rounded
    number, the clamp to [0, 0xFFFFFFFF] included, and the seconds of
    YYYYMMDDhhmmssToDateTime64 are the seconds makeDateTime64 takes for these
    fields: the packed constructors and the field constructors agree on the
    tests of the fields and on the two sentinels. *)
Theorem YYYYMMDDhhmmssToDateTime_is_makeDateTime_of_fields
    (date_lut : DateLUTImpl) (x : IEEE.Float64) :
  ordered_years date_lut -> IEEE.is_finite x = true ->
  let '(year, month, day, hour, minute, second) := unpack (IEEE.llround x) in
  let r := fields year month day hour minute second in
  FunctionYYYYMMDDhhmmssToDateTime.row date_lut x =
  Ok (FunctionMakeDateTime.row date_lut r) /\
  forall precision,
    FunctionYYYYMMDDhhmmssToDateTime64.seconds date_lut x =
    fst (FunctionMakeDateTime64.components date_lut precision r None).
Proof.
  intros Hyears Hf.
  unfold FunctionYYYYMMDDhhmmssToDateTime.row,
    FunctionYYYYMMDDhhmmssToDateTime.date_time,
    FunctionYYYYMMDDhhmmssToDateTime64.seconds.
  rewrite not_finite, Hf. cbn [negb].
  destruct (unpack (IEEE.llround x)) as [[[[[year month] day] hour] minute] second].
  cbv zeta. split.
  - rewrite (dateTime_of_integers date_lut _ _ _ _ _ _ Hyears). reflexivity.
  - intros precision. rewrite components_seconds by discriminate.
    apply dateTime_of_integers, Hyears.
Qed.

Lemma Gregorian_ordered_years : ordered_years Gregorian.lut.
Proof. split; [ exact Gregorian_Int16_years | vm_compute; congruence ]. Qed.

Lemma YYYYMMDDhhmmssToDateTime_is_makeDateTime_of_fields_witness :
  FunctionYYYYMMDDhhmmssToDateTime.row Gregorian.lut (f64 20230911131415) =
  Ok (FunctionMakeDateTime.row Gregorian.lut (fields 2023 9 11 13 14 15)).
Proof.
  exact (proj1 (YYYYMMDDhhmmssToDateTime_is_makeDateTime_of_fields Gregorian.lut
                  (f64 20230911131415) Gregorian_ordered_years eq_refl)).
Defined.

(** The fields of a number written with two digits for each of the month,
    day, hour, minute and second. *)
Lemma unpack_of_digits (year month day hour minute second : Z) :
  0 <= year -> 0 <= month < 100 -> 0 <= day < 100 ->
  0 <= hour < 100 -> 0 <= minute < 100 -> 0 <= second < 100 ->
  unpack (((((year * 100 + month) * 100 + day) * 100 + hour) * 100 + minute) * 100
          + second)
  = (year, month, day, hour, minute, second).
Proof.
  intros Hy Hmo Hd Hh Hmi Hs.
  set (n := ((((year * 100 + month) * 100 + day) * 100 + hour) * 100 + minute) * 100
            + second).
  pose proof (unpack_digits n) as H.
  destruct (unpack n) as [[[[[year' month'] day'] hour'] minute'] second'].
  destruct H as (E & P & _). specialize (P ltac:(subst n; lia)).
  assert (second' = second) by (subst n; lia).
  assert (minute' = minute) by (subst n; lia).
  assert (hour' = hour) by (subst n; lia).
  assert (day' = day) by (subst n; lia).
  assert (month' = month) by (subst n; lia).
  assert (year' = year) by (subst n; lia).
  congruence.
Qed.

(** X3.  Reading back a number written from fields: for a year below 900000
    and a month, day, hour, minute and second of two digits, the Float64 cell
    of the number YYYYMMDDhhmmss is taken apart into these very fields, so
    that YYYYMMDDhhmmssToDateTime is makeDateTime of the fields and
    YYYYMMDDhhmmssToDateTime64 has the seconds of [dateTime] on them. *)
Theorem YYYYMMDDhhmmssToDateTime_reads_back_fields
    (date_lut : DateLUTImpl) (year month day hour minute second : Z) :
  ordered_years date_lut ->
  0 <= year < 900000 -> 0 <= month < 100 -> 0 <= day < 100 ->
  0 <= hour < 100 -> 0 <= minute < 100 -> 0 <= second < 100 ->
  let n := ((((year * 100 + month) * 100 + day) * 100 + hour) * 100 + minute) * 100
           + second in
  IEEE.llround (f64 n) = n /\
  unpack (IEEE.llround (f64 n)) = (year, month, day, hour, minute, second) /\
  FunctionYYYYMMDDhhmmssToDateTime.row date_lut (f64 n) =
  Ok (FunctionMakeDateTime.row date_lut (fields year month day hour minute second)) /\
  FunctionYYYYMMDDhhmmssToDateTime64.seconds date_lut (f64 n) =
  FunctionDateTimeBase.dateTime
    (f32 year) (f32 month) (f32 day) (f32 hour) (f32 minute) (f32 second) date_lut.
Proof.
  intros Hyears Hy Hmo Hd Hh Hmi Hs n.
  assert (Hn : Z.abs n < 2 ^ 53)
    by (change (2 ^ 53) with 9007199254740992; subst n; lia).
  destruct (llround_f64 n Hn) as [Hf Hll].
  assert (Hu : unpack n = (year, month, day, hour, minute, second))
    by (apply unpack_of_digits; lia).
  split; [ exact Hll | ]. split; [ rewrite Hll; exact Hu | ].
  unfold FunctionYYYYMMDDhhmmssToDateTime.row,
    FunctionYYYYMMDDhhmmssToDateTime.date_time,
    FunctionYYYYMMDDhhmmssToDateTime64.seconds.
  rewrite not_finite, Hf, Hll, Hu. cbn [negb].
  rewrite (dateTime_of_integers date_lut _ _ _ _ _ _ Hyears).
  split; reflexivity.
Qed.

Lemma YYYYMMDDhhmmssToDateTime_reads_back_fields_witness :
  FunctionYYYYMMDDhhmmssToDateTime.row Gregorian.lut (f64 20230911131415) =
  Ok (FunctionMakeDateTime.row Gregorian.lut (fields 2023 9 11 13 14 15)).
Proof.
  refine (proj1 (proj2 (proj2
    (YYYYMMDDhhmmssToDateTime_reads_back_fields Gregorian.lut 2023 9 11 13 14 15
       Gregorian_ordered_years _ _ _ _ _ _)))); lia.
Defined.

(** The row of the packed date constructor, with the tests on integers. *)
Lemma day_num_tests (tr : Traits) (date_lut : DateLUTImpl) (x : IEEE.Float64) :
  let n := IEEE.llround x in
  let year := Z.quot n 10000 in
  let month := Z.rem (Z.quot n 100) 100 in
  let day := Z.rem n 100 in
  FunctionYYYYYMMDDToDate.day_num tr date_lut x =
  store tr
    (if (MIN_YEAR tr <=? year) && (year <=? MAX_YEAR tr) &&
        (1 <=? month) && (month <=? 12) && (1 <=? day) && (day <=? 31)
     then
       let days_since_epoch :=
         makeDayNum date_lut (Int.to_Int16 year) (Int.to_UInt8 month) (Int.to_UInt8 day) in
       if days_since_epoch <=? FunctionMakeDate.max_days_since_epoch tr date_lut
       then days_since_epoch else 0
     else 0).
Proof.
  intros n year month day. unfold FunctionYYYYYMMDDToDate.day_num, Int.div, Int.rem.
  fold n. fold year month day.
  rewrite (greater_equal_Z year), (less_equal_Z year), (greater_equal_Z month),
    (less_equal_Z month), (greater_equal_Z day), (less_equal_Z day).
  reflexivity.
Qed.

(** The year, month and day of a number, as its digits. *)
Lemma date_digits (n : Z) :
  let year := Z.quot n 10000 in
  let month := Z.rem (Z.quot n 100) 100 in
  let day := Z.rem n 100 in
  n = (year * 100 + month) * 100 + day /\
  (0 <= n -> 0 <= year /\ 0 <= month < 100 /\ 0 <= day < 100) /\
  (n <= 0 -> year <= 0 /\ - 100 < month <= 0 /\ - 100 < day <= 0).
Proof.
  intros year month day. subst year month day.
  assert (Hy : Z.quot n 10000 = Z.quot (Z.quot n 100) 100)
    by (rewrite Z.quot_quot by lia; reflexivity).
  rewrite Hy.
  destruct (quot_rem_facts n 100 ltac:(lia)) as (E1 & P1 & N1).
  destruct (quot_rem_facts (Z.quot n 100) 100 ltac:(lia)) as (E2 & P2 & N2).
  split; [ lia | ]. split; intros Hn.
  - specialize (P1 Hn). specialize (P2 ltac:(lia)). lia.
  - specialize (N1 Hn). specialize (N2 ltac:(lia)). lia.
Qed.

(** X4.  Reading back a date written from fields: for a year below 900000
    and a month and a day of two digits, YYYYMMDDToDate and YYYYMMDDToDate32
    on the Float64 cell of the number YYYYMMDD return what the three-argument
    makeDate and makeDate32 return on the year, the month and the day. *)
Theorem YYYYMMDDToDate_reads_back_fields
    (tr : Traits) (date_lut : DateLUTImpl) (year month day : Z) :
  0 <= year < 900000 -> 0 <= month < 100 -> 0 <= day < 100 ->
  let n := (year * 100 + month) * 100 + day in
  IEEE.llround (f64 n) = n /\
  (Z.quot n 10000, Z.rem (Z.quot n 100) 100, Z.rem n 100) = (year, month, day) /\
  FunctionYYYYYMMDDToDate.row tr date_lut (f64 n) =
  Ok (FunctionMakeDate.year_month_day tr date_lut (f32 year) (f32 month) (f32 day)).
Proof.
  intros Hy Hm Hd n.
  assert (Hn : Z.abs n < 2 ^ 53)
    by (change (2 ^ 53) with 9007199254740992; subst n; lia).
  destruct (llround_f64 n Hn) as [Hf Hll].
  destruct (date_digits n) as (E & P & _). specialize (P ltac:(subst n; lia)).
  assert (H3 : Z.rem n 100 = day) by (subst n; lia).
  assert (H2 : Z.rem (Z.quot n 100) 100 = month) by (subst n; lia).
  assert (H1 : Z.quot n 10000 = year) by (subst n; lia).
  split; [ exact Hll | ]. split; [ congruence | ].
  unfold FunctionYYYYYMMDDToDate.row. rewrite not_finite, Hf. cbn [negb].
  rewrite day_num_is_year_month_day. cbv zeta. rewrite Hll, H1, H2, H3. reflexivity.
Qed.

Lemma YYYYMMDDToDate_reads_back_fields_witness :
  FunctionYYYYYMMDDToDate.row Date32Traits Gregorian.lut (f64 20000507) =
  Ok (FunctionMakeDate.year_month_day Date32Traits Gregorian.lut
        (f32 2000) (f32 5) (f32 7)).
Proof.
  refine (proj2 (proj2
    (YYYYMMDDToDate_reads_back_fields Date32Traits Gregorian.lut 2000 5 7 _ _ _))); lia.
Defined.

(** ** Numbers outside of the years of a type *)

Lemma Zle_below_half (r c : Z) (q : Q) :
  (inject_Z r - (1 # 2) <= q)%Q -> (q <= inject_Z c)%Q -> r <= c.
Proof.
  intros H1 H2. pose proof (Qle_trans _ _ _ H1 H2) as H.
  unfold Qle, Qminus, Qplus, Qopp, inject_Z in H. cbn [Qnum Qden] in H. lia.
Qed.

Lemma Zle_above_half (r c : Z) (q : Q) :
  (inject_Z c <= q)%Q -> (q <= inject_Z r + (1 # 2))%Q -> c <= r.
Proof.
  intros H1 H2. pose proof (Qle_trans _ _ _ H1 H2) as H.
  unfold Qle, Qplus, inject_Z in H. cbn [Qnum Qden] in H. lia.
Qed.

(** Rounding keeps a cell on its side of an integer. *)
Lemma round_half_away_le (q : Q) (c : Z) :
  (q <= inject_Z c)%Q -> IEEE.round_half_away q <= c.
Proof.
  intros Hc. destruct (round_half_away_spec q) as [Hpos Hneg].
  destruct (Qlt_le_dec q 0) as [Hq | Hq].
  - destruct (Hneg (Qlt_le_weak _ _ Hq)) as [H _].
    apply (Zle_below_half _ _ q); [ apply Qlt_le_weak, H | exact Hc ].
  - destruct (Hpos Hq) as [H _]. apply (Zle_below_half _ _ q); assumption.
Qed.

Lemma round_half_away_ge (q : Q) (c : Z) :
  (inject_Z c <= q)%Q -> c <= IEEE.round_half_away q.
Proof.
  intros Hc. destruct (round_half_away_spec q) as [Hpos Hneg].
  destruct (Qlt_le_dec q 0) as [Hq | Hq].
  - destruct (Hneg (Qlt_le_weak _ _ Hq)) as [_ H].
    apply (Zle_above_half _ _ q); assumption.
  - destruct (Hpos Hq) as [_ H].
    apply (Zle_above_half _ _ q); [ exact Hc | apply Qlt_le_weak, H ].
Qed.

Lemma llround_le (x : spec_float) (c : Z) :
  IEEE.is_finite x = true -> (IEEE.F2Q x <= inject_Z c)%Q -> Int.INT64_MIN <= c ->
  IEEE.llround x <= c.
Proof.
  intros Hf Hx Hc. destruct x as [s | s | | s m e]; try discriminate.
  - cbn in Hx. unfold Qle in Hx. cbn in Hx. cbn. lia.
  - unfold IEEE.llround. destruct (_ && _); [ | exact Hc ].
    apply round_half_away_le, Hx.
Qed.

Lemma llround_ge (x : spec_float) (c : Z) :
  IEEE.is_finite x = true -> (inject_Z c <= IEEE.F2Q x)%Q ->
  c <= IEEE.llround x \/ IEEE.llround x = Int.INT64_MIN.
Proof.
  intros Hf Hx. destruct x as [s | s | | s m e]; try discriminate.
  - cbn in Hx. unfold Qle in Hx. cbn in Hx. left. cbn. lia.
  - unfold IEEE.llround. destruct (_ && _); [ left | right; reflexivity ].
    apply round_half_away_ge, Hx.
Qed.

(** X5.  YYYYMMDDToDate and YYYYMMDDToDate32 return 0, and raise nothing,
    for every finite number that is not above the minimum year followed by
    0100 (negative numbers and 0 included) and for every finite number from
    the maximum year followed by 1232 on: such a number has a year outside
    of the range of the type, a month 0 or above 12, or a day 0 or above
    31. *)
Theorem YYYYMMDDToDate_outside_years
    (tr : Traits) (date_lut : DateLUTImpl) (x : IEEE.Float64) :
  IEEE.is_finite x = true ->
  (IEEE.F2Q x <= inject_Z (MIN_YEAR tr * 10000 + 100))%Q \/
  (inject_Z (MAX_YEAR tr * 10000 + 1232) <= IEEE.F2Q x)%Q ->
  FunctionYYYYYMMDDToDate.row tr date_lut x = Ok 0.
Proof.
  intros Hf Hx. unfold FunctionYYYYYMMDDToDate.row. rewrite not_finite, Hf.
  cbn [negb]. f_equal. rewrite day_num_tests. cbv zeta.
  destruct (date_digits (IEEE.llround x)) as (E & P & N).
  set (n := IEEE.llround x) in *.
  set (year := Z.quot n 10000) in *.
  set (month := Z.rem (Z.quot n 100) 100) in *.
  set (day := Z.rem n 100) in *.
  assert (Hn : n <= MIN_YEAR tr * 10000 + 100 \/ MAX_YEAR tr * 10000 + 1232 <= n \/
               n < 0).
  { destruct Hx as [Hx | Hx].
    - left. apply llround_le; [ exact Hf | exact Hx | ].
      destruct tr; vm_compute; congruence.
    - destruct (llround_ge x _ Hf Hx) as [H | H]; [ right; left; exact H | ].
      right. right. fold n in H. rewrite H. reflexivity. }
  destruct (_ && _) eqn:Htest; [ exfalso | apply store_0 ].
  split_andb.
  repeat match goal with H : (_ <=? _) = true |- _ => apply Z.leb_le in H end.
  destruct (Z_le_gt_dec 0 n) as [Hsign | Hsign].
  - specialize (P Hsign). destruct tr; cbn [MIN_YEAR MAX_YEAR] in *; lia.
  - specialize (N ltac:(lia)). destruct tr; cbn [MIN_YEAR MAX_YEAR] in *; lia.
Qed.

Lemma YYYYMMDDToDate_outside_years_witness :
  FunctionYYYYYMMDDToDate.row DateTraits Gregorian.lut (f64 19691231) = Ok 0 /\
  FunctionYYYYYMMDDToDate.row DateTraits Gregorian.lut (f64 (- 20230911)) = Ok 0.
Proof.
  split.
  - apply (YYYYMMDDToDate_outside_years DateTraits Gregorian.lut (f64 19691231));
      [ reflexivity | left; vm_compute; congruence ].
  - apply (YYYYMMDDToDate_outside_years DateTraits Gregorian.lut (f64 (- 20230911)));
      [ reflexivity | left; vm_compute; congruence ].
Defined.

(** ** makeDate and makeDate32 side by side *)

Lemma to_UInt16_to_Int32 (d : Z) : Int.to_UInt16 (Int.to_Int32 d) = Int.to_UInt16 d.
Proof.
  unfold Int.to_UInt16, Int.to_Int32, Int.to_unsigned, Int.to_signed.
  change (2 ^ (32 - 1)) with 2147483648. change (2 ^ 32) with (65536 * 65536).
  change (2 ^ 16) with 65536.
  rewrite (Z.mod_eq (d + 2147483648) (65536 * 65536)) by lia.
  set (k := (d + 2147483648) / (65536 * 65536)).
  replace (d + 2147483648 - 65536 * 65536 * k - 2147483648)
    with (d + (- (65536 * k)) * 65536) by ring.
  apply Z.mod_add. lia.
Qed.

Lemma in_range_wider (x : spec_float) (lo hi lo' hi' : Z) :
  lo' <= lo -> hi <= hi' -> Spec.in_range x lo hi -> Spec.in_range x lo' hi'.
Proof.
  intros Hlo Hhi (Hf & H1 & H2). split; [ exact Hf | ]. split.
  - apply Qle_trans with (2 := H1). rewrite <- Zle_Qle. exact Hlo.
  - apply Qle_trans with (1 := H2). rewrite <- Zle_Qle. exact Hhi.
Qed.

Lemma year_in_wide_range (year : spec_float) :
  Spec.in_range year (MIN_YEAR DateTraits) (MAX_YEAR DateTraits) ->
  Spec.in_range year (MIN_YEAR Date32Traits) (MAX_YEAR Date32Traits).
Proof. apply in_range_wider; cbn; lia. Qed.

Section NarrowAndWide.

Variable date_lut : DateLUTImpl.
Hypothesis Hmax :
  FunctionMakeDate.max_days_since_epoch DateTraits date_lut <=
  FunctionMakeDate.max_days_since_epoch Date32Traits date_lut.

Lemma guard_narrow_wide (d : Z) :
  store DateTraits
    (if d <=? FunctionMakeDate.max_days_since_epoch DateTraits date_lut then d else 0)
  <> 0 ->
  store DateTraits
    (if d <=? FunctionMakeDate.max_days_since_epoch DateTraits date_lut then d else 0)
  = Int.to_UInt16
      (store Date32Traits
         (if d <=? FunctionMakeDate.max_days_since_epoch Date32Traits date_lut
          then d else 0)).
Proof.
  destruct (d <=? FunctionMakeDate.max_days_since_epoch DateTraits date_lut) eqn:Hd.
  - intros _. apply Z.leb_le in Hd.
    replace (d <=? FunctionMakeDate.max_days_since_epoch Date32Traits date_lut)
      with true by (symmetry; apply Z.leb_le; lia).
    cbn [store]. symmetry. apply to_UInt16_to_Int32.
  - intros H. elim H. reflexivity.
Qed.

Lemma year_month_day_narrow_wide (year month day : IEEE.Float32) :
  FunctionMakeDate.year_month_day DateTraits date_lut year month day <> 0 ->
  FunctionMakeDate.year_month_day DateTraits date_lut year month day =
  Int.to_UInt16 (FunctionMakeDate.year_month_day Date32Traits date_lut year month day).
Proof.
  unfold FunctionMakeDate.year_month_day at 1 2.
  destruct (_ && _) eqn:Htest; [ | intros H; elim H; reflexivity ].
  apply year_month_day_test in Htest. destruct Htest as (Hy & Hm & Hd).
  unfold FunctionMakeDate.year_month_day.
  rewrite (proj2 (year_month_day_test Date32Traits year month day))
    by (split; [ apply year_in_wide_range, Hy | split; assumption ]).
  apply guard_narrow_wide.
Qed.

Lemma year_dayofyear_narrow_wide (year dayofyear : IEEE.Float32) :
  FunctionMakeDate.year_dayofyear DateTraits date_lut year dayofyear <> 0 ->
  FunctionMakeDate.year_dayofyear DateTraits date_lut year dayofyear =
  Int.to_UInt16 (FunctionMakeDate.year_dayofyear Date32Traits date_lut year dayofyear).
Proof.
  unfold FunctionMakeDate.year_dayofyear at 1 2.
  destruct (_ && _) eqn:Htest; [ | intros H; elim H; reflexivity ].
  rewrite <- andb_assoc in Htest. apply andb_true_iff in Htest.
  destruct Htest as [Hy Hd]. apply in_range_iff in Hy.
  unfold FunctionMakeDate.year_dayofyear.
  rewrite (proj2 (in_range_iff year _ _) (year_in_wide_range year Hy)).
  cbn [andb]. rewrite Hd. apply guard_narrow_wide.
Qed.

End NarrowAndWide.

(** X6.  makeDate32 extends makeDate: when the calendar places the MAX_DATE
    of Date (2149-06-06) not after the MAX_DATE of Date32 (2299-12-31), every
    row for which makeDate yields a date other than day 0 gets from
    makeDate32 the same day number (makeDate's UInt16 cell is makeDate32's
    Int32 cell cut to 16 bits); the same holds for the two-argument form and
    for YYYYMMDDToDate and YYYYMMDDToDate32. *)
Theorem makeDate32_extends_makeDate (date_lut : DateLUTImpl) :
  FunctionMakeDate.max_days_since_epoch DateTraits date_lut <=
  FunctionMakeDate.max_days_since_epoch Date32Traits date_lut ->
  (forall year month day,
     FunctionMakeDate.year_month_day DateTraits date_lut year month day <> 0 ->
     FunctionMakeDate.year_month_day DateTraits date_lut year month day =
     Int.to_UInt16
       (FunctionMakeDate.year_month_day Date32Traits date_lut year month day)) /\
  (forall year dayofyear,
     FunctionMakeDate.year_dayofyear DateTraits date_lut year dayofyear <> 0 ->
     FunctionMakeDate.year_dayofyear DateTraits date_lut year dayofyear =
     Int.to_UInt16
       (FunctionMakeDate.year_dayofyear Date32Traits date_lut year dayofyear)) /\
  (forall x,
     FunctionYYYYYMMDDToDate.day_num DateTraits date_lut x <> 0 ->
     FunctionYYYYYMMDDToDate.day_num DateTraits date_lut x =
     Int.to_UInt16 (FunctionYYYYYMMDDToDate.day_num Date32Traits date_lut x)).
Proof.
  intros Hmax. split; [ | split ].
  - apply year_month_day_narrow_wide, Hmax.
  - apply year_dayofyear_narrow_wide, Hmax.
  - intros x. rewrite !day_num_is_year_month_day.
    apply year_month_day_narrow_wide, Hmax.
Qed.

Lemma makeDate32_extends_makeDate_witness :
  FunctionMakeDate.year_month_day DateTraits Gregorian.lut (f32 2023) (f32 2) (f32 28) =
  Int.to_UInt16
    (FunctionMakeDate.year_month_day Date32Traits Gregorian.lut
       (f32 2023) (f32 2) (f32 28)).
Proof.
  refine (proj1 (makeDate32_extends_makeDate Gregorian.lut _) _ _ _ _).
  - vm_compute. congruence.
  - vm_compute. congruence.
Defined.

(** ** The fraction of makeDateTime64 *)

Section FractionOfMakeDateTime64.

Variable date_lut : DateLUTImpl.
Variable precision : Z.
Variable r : Fields.
Hypothesis Hp : 0 <= precision <= 9.

Let seconds :=
  FunctionDateTimeBase.dateTime
    (f_year r) (f_month r) (f_day r) (f_hour r) (f_minute r) (f_second r) date_lut.

(** A row without a fraction argument whose seconds are no sentinel. *)
Lemma components_default :
  seconds <> FunctionDateTimeBase.minDateTime date_lut ->
  seconds <> FunctionDateTimeBase.maxDateTime date_lut ->
  FunctionMakeDateTime64.components date_lut precision r None = (seconds, 0).
Proof.
  intros Hmin Hmax. unfold FunctionMakeDateTime64.components. fold seconds.
  apply Z.eqb_neq in Hmin, Hmax. rewrite Hmin, Hmax.
  change (IEEE.isnan (IEEE.Float64_of_Z 0)) with false.
  change (less (IEEE.Float64_of_Z 0) 0) with false. cbv iota.
  destruct (max_fraction_exact precision Hp) as (Hfin & Hval & _).
  rewrite (compare_integer _ _ _ Hfin Hval).
  pose proof (pow10_pos precision (proj1 Hp)) as Hpow.
  replace (IEEE.compare_Z (IEEE.Float64_of_Z 0) (10 ^ precision - 1))
    with (Some (0 ?= 10 ^ precision - 1)).
  - destruct (Z.compare_spec 0 (10 ^ precision - 1)); try reflexivity. lia.
  - symmetry. apply compare_Z_integer; reflexivity.
Qed.

End FractionOfMakeDateTime64.

(** X7.  At a precision in [0,9], the fraction that makeDateTime64 hands to
    the packing is an integer in [0, 10^precision - 1] for every row and
    every fraction argument (absent, NaN, infinite, negative or too large
    included), with the one exception of a row at the maximum sentinel,
    whose fraction is 999999999. *)
Theorem makeDateTime64_fraction_in_range
    (date_lut : DateLUTImpl) (precision : Z) (r : Fields)
    (fraction_data : option IEEE.Float64) :
  0 <= precision <= 9 ->
  let '(date_time, fraction) :=
    FunctionMakeDateTime64.components date_lut precision r fraction_data in
  (date_time = FunctionDateTimeBase.maxDateTime date_lut /\ fraction = 999999999) \/
  0 <= fraction <= 10 ^ precision - 1.
Proof.
  intros Hp.
  set (seconds :=
         FunctionDateTimeBase.dateTime
           (f_year r) (f_month r) (f_day r) (f_hour r) (f_minute r) (f_second r)
           date_lut).
  pose proof (pow10_pos precision (proj1 Hp)) as Hpow.
  assert (Hpow9 : 10 ^ precision <= 10 ^ 9) by (apply Z.pow_le_mono_r; lia).
  change (10 ^ 9) with 1000000000 in Hpow9.
  destruct (Z.eq_dec seconds (FunctionDateTimeBase.minDateTime date_lut)) as [Hmin | Hmin].
  { rewrite (components_min date_lut precision r fraction_data Hmin).
    cbv beta iota. right. lia. }
  destruct (Z.eq_dec seconds (FunctionDateTimeBase.maxDateTime date_lut)) as [Hmax | Hmax].
  { rewrite (components_max date_lut precision r fraction_data Hmax Hmin).
    cbv beta iota. left. split; [ exact Hmax | reflexivity ]. }
  destruct fraction_data as [fraction | ].
  2: { rewrite (components_default date_lut precision r Hp Hmin Hmax).
       cbv beta iota. right. lia. }
  rewrite (components_plain date_lut precision r fraction Hmin Hmax).
  destruct (max_fraction_exact precision Hp) as (Hfin & Hval & Htrunc).
  rewrite (compare_integer _ _ _ Hfin Hval), Htrunc.
  destruct (IEEE.isnan fraction) eqn:Hnan; [ cbv beta iota; right; lia | ].
  destruct (less fraction 0) eqn:Hless; [ cbv beta iota; right; lia | ].
  change (match IEEE.compare_Z fraction (10 ^ precision - 1) with
          | Some Gt => true
          | _ => false
          end) with (greater fraction (10 ^ precision - 1)).
  destruct (greater fraction (10 ^ precision - 1)) eqn:Hgreater.
  { cbv beta iota. right.
    rewrite to_Int64_small by (change (2 ^ 63) with 9223372036854775808; lia).
    lia. }
  assert (Hin : Spec.in_range fraction 0 (10 ^ precision - 1)).
  { apply in_range_of_not_outside.
    - intros H. apply isnan_iff in H. congruence.
    - intros H. apply less_iff in H. congruence.
    - intros H. apply greater_iff in H. congruence. }
  apply trunc_in_range in Hin. cbv beta iota. right.
  rewrite to_Int64_small by (change (2 ^ 63) with 9223372036854775808; lia).
  exact Hin.
Qed.

Lemma makeDateTime64_fraction_in_range_witness :
  0 <= snd (FunctionMakeDateTime64.components Gregorian.lut 3 row_2023
              (Some (S754_infinity false))) <= 10 ^ 3 - 1.
Proof.
  pose proof (makeDateTime64_fraction_in_range Gregorian.lut 3 row_2023
                (Some (S754_infinity false)) ltac:(lia)) as H.
  destruct (FunctionMakeDateTime64.components Gregorian.lut 3 row_2023
              (Some (S754_infinity false))) as [date_time fraction] eqn:E.
  destruct H as [[H _] | H]; [ | exact H ].
  exfalso. apply (f_equal fst) in E. cbn [fst] in E. rewrite <- E in H.
  vm_compute in H. discriminate H.
Defined.

(** X8.  makeDateTime64 called without a fraction argument at a precision in
    [0,9] packs the seconds of the row with the fraction 0, except for a row
    at the maximum sentinel (and not at the minimum one), which gets
    999999999. *)
Theorem makeDateTime64_without_fraction
    (date_lut : DateLUTImpl) (precision : Z) (r : Fields) :
  0 <= precision <= 9 ->
  let seconds :=
    FunctionDateTimeBase.dateTime
      (f_year r) (f_month r) (f_day r) (f_hour r) (f_minute r) (f_second r) date_lut in
  FunctionMakeDateTime64.components date_lut precision r None =
  (seconds,
   if (seconds =? FunctionDateTimeBase.maxDateTime date_lut) &&
      negb (seconds =? FunctionDateTimeBase.minDateTime date_lut)
   then 999999999 else 0).
Proof.
  intros Hp seconds.
  destruct (Z.eqb_spec seconds (FunctionDateTimeBase.minDateTime date_lut)) as [Hmin | Hmin].
  { rewrite andb_false_r. apply components_min, Hmin. }
  destruct (Z.eqb_spec seconds (FunctionDateTimeBase.maxDateTime date_lut)) as [Hmax | Hmax].
  { apply components_max; assumption. }
  apply components_default; assumption.
Qed.

Lemma makeDateTime64_without_fraction_witness :
  FunctionMakeDateTime64.components Gregorian.lut 3 row_2023 None = (1677604353, 0).
Proof.
  exact (makeDateTime64_without_fraction Gregorian.lut 3 row_2023 ltac:(lia)).
Defined.

(** X9.  makeDateTime and makeDateTime64 share the seconds: for every row and
    every fraction argument but NaN, the cell makeDateTime stores is the
    clamp to [0, 0xFFFFFFFF] of the seconds makeDateTime64 packs. *)
Theorem makeDateTime_clamps_seconds_of_makeDateTime64
    (date_lut : DateLUTImpl) (precision : Z) (r : Fields)
    (fraction_data : option IEEE.Float64) :
  (forall f, fraction_data = Some f -> f <> S754_nan) ->
  let seconds :=
    fst (FunctionMakeDateTime64.components date_lut precision r fraction_data) in
  FunctionMakeDateTime.row date_lut r = Z.max 0 (Z.min seconds 0xffffffff).
Proof.
  intros Hnan seconds. subst seconds.
  rewrite components_seconds by exact Hnan.
  unfold FunctionMakeDateTime.row. apply store_DateTime_clamp.
Qed.

Lemma makeDateTime_clamps_seconds_of_makeDateTime64_witness :
  FunctionMakeDateTime.row Gregorian.lut row_2023 =
  Z.max 0 (Z.min (fst (FunctionMakeDateTime64.components Gregorian.lut 3 row_2023
                         (Some (f64 779)))) 0xffffffff).
Proof.
  apply (makeDateTime_clamps_seconds_of_makeDateTime64 Gregorian.lut 3 row_2023
           (Some (f64 779))).
  intros f [= <-]. discriminate.
Defined.

(** ** Numbers without a fractional part *)

(** A cell minus itself is +0. *)
Lemma SFsub_diag (prec emax : Z) (x : spec_float) :
  IEEE.is_finite x = true -> SFsub prec emax x x = S754_zero false.
Proof.
  destruct x as [s | s | | s m e]; try discriminate; intros _.
  - destruct s; reflexivity.
  - unfold SFsub. cbv zeta.
    set (a := cond_Zopp s _).
    assert (Ha : Z.sub a a = 0) by lia. rewrite Ha. reflexivity.
Qed.

(** X10.  A number without a fractional part has the fraction 0 in
    YYYYMMDDhhmmssToDateTime64: for an integer n below 2^53 in magnitude and
    a precision in [0,9], the Float64 cell of n is rounded to n, the residue
    is +0, and the row packs the seconds of the fields of n with the
    fraction 0. *)
Theorem YYYYMMDDhhmmssToDateTime64_integer_has_no_fraction
    (date_lut : DateLUTImpl) (precision n : Z) :
  0 <= precision <= 9 -> Z.abs n < 2 ^ 53 ->
  IEEE.llround (f64 n) = n /\
  FunctionYYYYMMDDhhmmssToDateTime64.decimal (f64 n) = S754_zero false /\
  FunctionYYYYMMDDhhmmssToDateTime64.fraction precision (f64 n) = 0 /\
  FunctionYYYYMMDDhhmmssToDateTime64.row date_lut precision (f64 n) =
  Ok (DecimalUtils.decimalFromComponents
        (let '(year, month, day, hour, minute, second) := unpack n in
         FunctionDateTimeBase.dateTime year month day hour minute second date_lut)
        0 precision).
Proof.
  intros Hp Hn. destruct (llround_f64 n Hn) as [Hf Hll].
  assert (Hdec : FunctionYYYYMMDDhhmmssToDateTime64.decimal (f64 n) = S754_zero false).
  { unfold FunctionYYYYMMDDhhmmssToDateTime64.decimal. rewrite Hll.
    apply (SFsub_diag 53 1024 (f64 n) Hf). }
  assert (Hfrac : FunctionYYYYMMDDhhmmssToDateTime64.fraction precision (f64 n) = 0).
  { unfold FunctionYYYYMMDDhhmmssToDateTime64.fraction, DecimalUtils.exp10_i32.
    rewrite Hdec.
    pose proof (pow10_pos precision (proj1 Hp)) as Hpow.
    assert (Hpow9 : 10 ^ precision <= 10 ^ 9) by (apply Z.pow_le_mono_r; lia).
    change (10 ^ 9) with 1000000000 in Hpow9.
    destruct (of_Z_exact 53 1024 ltac:(lia) ltac:(lia) (10 ^ precision))
      as (my & ey & Hy & _);
      [ change (2 ^ 53) with 9007199254740992; lia | lia | ].
    unfold IEEE.Float64_of_Z. rewrite Hy. reflexivity. }
  split; [ exact Hll | ]. split; [ exact Hdec | ]. split; [ exact Hfrac | ].
  unfold FunctionYYYYMMDDhhmmssToDateTime64.row,
    FunctionYYYYMMDDhhmmssToDateTime64.value,
    FunctionYYYYMMDDhhmmssToDateTime64.seconds.
  rewrite not_finite, Hf, Hfrac, Hll. reflexivity.
Qed.

Lemma YYYYMMDDhhmmssToDateTime64_integer_has_no_fraction_witness :
  FunctionYYYYMMDDhhmmssToDateTime64.fraction 3 (f64 20230911131415) = 0.
Proof.
  refine (proj1 (proj2 (proj2
    (YYYYMMDDhhmmssToDateTime64_integer_has_no_fraction Gregorian.lut 3
       20230911131415 _ _)))).
  - lia.
  - vm_compute. reflexivity.
Defined.

(** ** The cell of a DateTime column *)

(** X11.  The cell that makeDateTime and YYYYMMDDhhmmssToDateTime store is
    never outside of [0, 0xFFFFFFFF]; the clamp keeps the order of the times
    of the calendar, maps every negative time to 0 and every time from 2^32
    on to 0xFFFFFFFF, and leaves a time within the range as it is. *)
Theorem DateTime_cell_is_clamped :
  (forall date_lut r, 0 <= FunctionMakeDateTime.row date_lut r <= 0xffffffff) /\
  (forall date_lut x,
     0 <= FunctionYYYYMMDDhhmmssToDateTime.date_time date_lut x <= 0xffffffff) /\
  (forall t t', t <= t' ->
     FunctionDateTimeBase.store_DateTime t <= FunctionDateTimeBase.store_DateTime t') /\
  (forall t, t < 0 -> FunctionDateTimeBase.store_DateTime t = 0) /\
  (forall t, 0xffffffff < t -> FunctionDateTimeBase.store_DateTime t = 0xffffffff) /\
  (forall t, 0 <= t <= 0xffffffff -> FunctionDateTimeBase.store_DateTime t = t).
Proof.
  repeat split.
  all: try (unfold FunctionMakeDateTime.row);
    try (unfold FunctionYYYYMMDDhhmmssToDateTime.date_time;
         destruct (unpack _) as [[[[[year month] day] hour] minute] second]);
    intros; rewrite ?store_DateTime_clamp; lia.
Qed.

Lemma DateTime_cell_is_clamped_witness :
  FunctionDateTimeBase.store_DateTime (- 1) <= FunctionDateTimeBase.store_DateTime 5 /\
  FunctionDateTimeBase.store_DateTime (- 1) = 0 /\
  FunctionDateTimeBase.store_DateTime (2 ^ 32) = 0xffffffff /\
  FunctionDateTimeBase.store_DateTime 5 = 5.
Proof.
  destruct DateTime_cell_is_clamped as (_ & _ & Hmono & Hneg & Hbig & Hid).
  split; [ apply Hmono; lia | ].
  split; [ apply Hneg; lia | ].
  split; [ apply Hbig; vm_compute; reflexivity | apply Hid; lia ].
Defined.

(** ** The precision argument *)

Lemma extractPrecision_out_of_bound (name : string) (p : Z) :
  p < 0 \/ 9 < p ->
  FunctionDateTimeBase.extractPrecision name p =
  Throw {| code := ARGUMENT_OUT_OF_BOUND;
           message := ("Argument 'precision' for function " ++ name
                       ++ " must be in range [0, 9]")%string |}.
Proof.
  intros H. unfold FunctionDateTimeBase.extractPrecision.
  destruct H as [H | H].
  - apply Z.ltb_lt in H. rewrite H. reflexivity.
  - apply Z.gtb_lt in H. rewrite H, orb_true_r. reflexivity.
Qed.

(** X12.  A precision outside of [0,9] makes makeDateTime64 and
    YYYYMMDDhhmmssToDateTime64 fail with ARGUMENT_OUT_OF_BOUND and a message
    that names the function, before any row is computed: whatever the rows
    are, and for YYYYMMDDhhmmssToDateTime64 also when a cell is infinite or
    NaN (the error of the precision comes first).  With a precision in [0,9]
    or without one, makeDateTime64 raises nothing. *)
Theorem precision_out_of_bound_fails (instance : DateLUT) :
  (forall p rows fraction_argument timezone_argument,
     p < 0 \/ 9 < p ->
     FunctionMakeDateTime64.executeImpl instance rows fraction_argument (Some p)
       timezone_argument =
     Throw {| code := ARGUMENT_OUT_OF_BOUND;
              message :=
                "Argument 'precision' for function makeDateTime64 must be in range [0, 9]"
           |}) /\
  (forall p yyyymmddhhmmss_data timezone_argument,
     p < 0 \/ 9 < p ->
     FunctionYYYYMMDDhhmmssToDateTime64.executeImpl instance yyyymmddhhmmss_data
       (Some p) timezone_argument =
     Throw {| code := ARGUMENT_OUT_OF_BOUND;
              message :=
                "Argument 'precision' for function YYYYMMDDhhmmssToDateTime64 must be in range [0, 9]"
           |}) /\
  (forall precision_argument rows fraction_argument timezone_argument,
     (forall p, precision_argument = Some p -> 0 <= p <= 9) ->
     exists column,
       FunctionMakeDateTime64.executeImpl instance rows fraction_argument
         precision_argument timezone_argument = Ok column /\
       List.length column =
       match fraction_argument with
       | Some fraction_data => Nat.min (List.length rows) (List.length fraction_data)
       | None => List.length rows
       end).
Proof.
  split; [ | split ].
  - intros p rows fraction_argument timezone_argument Hp.
    unfold FunctionMakeDateTime64.executeImpl.
    rewrite (extractPrecision_out_of_bound _ _ Hp). reflexivity.
  - intros p data timezone_argument Hp.
    unfold FunctionYYYYMMDDhhmmssToDateTime64.executeImpl.
    rewrite (extractPrecision_out_of_bound _ _ Hp). reflexivity.
  - intros precision_argument rows fraction_argument timezone_argument Hp.
    unfold FunctionMakeDateTime64.executeImpl.
    destruct precision_argument as [p | ];
      [ rewrite (extractPrecision_ok _ _ (Hp p eq_refl)) | ]; cbn [bind];
      (eexists; split; [ reflexivity | ]);
      destruct fraction_argument as [fraction_data | ];
      rewrite length_map, ?length_combine; reflexivity.
Qed.

Lemma precision_out_of_bound_fails_witness :
  FunctionYYYYMMDDhhmmssToDateTime64.executeImpl Gregorian.instance
    [f64 20230911131415; S754_nan] (Some 10) None =
  Throw {| code := ARGUMENT_OUT_OF_BOUND;
           message :=
             "Argument 'precision' for function YYYYMMDDhhmmssToDateTime64 must be in range [0, 9]"
        |}.
Proof.
  refine (proj1 (proj2 (precision_out_of_bound_fails Gregorian.instance))
            10 [f64 20230911131415; S754_nan] None _).
  right. lia.
Defined.

(** ** Numbers before the first year of a table *)

(** X13.  YYYYMMDDhhmmssToDateTime and YYYYMMDDhhmmssToDateTime64 take every
    finite number that is not above the minimum year of the table followed
    by 0100999999 (negative numbers and 0 included) to the minimum sentinel:
    such a number has a year below the minimum year, a month below 1 or a
    day below 1.  YYYYMMDDhhmmssToDateTime stores the clamp of the sentinel,
    YYYYMMDDhhmmssToDateTime64 packs the sentinel with the fraction of the
    number. *)
Theorem YYYYMMDDhhmmssToDateTime_before_first_year
    (date_lut : DateLUTImpl) (x : IEEE.Float64) :
  Spec.Int16_years date_lut -> IEEE.is_finite x = true ->
  (IEEE.F2Q x <=
   inject_Z ((DATE_LUT_MIN_YEAR date_lut * 10000 + 100) * 1000000 + 999999))%Q ->
  FunctionYYYYMMDDhhmmssToDateTime64.seconds date_lut x =
  FunctionDateTimeBase.minDateTime date_lut /\
  FunctionYYYYMMDDhhmmssToDateTime.row date_lut x =
  Ok (Z.max 0 (Z.min (FunctionDateTimeBase.minDateTime date_lut) 0xffffffff)).
Proof.
  intros [Hmin _] Hf Hx. change (2 ^ 15) with 32768 in Hmin.
  assert (Hn : IEEE.llround x <=
               (DATE_LUT_MIN_YEAR date_lut * 10000 + 100) * 1000000 + 999999).
  { apply llround_le; [ exact Hf | exact Hx | ].
    unfold Int.INT64_MIN. change (2 ^ 63) with 9223372036854775808. lia. }
  assert (Hs : FunctionYYYYMMDDhhmmssToDateTime64.seconds date_lut x =
               FunctionDateTimeBase.minDateTime date_lut).
  { unfold FunctionYYYYMMDDhhmmssToDateTime64.seconds.
    pose proof (unpack_digits (IEEE.llround x)) as H.
    destruct (unpack (IEEE.llround x)) as [[[[[year month] day] hour] minute] second].
    destruct H as (E & P & N).
    unfold FunctionDateTimeBase.dateTime.
    cbn [std_isnan Numeric_long_long orb].
    rewrite (less_Z year), (less_Z month), (less_Z day), (less_Z hour), (less_Z minute),
      (less_Z second), (greater_Z month), (greater_Z day),
      (greater_Z hour), (greater_Z minute), (greater_Z second).
    destruct (_ || _) eqn:Htest; [ reflexivity | exfalso ].
    repeat match goal with
           | H : _ || _ = false |- _ => apply orb_false_iff in H; destruct H
           end.
    repeat match goal with
           | H : (_ <? _) = false |- _ => apply Z.ltb_ge in H
           end.
    destruct (Z_le_gt_dec 0 (IEEE.llround x)) as [Hsign | Hsign].
    - specialize (P Hsign). lia.
    - specialize (N ltac:(lia)). lia. }
  split; [ exact Hs | ].
  unfold FunctionYYYYMMDDhhmmssToDateTime.row. rewrite not_finite, Hf. cbn [negb].
  f_equal. rewrite <- store_DateTime_clamp, <- Hs. reflexivity.
Qed.

Lemma YYYYMMDDhhmmssToDateTime_before_first_year_witness :
  FunctionYYYYMMDDhhmmssToDateTime.row Gregorian.lut (f64 (- 20230911131415)) = Ok 0.
Proof.
  refine (proj2 (YYYYMMDDhhmmssToDateTime_before_first_year Gregorian.lut
                   (f64 (- 20230911131415)) Gregorian_Int16_years _ _)).
  - reflexivity.
  - vm_compute. congruence.
Defined.

(** ** The constant arguments of a call *)

Lemma extractPrecision_Ok_iff (name : string) (v p : Z) :
  FunctionDateTimeBase.extractPrecision name v = Ok p <-> v = p /\ 0 <= p <= 9.
Proof.
  unfold FunctionDateTimeBase.extractPrecision.
  destruct (v <? 0) eqn:Hlo; [ apply Z.ltb_lt in Hlo | apply Z.ltb_ge in Hlo ].
  { cbn [orb]. split; [ discriminate | lia ]. }
  destruct (v >? 9) eqn:Hhi;
    [ apply Z.gtb_lt in Hhi | rewrite Z.gtb_ltb in Hhi; apply Z.ltb_ge in Hhi ].
  { cbn [orb]. split; [ discriminate | lia ]. }
  cbn [orb]. rewrite to_UInt32_small by lia. split.
  - intros [= <-]. lia.
  - intros [-> _]. reflexivity.
Qed.

(** The test of the column that [extractTimezone] and [extractPrecision]
    make. *)
Lemma constant_test (a : Call.ColumnWithTypeAndName) (c : Call.IColumn) :
  Call.column a = Some c ->
  negb (Nat.eqb (Call.size c) 1) && negb (Call.isColumnConst c) = false <->
  Call.constant a c.
Proof.
  intros Hc. unfold Call.constant.
  destruct (Nat.eqb_spec (Call.size c) 1) as [Hs | Hs];
    destruct (Call.isColumnConst c); cbn; intuition congruence.
Qed.

Lemma Call_extractPrecision_Ok (name : string) (a : Call.ColumnWithTypeAndName) (p : Z) :
  Call.extractPrecision name a = Ok p <->
  Call.isNumber (Call.type a) = true /\
  exists c, Call.constant a c /\ Call.getInt c = p /\ 0 <= p <= 9.
Proof.
  unfold Call.extractPrecision.
  destruct (Call.column a) as [c | ] eqn:Hc.
  2: { split; [ discriminate | ].
       intros (_ & c & [Hc' _] & _). rewrite Hc in Hc'. discriminate. }
  pose proof (constant_test a c Hc) as Hconst.
  destruct (Call.isNumber (Call.type a)); cbn [negb orb].
  2: { split; [ discriminate | intros [H _]; discriminate ]. }
  destruct (negb (Nat.eqb (Call.size c) 1) && negb (Call.isColumnConst c)).
  - split; [ discriminate | ].
    intros (_ & c' & Hc' & _). assert (c' = c) as ->
      by (destruct Hc' as [Hc' _]; rewrite Hc in Hc'; congruence).
    apply Hconst in Hc'. discriminate.
  - rewrite extractPrecision_Ok_iff. split.
    + intros [Hv Hp]. split; [ reflexivity | ].
      exists c. split; [ apply Hconst; reflexivity | split; assumption ].
    + intros (_ & c' & Hc' & Hv & Hp). assert (c' = c) as ->
        by (destruct Hc' as [Hc' _]; rewrite Hc in Hc'; congruence).
      split; assumption.
Qed.

Lemma Call_extractTimezone_Ok (name : string) (a : Call.ColumnWithTypeAndName)
    (timezone : string) :
  Call.extractTimezone name a = Ok timezone <->
  Call.isStringOrFixedString (Call.type a) = true /\
  exists c, Call.constant a c /\ Call.getDataAt c = timezone.
Proof.
  unfold Call.extractTimezone.
  destruct (Call.column a) as [c | ] eqn:Hc.
  2: { split; [ discriminate | ].
       intros (_ & c & [Hc' _] & _). rewrite Hc in Hc'. discriminate. }
  pose proof (constant_test a c Hc) as Hconst.
  destruct (Call.isStringOrFixedString (Call.type a)); cbn [negb orb].
  2: { split; [ discriminate | intros [H _]; discriminate ]. }
  destruct (negb (Nat.eqb (Call.size c) 1) && negb (Call.isColumnConst c)).
  - split; [ discriminate | ].
    intros (_ & c' & Hc' & _). assert (c' = c) as ->
      by (destruct Hc' as [Hc' _]; rewrite Hc in Hc'; congruence).
    apply Hconst in Hc'. discriminate.
  - split.
    + intros [= <-]. split; [ reflexivity | ].
      exists c. split; [ apply Hconst; reflexivity | reflexivity ].
    + intros (_ & c' & Hc' & Hv). assert (c' = c) as ->
        by (destruct Hc' as [Hc' _]; rewrite Hc in Hc'; congruence).
      rewrite Hv. reflexivity.
Qed.

(** X14.  [extractPrecision] returns p exactly when the argument has a number
    type, a column of one row or a constant column, and the value p of its
    first cell is in [0,9]; it throws ILLEGAL_TYPE_OF_ARGUMENT exactly when
    the type is not a number type, the column is missing, or the column is
    neither constant nor of one row, whatever the value is; and it throws
    ARGUMENT_OUT_OF_BOUND exactly when these tests pass and the value is
    outside of [0,9].  A column of one row passes for a constant. *)
Theorem extractPrecision_spec (name : string) (a : Call.ColumnWithTypeAndName) :
  let well_typed :=
    Call.isNumber (Call.type a) = true /\ exists c, Call.constant a c in
  (forall p,
     Call.extractPrecision name a = Ok p <->
     Call.isNumber (Call.type a) = true /\
     exists c, Call.constant a c /\ Call.getInt c = p /\ 0 <= p <= 9) /\
  (Call.extractPrecision name a =
   Throw {| code := ILLEGAL_TYPE_OF_ARGUMENT;
            message := ("Argument 'precision' for function " ++ name
                        ++ " must be constant number")%string |} <->
   ~ well_typed) /\
  (Call.extractPrecision name a =
   Throw {| code := ARGUMENT_OUT_OF_BOUND;
            message := ("Argument 'precision' for function " ++ name
                        ++ " must be in range [0, 9]")%string |} <->
   Call.isNumber (Call.type a) = true /\
   exists c, Call.constant a c /\ (Call.getInt c < 0 \/ 9 < Call.getInt c)).
Proof.
  intros well_typed. split; [ intros p; apply Call_extractPrecision_Ok | ].
  unfold well_typed, Call.extractPrecision.
  destruct (Call.column a) as [c | ] eqn:Hc.
  2: { split; split; try discriminate.
       - intros _ (_ & c & [Hc' _]). rewrite Hc in Hc'. discriminate.
       - reflexivity.
       - intros (_ & c & [Hc' _] & _). rewrite Hc in Hc'. discriminate. }
  pose proof (constant_test a c Hc) as Hconst.
  assert (Hsame : forall c', Call.constant a c' -> c' = c).
  { intros c' [Hc' _]. rewrite Hc in Hc'. congruence. }
  destruct (Call.isNumber (Call.type a)); cbn [negb orb].
  2: { split; split; try discriminate; try reflexivity.
       - intros _ [H _]. discriminate.
       - intros [H _]. discriminate. }
  destruct (negb (Nat.eqb (Call.size c) 1) && negb (Call.isColumnConst c)).
  { split; split; try discriminate; try reflexivity.
    - intros _ (_ & c' & Hc'). rewrite (Hsame c' Hc') in Hc'.
      apply Hconst in Hc'. discriminate.
    - intros (_ & c' & Hc' & _). rewrite (Hsame c' Hc') in Hc'.
      apply Hconst in Hc'. discriminate. }
  assert (Hwell : Call.constant a c) by (apply Hconst; reflexivity).
  destruct (Z_lt_dec (Call.getInt c) 0) as [Hlo | Hlo];
    [ | destruct (Z_lt_dec 9 (Call.getInt c)) as [Hhi | Hhi] ].
  - rewrite (extractPrecision_out_of_bound name _ (or_introl Hlo)).
    split; split; try discriminate; try reflexivity.
    + intros H. elim H. split; [ reflexivity | exists c; exact Hwell ].
    + intros _. split; [ reflexivity | ]. exists c. split; [ exact Hwell | lia ].
  - rewrite (extractPrecision_out_of_bound name _ (or_intror Hhi)).
    split; split; try discriminate; try reflexivity.
    + intros H. elim H. split; [ reflexivity | exists c; exact Hwell ].
    + intros _. split; [ reflexivity | ]. exists c. split; [ exact Hwell | lia ].
  - rewrite (extractPrecision_ok name (Call.getInt c)) by lia.
    split; split; try discriminate.
    + intros H. elim H. split; [ reflexivity | exists c; exact Hwell ].
    + intros (_ & c' & Hc' & Hout). rewrite (Hsame c' Hc') in Hout. lia.
Qed.

Lemma extractPrecision_spec_witness :
  Call.extractPrecision "makeDateTime64" (number_column [5]) = Ok 5 /\
  Call.extractPrecision "makeDateTime64" (number_column [5; 5]) =
  Throw {| code := ILLEGAL_TYPE_OF_ARGUMENT;
           message := "Argument 'precision' for function makeDateTime64 must be constant number" |}.
Proof.
  destruct (extractPrecision_spec "makeDateTime64" (number_column [5])) as (Hok & _).
  destruct (extractPrecision_spec "makeDateTime64" (number_column [5; 5]))
    as (_ & Hillegal & _).
  split.
  - apply Hok. split; [ reflexivity | ].
    exists {| Call.size := 1; Call.isColumnConst := false;
              Call.getInt := 5; Call.getDataAt := EmptyString |}.
    split; [ split; [ reflexivity | left; reflexivity ] | ].
    split; [ reflexivity | cbn; lia ].
  - apply Hillegal. intros (_ & c & [Hc [Hsize | Hconst]]);
      cbn in Hc; injection Hc as <-; discriminate.
Defined.

(** X15.  [extractTimezone] returns the text of the first cell of the
    argument exactly when the argument has a String or FixedString type and
    a column of one row or a constant column; in every other case, a missing
    column included, it throws ILLEGAL_TYPE_OF_ARGUMENT with a message that
    names the function. *)
Theorem extractTimezone_spec (name : string) (a : Call.ColumnWithTypeAndName) :
  let well_typed :=
    Call.isStringOrFixedString (Call.type a) = true /\ exists c, Call.constant a c in
  (forall timezone,
     Call.extractTimezone name a = Ok timezone <->
     Call.isStringOrFixedString (Call.type a) = true /\
     exists c, Call.constant a c /\ Call.getDataAt c = timezone) /\
  (Call.extractTimezone name a =
   Throw {| code := ILLEGAL_TYPE_OF_ARGUMENT;
            message := ("Argument 'timezone' for function " ++ name
                        ++ " must be const string")%string |} <->
   ~ well_typed) /\
  (well_typed \/
   Call.extractTimezone name a =
   Throw {| code := ILLEGAL_TYPE_OF_ARGUMENT;
            message := ("Argument 'timezone' for function " ++ name
                        ++ " must be const string")%string |}).
Proof.
  intros well_typed. split; [ intros timezone; apply Call_extractTimezone_Ok | ].
  unfold well_typed, Call.extractTimezone.
  destruct (Call.column a) as [c | ] eqn:Hc.
  2: { split; [ split; [ | reflexivity ] | right; reflexivity ].
       intros _ (_ & c & [Hc' _]). rewrite Hc in Hc'. discriminate. }
  pose proof (constant_test a c Hc) as Hconst.
  assert (Hsame : forall c', Call.constant a c' -> c' = c).
  { intros c' [Hc' _]. rewrite Hc in Hc'. congruence. }
  destruct (Call.isStringOrFixedString (Call.type a)); cbn [negb orb].
  2: { split; [ split; [ | reflexivity ] | right; reflexivity ].
       intros _ [H _]. discriminate. }
  destruct (negb (Nat.eqb (Call.size c) 1) && negb (Call.isColumnConst c)).
  { split; [ split; [ | reflexivity ] | right; reflexivity ].
    intros _ (_ & c' & Hc'). rewrite (Hsame c' Hc') in Hc'.
    apply Hconst in Hc'. discriminate. }
  assert (Hwell : Call.constant a c) by (apply Hconst; reflexivity).
  split; [ split; [ discriminate | ] | left ].
  - intros H. elim H. split; [ reflexivity | exists c; exact Hwell ].
  - split; [ reflexivity | exists c; exact Hwell ].
Qed.

Lemma extractTimezone_spec_witness :
  Call.extractTimezone "makeDateTime" (const_string 3 "UTC") = Ok "UTC"%string /\
  Call.extractTimezone "makeDateTime" (const_number 3 1) =
  Throw {| code := ILLEGAL_TYPE_OF_ARGUMENT;
           message := "Argument 'timezone' for function makeDateTime must be const string" |}.
Proof.
  destruct (extractTimezone_spec "makeDateTime" (const_string 3 "UTC")) as (Hok & _).
  destruct (extractTimezone_spec "makeDateTime" (const_number 3 1)) as (_ & Hillegal & _).
  split.
  - apply Hok. split; [ reflexivity | ].
    exists {| Call.size := 3; Call.isColumnConst := true;
              Call.getInt := 0; Call.getDataAt := "UTC" |}.
    split; [ split; [ reflexivity | right; reflexivity ] | reflexivity ].
  - apply Hillegal. intros [H _]. discriminate H.
Defined.

(** ** The type of a call and its execution *)

Lemma nth_map_seq {B} (f : nat -> B) (d : B) (n i : nat) :
  (i < n)%nat -> nth i (map f (seq 0 n)) d = f i.
Proof.
  intros Hi. rewrite (nth_indep _ d (f 0%nat)) by (rewrite length_map, length_seq; exact Hi).
  rewrite (map_nth f (seq 0 n) 0%nat i), seq_nth by exact Hi. reflexivity.
Qed.

Ltac bind_cases H :=
  repeat match type of H with
         | bind ?r _ = Ok _ =>
             let E := fresh "E" in
             destruct r eqn:E; cbn [bind] in H; [ | discriminate H ]
         end.

(** X16.  For makeDateTime and makeDateTime64, a call whose type
    [getReturnTypeImpl] has resolved is executed without an exception, with
    the time zone and the precision of the type: [executeImpl] returns
    [input_rows_count] cells, each the row of the function in the table of
    that time zone (and at that precision).  The precision of the type is in
    [0,9] and is 3 when the call has fewer than eight arguments; the time
    zone is read from the last argument only when all of the optional
    arguments are given (seven arguments for makeDateTime, nine for
    makeDateTime64) and is the empty name of the server's time zone
    otherwise. *)
Theorem field_constructors_execute_as_typed
    (validateFunctionArguments : Call.Validator) (instance : DateLUT)
    (arguments : Call.ColumnsWithTypeAndName) :
  let rows :=
    Call.fields_at
      (Call.convertMandatoryArguments Call.Float32_cells arguments Call.field_names) in
  (forall ty,
     Call.makeDateTime_getReturnTypeImpl validateFunctionArguments arguments = Ok ty ->
     exists timezone,
       ty = Call.DataTypeDateTime timezone /\
       (List.length arguments <> 7%nat -> timezone = EmptyString) /\
       forall input_rows_count, exists cells,
         Call.makeDateTime_executeImpl instance arguments input_rows_count = Ok cells /\
         List.length cells = input_rows_count /\
         forall i, (i < input_rows_count)%nat ->
           nth i cells 0 = FunctionMakeDateTime.row (instance timezone) (rows i)) /\
  (forall ty,
     Call.makeDateTime64_getReturnTypeImpl validateFunctionArguments arguments = Ok ty ->
     exists precision timezone,
       ty = Call.DataTypeDateTime64 precision timezone /\
       0 <= precision <= 9 /\
       ((List.length arguments < 8)%nat -> precision = 3) /\
       (List.length arguments <> 9%nat -> timezone = EmptyString) /\
       forall input_rows_count, exists cells,
         Call.makeDateTime64_executeImpl instance arguments input_rows_count = Ok cells /\
         List.length cells = input_rows_count /\
         forall i, (i < input_rows_count)%nat ->
           nth i cells 0 =
           FunctionMakeDateTime64.row (instance timezone) precision (rows i)
             (if Nat.leb 7 (List.length arguments)
              then Some (nth i (Call.Float64_cells (Call.at_index arguments 6)) S754_nan)
              else None)).
Proof.
  intros rows. split.
  - intros ty H. unfold Call.makeDateTime_getReturnTypeImpl in H.
    bind_cases H. injection H as <-. rename a0 into timezone.
    exists timezone. split; [ reflexivity | ]. split.
    + intros Hlen. change (List.length Call.field_names + 1)%nat with 7%nat in E0.
      apply Nat.eqb_neq in Hlen. rewrite Hlen in E0.
      injection E0 as <-. reflexivity.
    + intros input_rows_count. unfold Call.makeDateTime_executeImpl.
      rewrite E0. cbn [bind]. eexists. split; [ reflexivity | ].
      split; [ rewrite length_map, length_seq; reflexivity | ].
      intros i Hi. rewrite (nth_map_seq _ 0 _ _ Hi). reflexivity.
  - intros ty H. unfold Call.makeDateTime64_getReturnTypeImpl in H.
    bind_cases H. injection H as <-. rename a1 into precision, a2 into timezone.
    exists precision, timezone. split; [ reflexivity | ].
    change (List.length Call.field_names + 1)%nat with 7%nat in *.
    change (List.length Call.field_names + 2)%nat with 8%nat in *.
    change (List.length Call.field_names + 3)%nat with 9%nat in *.
    change (List.length Call.field_names) with 6%nat in *.
    split; [ | split; [ | split ] ].
    + destruct (Nat.leb 8 (List.length arguments)).
      * apply Call_extractPrecision_Ok in E1.
        destruct E1 as (_ & c & _ & _ & Hp). exact Hp.
      * injection E1 as <-. unfold FunctionDateTimeBase.DEFAULT_PRECISION. lia.
    + intros Hlen. apply Nat.leb_gt in Hlen. rewrite Hlen in E1.
      injection E1 as <-. reflexivity.
    + intros Hlen. apply Nat.eqb_neq in Hlen. rewrite Hlen in E2.
      injection E2 as <-. reflexivity.
    + intros input_rows_count. unfold Call.makeDateTime64_executeImpl.
      change (List.length Call.field_names + 1)%nat with 7%nat.
      change (List.length Call.field_names + 2)%nat with 8%nat.
      change (List.length Call.field_names + 3)%nat with 9%nat.
      change (List.length Call.field_names) with 6%nat.
      rewrite E1. cbn [bind]. rewrite E2. cbn [bind].
      eexists. split; [ reflexivity | ].
      split; [ rewrite length_map, length_seq; reflexivity | ].
      intros i Hi. rewrite (nth_map_seq _ 0 _ _ Hi).
      destruct (Nat.leb 7 (List.length arguments)); reflexivity.
Qed.

Lemma field_constructors_execute_as_typed_witness :
  exists cells,
    Call.makeDateTime64_executeImpl Gregorian.instance
      [number_column [2023]; number_column [5]; number_column [15];
       number_column [10]; number_column [30]; number_column [45];
       number_column [779]; const_number 1 5] 1 = Ok cells /\
    nth 0 cells 0 = 168414664500779.
Proof.
  destruct (proj2 (field_constructors_execute_as_typed accept_all Gregorian.instance
                     [number_column [2023]; number_column [5]; number_column [15];
                      number_column [10]; number_column [30]; number_column [45];
                      number_column [779]; const_number 1 5])
              (Call.DataTypeDateTime64 5 EmptyString) eq_refl)
    as (precision & timezone & Hty & _ & _ & _ & Hexec).
  injection Hty as <- <-.
  destruct (Hexec 1%nat) as (cells & Hcells & _ & Hrow).
  exists cells. split; [ exact Hcells | ].
  rewrite (Hrow 0%nat (Nat.lt_0_succ 0)). reflexivity.
Defined.

Lemma for_rows_map {A B C} (f : A -> B) (body : B -> result C) (rows : list A) :
  for_rows (fun r => body (f r)) rows = for_rows body (map f rows).
Proof.
  induction rows as [ | r rows IH ]; cbn [for_rows map]; [ reflexivity | ].
  rewrite IH. reflexivity.
Qed.

(** X17.  For YYYYMMDDhhmmssToDateTime and YYYYMMDDhhmmssToDateTime64, a call
    whose type [getReturnTypeImpl] has resolved is executed with the time
    zone and the precision of the type, and the only exception left is the
    BAD_ARGUMENTS of a cell that is infinite or NaN: [executeImpl] returns
    the rows of the finite cells in the table of the time zone (at the
    precision of the type), or throws that exception.  The precision of the
    type is in [0,9], and 3 for a call of one argument; the time zone is
    read from the last argument only when all of the optional arguments are
    given. *)
Theorem packed_constructors_execute_as_typed
    (validateFunctionArguments : Call.Validator) (instance : DateLUT)
    (arguments : Call.ColumnsWithTypeAndName) :
  let data input_rows_count :=
    map (Call.cell
           (Call.convertMandatoryArguments Call.Float64_cells arguments
              Call.packed_names) 0)
        (seq 0 input_rows_count) in
  (forall ty,
     Call.YYYYMMDDhhmmssToDateTime_getReturnTypeImpl validateFunctionArguments arguments
     = Ok ty ->
     exists timezone,
       ty = Call.DataTypeDateTime timezone /\
       (List.length arguments <> 2%nat -> timezone = EmptyString) /\
       forall input_rows_count,
         Call.YYYYMMDDhhmmssToDateTime_executeImpl instance arguments input_rows_count =
         if forallb IEEE.is_finite (data input_rows_count)
         then Ok (map (FunctionYYYYMMDDhhmmssToDateTime.date_time (instance timezone))
                      (data input_rows_count))
         else Throw (must_be_finite FunctionYYYYMMDDhhmmssToDateTime.name)) /\
  (forall ty,
     Call.YYYYMMDDhhmmssToDateTime64_getReturnTypeImpl validateFunctionArguments arguments
     = Ok ty ->
     exists precision timezone,
       ty = Call.DataTypeDateTime64 precision timezone /\
       0 <= precision <= 9 /\
       ((List.length arguments < 2)%nat -> precision = 3) /\
       (List.length arguments <> 3%nat -> timezone = EmptyString) /\
       forall input_rows_count,
         Call.YYYYMMDDhhmmssToDateTime64_executeImpl instance arguments input_rows_count =
         if forallb IEEE.is_finite (data input_rows_count)
         then Ok (map (FunctionYYYYMMDDhhmmssToDateTime64.value (instance timezone)
                         precision)
                      (data input_rows_count))
         else Throw (must_be_finite FunctionYYYYMMDDhhmmssToDateTime64.name)).
Proof.
  intros data. split.
  - intros ty H. unfold Call.YYYYMMDDhhmmssToDateTime_getReturnTypeImpl in H.
    bind_cases H. injection H as <-. rename a0 into timezone.
    change (List.length Call.packed_names + 1)%nat with 2%nat in *.
    exists timezone. split; [ reflexivity | ]. split.
    + intros Hlen. apply Nat.eqb_neq in Hlen. rewrite Hlen in E0.
      injection E0 as <-. reflexivity.
    + intros input_rows_count. unfold Call.YYYYMMDDhhmmssToDateTime_executeImpl.
      change (List.length Call.packed_names + 1)%nat with 2%nat.
      rewrite E0. cbn [bind]. rewrite for_rows_map. fold (data input_rows_count).
      apply (YYYYMMDDhhmmssToDateTime_call (fun _ => instance timezone) None).
  - intros ty H. unfold Call.YYYYMMDDhhmmssToDateTime64_getReturnTypeImpl in H.
    bind_cases H. injection H as <-. rename a0 into precision, a1 into timezone.
    change (List.length Call.packed_names + 1)%nat with 2%nat in *.
    change (List.length Call.packed_names + 2)%nat with 3%nat in *.
    change (List.length Call.packed_names) with 1%nat in *.
    exists precision, timezone. split; [ reflexivity | ].
    assert (Hp : 0 <= precision <= 9).
    { destruct (Nat.leb 2 (List.length arguments)).
      - apply Call_extractPrecision_Ok in E0.
        destruct E0 as (_ & c & _ & _ & Hp). exact Hp.
      - injection E0 as <-. unfold FunctionDateTimeBase.DEFAULT_PRECISION. lia. }
    split; [ exact Hp | ]. split; [ | split ].
    + intros Hlen. apply Nat.leb_gt in Hlen. rewrite Hlen in E0.
      injection E0 as <-. reflexivity.
    + intros Hlen. apply Nat.eqb_neq in Hlen. rewrite Hlen in E1.
      injection E1 as <-. reflexivity.
    + intros input_rows_count. unfold Call.YYYYMMDDhhmmssToDateTime64_executeImpl.
      change (List.length Call.packed_names + 1)%nat with 2%nat.
      change (List.length Call.packed_names + 2)%nat with 3%nat.
      change (List.length Call.packed_names) with 1%nat.
      rewrite E0. cbn [bind]. rewrite E1. cbn [bind].
      rewrite for_rows_map. fold (data input_rows_count).
      pose proof (YYYYMMDDhhmmssToDateTime64_call (fun _ => instance timezone)
                    (Some precision) None (data input_rows_count)) as Hcall.
      unfold FunctionYYYYMMDDhhmmssToDateTime64.executeImpl in Hcall.
      rewrite (extractPrecision_ok _ _ Hp) in Hcall. cbn [bind] in Hcall.
      apply Hcall. intros p' [= <-]. exact Hp.
Qed.

Lemma packed_constructors_execute_as_typed_witness :
  Call.YYYYMMDDhhmmssToDateTime64_executeImpl Gregorian.instance
    [number_column [20230911131415; 20230911131416]; const_number 2 3] 2 =
  Ok [1694438055000; 1694438056000].
Proof.
  destruct (proj2 (packed_constructors_execute_as_typed accept_all Gregorian.instance
                     [number_column [20230911131415; 20230911131416]; const_number 2 3])
              (Call.DataTypeDateTime64 3 EmptyString) eq_refl)
    as (precision & timezone & Hty & _ & _ & _ & Hexec).
  injection Hty as <- <-.
  rewrite (Hexec 2%nat). reflexivity.
Defined.

(** ** Rounding errors of the packed number with a fraction *)

(** The rounded number is within one half of the number. *)
Lemma round_half_away_error (n : Z) (d : positive) :
  2 * Z.abs (n - IEEE.round_half_away (n # d) * Zpos d) <= Zpos d.
Proof.
  unfold IEEE.round_half_away. cbn [Qnum Qden].
  pose proof (Z.div_mod (2 * Z.abs n + Zpos d) (2 * Zpos d) ltac:(lia)) as Hdiv.
  pose proof (Z.mod_pos_bound (2 * Z.abs n + Zpos d) (2 * Zpos d) ltac:(lia)) as Hmod.
  set (t := (2 * Z.abs n + Zpos d) / (2 * Zpos d)) in *.
  set (rem := (2 * Z.abs n + Zpos d) mod (2 * Zpos d)) in *.
  clearbody t rem.
  destruct n as [ | p | p ]; cbn [Z.sgn Z.abs] in *; nia.
Qed.

(** The value of a finite cell as a fraction with a power of two below. *)
Lemma F2Q_fraction (s : bool) (m : positive) (e : Z) :
  let j := Z.max 0 (- e) in
  Qnum (IEEE.F2Q (S754_finite s m e)) = cond_Zopp s (Zpos m) * 2 ^ (e + j) /\
  Zpos (Qden (IEEE.F2Q (S754_finite s m e))) = 2 ^ j.
Proof.
  unfold IEEE.F2Q. destruct e as [ | p | p ]; cbn [Qnum Qden inject_Z Z.max Z.opp].
  - split; reflexivity.
  - rewrite Z.max_l by lia. rewrite Z.add_0_r. split; reflexivity.
  - rewrite Z.max_r by lia. replace (Zneg p + Zpos p) with 0 by lia.
    split; [ lia | apply Pos2Z.inj_pow ].
Qed.

Lemma Zdigits2_le (z n : Z) : 0 <= n -> Z.abs z < 2 ^ n -> Zdigits2 z <= n.
Proof.
  intros Hn Hz. destruct z as [ | p | p ]; cbn [Zdigits2 Z.abs] in *;
    [ exact Hn | apply digits2_pos_le; assumption | apply digits2_pos_le; assumption ].
Qed.

Lemma SFsub_zero_difference (prec emax : Z) (sx sy : bool) (mx my : positive) (ex ey : Z) :
  let ez := Z.min ex ey in
  cond_Zopp sx (Zpos mx * 2 ^ (ex - ez)) - cond_Zopp sy (Zpos my * 2 ^ (ey - ez)) = 0 ->
  SFsub prec emax (S754_finite sx mx ex) (S754_finite sy my ey) = S754_zero false.
Proof.
  intros ez H. unfold SFsub. fold ez.
  destruct (shl_align_spec mx ex ez ltac:(subst ez; lia)) as (mx' & -> & Hmx' & _).
  destruct (shl_align_spec my ey ez ltac:(subst ez; lia)) as (my' & -> & Hmy' & _).
  cbn [fst]. rewrite Hmx', Hmy'.
  set (d := Z.sub _ _). assert (Hd : d = 0) by (subst d; exact H).
  rewrite Hd. reflexivity.
Qed.

(** The subtraction of the rounded number from a cell is exact. *)
Lemma residue_exact (x : spec_float) :
  IEEE.is_Float64 x = true -> IEEE.is_finite x = true ->
  Z.abs (IEEE.round_half_away (IEEE.F2Q x)) < 2 ^ 53 ->
  let residue := FunctionYYYYMMDDhhmmssToDateTime64.decimal x in
  IEEE.llround x = IEEE.round_half_away (IEEE.F2Q x) /\
  IEEE.is_finite residue = true /\
  (IEEE.F2Q residue == IEEE.F2Q x - inject_Z (IEEE.llround x))%Q.
Proof.
  intros Hv Hf Hr residue.
  assert (Hll : IEEE.llround x = IEEE.round_half_away (IEEE.F2Q x)).
  { apply llround_in_range; [ exact Hf | ].
    unfold Int.INT64_MIN, Int.INT64_MAX.
    change (2 ^ 53) with 9007199254740992 in Hr.
    change (2 ^ 63) with 9223372036854775808. lia. }
  split; [ exact Hll | ]. subst residue.
  unfold FunctionYYYYMMDDhhmmssToDateTime64.decimal. rewrite Hll.
  destruct x as [s | s | | s m e]; try discriminate.
  { destruct s; split; reflexivity. }
  destruct (Float64_finite_bounds s m e Hv) as [He Hm].
  destruct (F2Q_fraction s m e) as [HN HD].
  set (j := Z.max 0 (- e)) in *.
  destruct (IEEE.F2Q (S754_finite s m e)) as [M Dp] eqn:HF.
  cbn [Qnum Qden] in HN, HD.
  pose proof (round_half_away_error M Dp) as Herr.
  set (r := IEEE.round_half_away (M # Dp)) in *.
  rewrite HD in Herr.
  pose proof (pow2_pos j ltac:(lia)) as HDpos.
  set (D := 2 ^ j) in *.
  destruct (Z.eq_dec r 0) as [H0 | H0].
  { rewrite H0.
    change (IEEE.sub64 (S754_finite s m e) (IEEE.Float64_of_Z 0))
      with (S754_finite s m e).
    split; [ reflexivity | ]. rewrite HF. ring. }
  destruct (of_Z_exact 53 1024 ltac:(lia) ltac:(lia) r Hr H0)
    as (my & ey & Hy & Hey & Hmy & Hmyb).
  unfold IEEE.Float64_of_Z. rewrite Hy.
  assert (Hcy : cond_Zopp (r <? 0) (Zpos my) = r * 2 ^ (- ey)).
  { rewrite Hmy. destruct (r <? 0) eqn:Hs;
      [ apply Z.ltb_lt in Hs; rewrite Z.abs_neq by lia
      | apply Z.ltb_ge in Hs; rewrite Z.abs_eq by lia ]; cbn [cond_Zopp]; ring. }
  assert (Hyv : (IEEE.F2Q (S754_finite (r <? 0) my ey) == inject_Z r)%Q)
    by (apply F2Q_integer; assumption).
  change (2 ^ 53) with 9007199254740992 in *.
  assert (HabsM : Z.abs M = Zpos m * 2 ^ (e + j))
    by (rewrite HN; destruct s; cbn [cond_Zopp]; lia).
  assert (HMD : D <= 2 * Z.abs M) by nia.
  assert (Hj : j < 54).
  { destruct (Z_lt_le_dec e 0) as [Hneg | Hpos]; [ | subst j; lia ].
    assert (e + j = 0) by (subst j; lia).
    replace (e + j) with 0 in HabsM by lia. rewrite Z.pow_0_r, Z.mul_1_r in HabsM.
    apply (Z.pow_lt_mono_r_iff 2); [ lia | lia | ].
    change (2 ^ 54) with 18014398509481984. fold D. lia. }
  assert (Hey' : - ey < 53).
  { apply (Z.pow_lt_mono_r_iff 2); [ lia | lia | ].
    pose proof (pow2_pos (- ey) ltac:(lia)). change (2 ^ 53) with 9007199254740992. nia. }
  pose proof (SFsub_value 53 1024 s (r <? 0) m my e ey) as Hsub.
  pose proof (SFsub_zero_difference 53 1024 s (r <? 0) m my e ey) as Hzero.
  cbv zeta in Hsub, Hzero.
  set (ez := Z.min e ey) in *.
  set (Dz := Z.sub _ _) in Hsub.
  assert (Hez : - 53 <= ez <= - j /\ ez <= ey /\ ez <= e) by (subst ez j; lia).
  set (P := 2 ^ (- j - ez)) in *.
  pose proof (pow2_pos (- j - ez) ltac:(lia)) as HP. fold P in HP.
  assert (HDP : 2 ^ (- ey) * 2 ^ (ey - ez) = D * P).
  { subst D P. rewrite <- !Z.pow_add_r by lia. f_equal. lia. }
  assert (HMP : cond_Zopp s (Zpos m * 2 ^ (e - ez)) = M * P).
  { rewrite HN. subst P. replace (e - ez) with ((e + j) + (- j - ez)) by lia.
    rewrite Z.pow_add_r by lia. destruct s; cbn [cond_Zopp]; ring. }
  assert (HDz : Dz = (M - r * D) * P).
  { subst Dz. rewrite HMP.
    replace (cond_Zopp (r <? 0) (Zpos my * 2 ^ (ey - ez)))
      with (cond_Zopp (r <? 0) (Zpos my) * 2 ^ (ey - ez))
      by (destruct (r <? 0); cbn [cond_Zopp]; ring).
    rewrite Hcy, <- Z.mul_assoc, HDP. ring. }
  destruct (Z.eq_dec (M - r * D) 0) as [HE | HE].
  - assert (HDz0 : Dz = 0) by (rewrite HDz, HE; ring).
    unfold IEEE.sub64. rewrite Hzero by exact HDz0.
    split; [ reflexivity | ].
    unfold Qeq, Qminus, Qplus, Qopp, inject_Z. cbn [Qnum Qden IEEE.F2Q].
    rewrite HD. lia.
  - assert (HDzbound : 2 * Z.abs Dz <= D * P).
    { rewrite HDz, Z.abs_mul, (Z.abs_eq P) by lia. nia. }
    assert (HDPbound : D * P <= 2 ^ 53).
    { rewrite <- HDP, <- Z.pow_add_r by lia. apply Z.pow_le_mono_r; lia. }
    change (2 ^ 53) with 9007199254740992 in HDPbound.
    assert (Hdig : Zdigits2 Dz <= 53).
    { apply Zdigits2_le; [ lia | ]. change (2 ^ 53) with 9007199254740992. lia. }
    assert (Hdig0 : 0 <= Zdigits2 Dz) by (destruct Dz; cbn; lia).
    destruct Hsub as (Hfin & Hsign & Hval).
    { rewrite HDz. nia. }
    { unfold fexp, emin. lia. }
    { unfold fexp, emin. lia. }
    unfold IEEE.sub64. split; [ exact Hfin | ].
    rewrite Hval, Hyv. rewrite <- HF. reflexivity.
Qed.

(** ** An upper bound of a rounded number *)

Lemma div_pow2_upper (x d k : Z) :
  0 <= k -> 0 <= x < 2 ^ d -> 0 <= d -> x / 2 ^ k + 1 <= 2 ^ Z.max (d - k) 0.
Proof.
  intros Hk Hx Hd. pose proof (pow2_pos k Hk) as Hpk.
  destruct (Z_le_gt_dec k d) as [Hle | Hgt].
  - rewrite Z.max_l by lia.
    assert (x / 2 ^ k < 2 ^ (d - k)); [ | lia ].
    apply Z.div_lt_upper_bound; [ exact Hpk | ].
    rewrite <- Z.pow_add_r by lia. replace (k + (d - k)) with d by lia. lia.
  - rewrite Z.max_r by lia. rewrite Z.div_small; [ cbn; lia | ].
    split; [ lia | ]. apply Z.lt_le_trans with (2 ^ d); [ lia | ].
    apply Z.pow_le_mono_r; lia.
Qed.

Section RoundingUpperBound.

Variables prec emax : Z.
Hypothesis Hprec : 0 < prec.
Variable sx : bool.
Variable mx : positive.
Variable ex : Z.

Let e' := fexp prec emax (Zpos (digits2_pos mx) + ex).

(** The rounding of [mx * 2^ex]: the number itself when its digits fit the
    precision, and otherwise a number that exceeds it by at most one unit
    of the exponent [e']. *)
Lemma binary_round_aux_upper :
  e' + 1 <= emax - prec -> ex <= emax - prec ->
  binary_round_aux prec emax sx (Zpos mx) ex loc_Exact = S754_zero sx \/
  exists m e,
    binary_round_aux prec emax sx (Zpos mx) ex loc_Exact = S754_finite sx m e /\
    ((e' <= ex /\ m = mx /\ e = ex) \/
     (ex < e' /\ ex <= e /\ Zpos m * 2 ^ (e - ex) <= Zpos mx + 2 ^ (e' - ex))).
Proof.
  intros He' Hex. pose proof (digits2_pos_bounds mx) as [Hlo Hhi].
  unfold binary_round_aux, shr_fexp. cbn [Zdigits2 shr_record_of_loc].
  fold e'.
  set (n1 := Z.sub e' ex).
  assert (Hn1 : n1 = e' - ex) by reflexivity.
  assert (Hemin : emin prec emax <= e') by (subst e'; unfold fexp; lia).
  destruct n1 as [ | k | k ].
  - (* no shift *)
    cbn [shr shr_m loc_of_shr_record round_nearest_even Zdigits2 shr_record_of_loc].
    fold e'. rewrite <- Hn1. cbn [shr shr_m].
    right. exists mx, ex. apply Z.leb_le in Hex. rewrite Hex.
    split; [ reflexivity | left; repeat split; lia ].
  - (* a shift by [k] digits *)
    cbn [shr].
    set (mrs := iter_pos shr_1 k _).
    assert (Hm : shr_m mrs = Zpos mx / 2 ^ Zpos k)
      by (unfold mrs; rewrite iter_shr_1_m by (cbn; lia); reflexivity).
    pose proof (pow2_pos (Zpos k) ltac:(lia)) as Hpk.
    assert (Hm0 : 0 <= shr_m mrs) by (rewrite Hm; apply Z.div_pos; lia).
    pose proof (round_nearest_even_bounds (shr_m mrs) (loc_of_shr_record mrs)) as Hr.
    set (m1 := round_nearest_even (shr_m mrs) (loc_of_shr_record mrs)) in *.
    assert (Hm1 : m1 * 2 ^ Zpos k <= Zpos mx + 2 ^ Zpos k).
    { pose proof (Z.mul_div_le (Zpos mx) (2 ^ Zpos k) Hpk). nia. }
    assert (Hm1d : m1 <= 2 ^ Z.max (Zpos (digits2_pos mx) - Zpos k) 0).
    { pose proof (div_pow2_upper (Zpos mx) (Zpos (digits2_pos mx)) (Zpos k)
                    ltac:(lia) ltac:(lia) ltac:(lia)). lia. }
    set (e1 := Z.add ex (Zpos k)).
    assert (He1 : e1 = e') by (subst e1; lia).
    destruct m1 as [ | p1 | p1 ]; [ | | lia ].
    + (* the rounded mantissa is 0 *)
      left. cbn [Zdigits2 shr_record_of_loc].
      set (n2 := Z.sub _ e1).
      assert (Hn2 : n2 <= 0) by (subst n2; unfold fexp, emin in *; lia).
      destruct n2 as [ | k2 | k2 ]; try lia; reflexivity.
    + cbn [Zdigits2 shr_record_of_loc].
      assert (Hd1 : Zpos (digits2_pos p1)
                    <= Z.max (Zpos (digits2_pos mx) - Zpos k) 0 + 1).
      { apply digits2_pos_le; [ lia | ].
        rewrite Z.pow_add_r by lia. change (2 ^ 1) with 2.
        pose proof (pow2_pos (Z.max (Zpos (digits2_pos mx) - Zpos k) 0) ltac:(lia)).
        lia. }
      set (n2 := Z.sub (fexp prec emax (Zpos (digits2_pos p1) + e1)) e1).
      assert (Hn2 : n2 = fexp prec emax (Zpos (digits2_pos p1) + e1) - e1) by reflexivity.
      assert (Hfe : fexp prec emax (Zpos (digits2_pos p1) + e1) <= e' + 1).
      { subst e'. unfold fexp, emin in *. lia. }
      destruct n2 as [ | k2 | k2 ]; cbn [shr shr_m].
      * right. exists p1, e1.
        replace (e1 <=? emax - prec) with true by (symmetry; apply Z.leb_le; lia).
        split; [ reflexivity | right ].
        replace (e1 - ex) with (Zpos k) by lia. replace (e' - ex) with (Zpos k) by lia.
        repeat split; lia.
      * set (mrs2 := iter_pos shr_1 k2 _).
        assert (Hm2 : shr_m mrs2 = Zpos p1 / 2 ^ Zpos k2)
          by (unfold mrs2; rewrite iter_shr_1_m by (cbn; lia); reflexivity).
        pose proof (pow2_pos (Zpos k2) ltac:(lia)) as Hpk2.
        pose proof (Z.mul_div_le (Zpos p1) (2 ^ Zpos k2) Hpk2) as Hle2.
        assert (Hm20 : 0 <= shr_m mrs2) by (rewrite Hm2; apply Z.div_pos; lia).
        destruct (shr_m mrs2) as [ | p2 | p2 ] eqn:Hp2; [ | | lia ].
        { left. reflexivity. }
        set (e2 := Z.add e1 (Zpos k2)).
        assert (He2 : e2 = e1 + Zpos k2) by reflexivity.
        replace (e2 <=? emax - prec) with true by (symmetry; apply Z.leb_le; lia).
        right. exists p2, e2. split; [ reflexivity | right ].
        replace (e2 - ex) with (Zpos k2 + Zpos k) by lia.
        replace (e' - ex) with (Zpos k) by lia.
        rewrite Z.pow_add_r by lia.
        repeat split; try lia. nia.
      * right. exists p1, e1.
        replace (e1 <=? emax - prec) with true by (symmetry; apply Z.leb_le; lia).
        split; [ reflexivity | right ].
        replace (e1 - ex) with (Zpos k) by lia. replace (e' - ex) with (Zpos k) by lia.
        repeat split; lia.
  - (* the exponent [e'] is below [ex] *)
    cbn [shr shr_m loc_of_shr_record round_nearest_even Zdigits2 shr_record_of_loc].
    fold e'. rewrite <- Hn1. cbn [shr shr_m].
    right. exists mx, ex. apply Z.leb_le in Hex. rewrite Hex.
    split; [ reflexivity | left; repeat split; lia ].
Qed.

End RoundingUpperBound.

(** ** The magnitude of a rounded cell *)

Lemma round_half_away_opp (n : Z) (d : positive) :
  IEEE.round_half_away (- n # d) = - IEEE.round_half_away (n # d).
Proof.
  unfold IEEE.round_half_away. cbn [Qnum Qden]. rewrite Z.sgn_opp, Z.abs_opp. ring.
Qed.

Lemma F2Q_negative (m : positive) (e : Z) :
  IEEE.F2Q (S754_finite true m e) =
  (- Qnum (IEEE.F2Q (S754_finite false m e)) # Qden (IEEE.F2Q (S754_finite false m e))).
Proof.
  unfold IEEE.F2Q, inject_Z.
  destruct e as [ | p | p ]; cbn [Qnum Qden cond_Zopp]; f_equal; lia.
Qed.

Lemma round_half_away_F2Q_sign (s : bool) (m : positive) (e : Z) :
  IEEE.round_half_away (IEEE.F2Q (S754_finite s m e)) =
  cond_Zopp s (IEEE.round_half_away (IEEE.F2Q (S754_finite false m e))).
Proof.
  destruct s; [ | reflexivity ].
  rewrite F2Q_negative, round_half_away_opp.
  destruct (IEEE.F2Q (S754_finite false m e)) as [n d]. reflexivity.
Qed.

Lemma F2Q_nonneg (m : positive) (e : Z) : (0 <= IEEE.F2Q (S754_finite false m e))%Q.
Proof.
  unfold IEEE.F2Q, Qle, inject_Z.
  destruct e as [ | p | p ]; cbn [Qnum Qden cond_Zopp].
  - lia.
  - pose proof (pow2_pos (Zpos p) ltac:(lia)). nia.
  - lia.
Qed.

(** The rounded value of a finite cell whose magnitude is below [c + 1/2]. *)
Lemma llround_magnitude (s : bool) (m : positive) (e : Z) (c : Z) :
  0 <= c <= Int.INT64_MAX ->
  (IEEE.F2Q (S754_finite false m e) < inject_Z c + (1 # 2))%Q ->
  let r := IEEE.round_half_away (IEEE.F2Q (S754_finite false m e)) in
  IEEE.llround (S754_finite s m e) = cond_Zopp s r /\ 0 <= r <= c.
Proof.
  intros Hc Hq r.
  pose proof (F2Q_nonneg m e) as H0.
  destruct (round_half_away_spec (IEEE.F2Q (S754_finite false m e))) as [Hpos _].
  destruct (Hpos H0) as [Hlo _]. fold r in Hlo.
  assert (Hr : 0 <= r <= c).
  { split.
    - apply round_half_away_ge. exact H0.
    - assert (Hlt : (inject_Z r - (1 # 2) < inject_Z c + (1 # 2))%Q)
        by (apply Qle_lt_trans with (1 := Hlo); exact Hq).
      unfold Qlt, Qminus, Qplus, Qopp, inject_Z in Hlt. cbn [Qnum Qden] in Hlt. lia. }
  split; [ | exact Hr ].
  unfold IEEE.llround. rewrite round_half_away_F2Q_sign. fold r.
  unfold Int.INT64_MIN, Int.INT64_MAX in *.
  replace ((- 2 ^ 63 <=? cond_Zopp s r) && (cond_Zopp s r <=? 2 ^ 63 - 1)) with true;
    [ reflexivity | ].
  symmetry. apply andb_true_iff.
  split; apply Z.leb_le; destruct s; cbn [cond_Zopp]; lia.
Qed.

(** A bound of the value of a cell, from a bound of its mantissa. *)
Lemma F2Q_lt_half (m : positive) (e c k : Z) :
  0 <= k -> 0 <= e + k ->
  2 * (Zpos m * 2 ^ (e + k)) < (2 * c + 1) * 2 ^ k ->
  (IEEE.F2Q (S754_finite false m e) < inject_Z c + (1 # 2))%Q.
Proof.
  intros Hk Hek H. pose proof (pow2_pos k Hk) as Hpk.
  unfold IEEE.F2Q. destruct e as [ | p | p ];
    unfold Qlt, Qplus, inject_Z; cbn [Qnum Qden cond_Zopp].
  - rewrite Z.add_0_l in H. rewrite Z.pow_0_r. nia.
  - rewrite Z.pow_add_r in H by lia. nia.
  - rewrite Pos2Z.inj_pow.
    assert (Hsplit : 2 ^ k = 2 ^ (Zneg p + k) * 2 ^ Zpos p).
    { rewrite <- Z.pow_add_r by lia. f_equal. lia. }
    pose proof (pow2_pos (Zneg p + k) Hek) as Hp1.
    rewrite Hsplit in H. nia.
Qed.

(** ** The residue and the fraction of a packed number *)

Lemma residue_magnitude (x : spec_float) (sr : bool) (mr : positive) (er : Z) :
  IEEE.is_Float64 x = true -> IEEE.is_finite x = true ->
  Z.abs (IEEE.round_half_away (IEEE.F2Q x)) < 2 ^ 53 ->
  FunctionYYYYMMDDhhmmssToDateTime64.decimal x = S754_finite sr mr er ->
  er < 0 /\ 2 * Zpos mr <= 2 ^ (- er) /\
  (sr = true -> (IEEE.F2Q x < inject_Z (IEEE.llround x))%Q) /\
  (sr = false -> (inject_Z (IEEE.llround x) < IEEE.F2Q x)%Q).
Proof.
  intros Hv Hf Hr Hres.
  destruct (residue_exact x Hv Hf Hr) as (Hll & _ & Hval).
  rewrite Hres, Hll in Hval. rewrite Hll. clear Hll Hres.
  destruct (F2Q_fraction sr mr er) as [HN HD].
  set (jr := Z.max 0 (- er)) in *.
  destruct (IEEE.F2Q (S754_finite sr mr er)) as [Nres Dres].
  cbn [Qnum Qden] in HN, HD.
  destruct (IEEE.F2Q x) as [N Dp].
  pose proof (round_half_away_error N Dp) as Herr.
  set (r := IEEE.round_half_away (N # Dp)) in *.
  unfold Qeq, Qminus, Qplus, Qopp, inject_Z in Hval. cbn [Qnum Qden] in Hval.
  rewrite Pos.mul_1_r, Z.mul_1_r, HN, HD in Hval.
  pose proof (pow2_pos (er + jr) ltac:(subst jr; lia)) as HA.
  pose proof (pow2_pos jr ltac:(subst jr; lia)) as HB.
  set (A := 2 ^ (er + jr)) in *. set (B := 2 ^ jr) in *.
  set (D := Zpos Dp) in *. assert (HDpos : 0 < D) by (subst D; lia).
  set (E := N - r * D) in *.
  assert (HE : cond_Zopp sr (Zpos mr) * A * D = E * B) by (subst E; lia).
  assert (Habs : Zpos mr * A * D = Z.abs E * B).
  { destruct sr; cbn [cond_Zopp] in HE.
    - assert (E < 0) by nia. rewrite Z.abs_neq by lia. lia.
    - assert (0 < E) by nia. rewrite Z.abs_eq by lia. lia. }
  assert (Hsmall : 2 * (Zpos mr * A) <= B) by nia.
  assert (Her : er < 0).
  { destruct (Z_lt_le_dec er 0) as [H | H]; [ exact H | exfalso ].
    assert (jr = 0) by (subst jr; lia).
    assert (B = 1) by (subst B; replace jr with 0 by lia; reflexivity). nia. }
  split; [ exact Her | ].
  assert (HA1 : A = 1) by (subst A jr; replace (er + Z.max 0 (- er)) with 0 by lia;
                           reflexivity).
  assert (HBe : B = 2 ^ (- er)) by (subst B jr; f_equal; lia).
  split; [ rewrite <- HBe; lia | ].
  unfold Qlt, inject_Z. cbn [Qnum Qden]. rewrite !Z.mul_1_r. fold D.
  split; intros ->; cbn [cond_Zopp] in HE; nia.
Qed.

Lemma half_of_successor (n : Z) : 0 <= n -> n <= 2 * ((n + 1) / 2) <= n + 1.
Proof.
  intros Hn. pose proof (Z.div_mod (n + 1) 2 ltac:(lia)).
  pose proof (Z.mod_pos_bound (n + 1) 2 ltac:(lia)). lia.
Qed.

(** The residue times the power of ten, rounded to an integer. *)
Lemma scaled_residue_bound (precision : Z) (sr : bool) (mr : positive) (er : Z) :
  0 <= precision <= 9 -> er < 0 -> 2 * Zpos mr <= 2 ^ (- er) ->
  let product :=
    IEEE.mul64 (S754_finite sr mr er) (IEEE.Float64_of_Z (10 ^ precision)) in
  Z.abs (IEEE.llround product) <= (10 ^ precision + 1) / 2 /\
  (sr = false -> 0 <= IEEE.llround product) /\
  (sr = true -> IEEE.llround product <= 0).
Proof.
  intros Hp Her Hmr product.
  pose proof (pow10_pos precision (proj1 Hp)) as Hpow.
  assert (Hpow9 : 10 ^ precision <= 10 ^ 9) by (apply Z.pow_le_mono_r; lia).
  change (10 ^ 9) with 1000000000 in Hpow9.
  pose proof (half_of_successor (10 ^ precision) ltac:(lia)) as Hc.
  set (c := (10 ^ precision + 1) / 2) in *.
  destruct (of_Z_exact 53 1024 ltac:(lia) ltac:(lia) (10 ^ precision))
    as (mT & eT & HT & HeT & HmT & HmTb);
    [ change (2 ^ 53) with 9007199254740992; lia | lia | ].
  rewrite Z.abs_eq in HmT by lia.
  replace (10 ^ precision <? 0) with false in HT by (symmetry; apply Z.ltb_ge; lia).
  subst product. unfold IEEE.Float64_of_Z. rewrite HT.
  unfold IEEE.mul64, SFmul. rewrite xorb_false_r.
  set (ex := Z.add er eT). assert (Hex : ex = er + eT) by reflexivity.
  pose proof (pow2_pos (- er) ltac:(lia)) as HPr.
  pose proof (pow2_pos (- eT) ltac:(lia)) as HPT.
  assert (Hsplit : 2 ^ (- ex) = 2 ^ (- er) * 2 ^ (- eT)).
  { rewrite <- Z.pow_add_r by lia. f_equal. lia. }
  pose proof (pow2_pos (- ex) ltac:(lia)) as HPx.
  assert (Hmx : 2 * Zpos (mr * mT) <= 10 ^ precision * 2 ^ (- ex)).
  { rewrite Pos2Z.inj_mul, Hsplit, HmT. nia. }
  pose proof (digits2_pos_bounds (mr * mT)) as [Hdlo _].
  set (d := Zpos (digits2_pos (mr * mT))) in *.
  assert (Hd : d + ex <= 29).
  { assert (Hlt : 2 ^ d < 2 ^ (30 - ex)).
    { replace d with (Z.succ (d - 1)) by lia. rewrite Z.pow_succ_r by (subst d; lia).
      replace (30 - ex) with (30 + - ex) by lia. rewrite Z.pow_add_r by lia.
      change (2 ^ 30) with 1073741824. nia. }
    apply Z.pow_lt_mono_r_iff in Hlt; lia. }
  pose proof (binary_round_aux_upper 53 1024 ltac:(lia) sr (mr * mT) ex) as Hup.
  cbv zeta in Hup. fold d in Hup.
  set (e' := fexp 53 1024 (d + ex)) in *.
  assert (He' : e' <= - 24) by (subst e'; unfold fexp, emin; lia).
  destruct Hup as [Hz | (m & e & Hfin & Hcase)]; [ lia | lia | | ].
  { rewrite Hz. cbn [IEEE.llround Z.abs]. lia. }
  rewrite Hfin.
  assert (Hq : (IEEE.F2Q (S754_finite false m e) < inject_Z c + (1 # 2))%Q).
  { apply (F2Q_lt_half m e c (- ex)); [ lia | | ].
    - destruct Hcase as [(_ & _ & ->) | (_ & He & _)]; lia.
    - destruct Hcase as [(_ & -> & ->) | (Hlt & He & Hm)].
      + replace (ex + - ex) with 0 by lia. rewrite Z.pow_0_r. nia.
      + replace (e + - ex) with (e - ex) by lia.
        assert (Hulp : 2 * 2 ^ (e' - ex) < 2 ^ (- ex)).
        { rewrite <- Z.pow_succ_r by lia. apply Z.pow_lt_mono_r; lia. }
        nia. }
  destruct (llround_magnitude sr m e c) as [Hll Hr]; [ | exact Hq | ].
  { unfold Int.INT64_MAX. change (2 ^ 63) with 9223372036854775808. lia. }
  rewrite Hll. split; [ | split ].
  - destruct sr; cbn [cond_Zopp]; lia.
  - intros ->. cbn [cond_Zopp]. lia.
  - intros ->. cbn [cond_Zopp]. lia.
Qed.

Lemma rounded_below_2_53 (x : spec_float) :
  Spec.in_range x (- 2 ^ 52) (2 ^ 52) ->
  Z.abs (IEEE.round_half_away (IEEE.F2Q x)) < 2 ^ 53.
Proof.
  intros (_ & Hlo & Hhi).
  pose proof (round_half_away_le _ _ Hhi). pose proof (round_half_away_ge _ _ Hlo).
  change (2 ^ 52) with 4503599627370496 in *.
  change (2 ^ 53) with 9007199254740992. lia.
Qed.

(** X18.  In YYYYMMDDhhmmssToDateTime64 the residue
    [float_date - yyyymmddhhmmss] is computed without a rounding error: for
    a Float64 cell between -2^52 and 2^52, the rounded number is the nearest
    integer (halfway cases away from zero), the residue is a finite cell
    whose value is exactly the cell minus the rounded number, and it lies
    in [-1/2, 1/2]. *)
Theorem YYYYMMDDhhmmssToDateTime64_residue_is_exact (x : IEEE.Float64) :
  IEEE.is_Float64 x = true -> Spec.in_range x (- 2 ^ 52) (2 ^ 52) ->
  let rounded := IEEE.llround x in
  let residue := FunctionYYYYMMDDhhmmssToDateTime64.decimal x in
  rounded = IEEE.round_half_away (IEEE.F2Q x) /\
  IEEE.is_finite residue = true /\
  (IEEE.F2Q residue == IEEE.F2Q x - inject_Z rounded)%Q /\
  (- (1 # 2) <= IEEE.F2Q residue)%Q /\ (IEEE.F2Q residue <= 1 # 2)%Q.
Proof.
  intros Hv Hin rounded residue.
  pose proof (rounded_below_2_53 x Hin) as Hr. destruct Hin as (Hf & _).
  destruct (residue_exact x Hv Hf Hr) as (Hll & Hfin & Hval).
  fold rounded in Hll, Hval. fold residue in Hfin, Hval.
  split; [ exact Hll | ]. split; [ exact Hfin | ]. split; [ exact Hval | ].
  rewrite Hval, Hll.
  destruct (round_half_away_spec (IEEE.F2Q x)) as [Hpos Hneg].
  set (r := IEEE.round_half_away (IEEE.F2Q x)) in *.
  assert (H : (inject_Z r - (1 # 2) <= IEEE.F2Q x)%Q /\
              (IEEE.F2Q x <= inject_Z r + (1 # 2))%Q).
  { destruct (Qlt_le_dec (IEEE.F2Q x) 0) as [Hq | Hq].
    - destruct (Hneg (Qlt_le_weak _ _ Hq)) as [H1 H2].
      split; [ apply Qlt_le_weak, H1 | exact H2 ].
    - destruct (Hpos Hq) as [H1 H2].
      split; [ exact H1 | apply Qlt_le_weak, H2 ]. }
  destruct (IEEE.F2Q x) as [n d]. destruct H as [H1 H2].
  unfold Qle, Qminus, Qplus, Qopp, inject_Z in *. cbn [Qnum Qden] in *.
  split; lia.
Qed.

Lemma YYYYMMDDhhmmssToDateTime64_residue_is_exact_witness :
  (IEEE.F2Q (FunctionYYYYMMDDhhmmssToDateTime64.decimal f64_20230911123456_75)
   == IEEE.F2Q f64_20230911123456_75 - inject_Z 20230911123457)%Q.
Proof.
  refine (proj1 (proj2 (proj2
    (YYYYMMDDhhmmssToDateTime64_residue_is_exact f64_20230911123456_75 _ _)))).
  - reflexivity.
  - unfold Spec.in_range. repeat split; vm_compute; congruence.
Defined.

(** X19.  The fraction of YYYYMMDDhhmmssToDateTime64 stays within half a
    unit of the seconds: for a Float64 cell between -2^52 and 2^52 and a
    precision in [0,9], the fraction [llround(decimal * fraction_pow)] is at
    most (10^precision + 1) / 2 in magnitude (10^precision / 2 from
    precision 1 on, 1 at precision 0); it is not negative when the cell was
    not rounded up and not positive when the cell was not rounded down. *)
Theorem YYYYMMDDhhmmssToDateTime64_fraction_within_half
    (precision : Z) (x : IEEE.Float64) :
  IEEE.is_Float64 x = true -> Spec.in_range x (- 2 ^ 52) (2 ^ 52) ->
  0 <= precision <= 9 ->
  let fraction := FunctionYYYYMMDDhhmmssToDateTime64.fraction precision x in
  Z.abs fraction <= (10 ^ precision + 1) / 2 /\
  ((inject_Z (IEEE.llround x) <= IEEE.F2Q x)%Q -> 0 <= fraction) /\
  ((IEEE.F2Q x <= inject_Z (IEEE.llround x))%Q -> fraction <= 0).
Proof.
  intros Hv Hin Hp fraction.
  pose proof (rounded_below_2_53 x Hin) as Hr. destruct Hin as (Hf & _).
  destruct (residue_exact x Hv Hf Hr) as (_ & Hfin & _).
  pose proof (residue_magnitude x) as Hmag.
  subst fraction.
  unfold FunctionYYYYMMDDhhmmssToDateTime64.fraction, DecimalUtils.exp10_i32.
  destruct (FunctionYYYYMMDDhhmmssToDateTime64.decimal x) as [sr | sr | | sr mr er];
    try discriminate.
  - pose proof (pow10_pos precision (proj1 Hp)) as Hpow.
    assert (Hpow9 : 10 ^ precision <= 10 ^ 9) by (apply Z.pow_le_mono_r; lia).
    change (10 ^ 9) with 1000000000 in Hpow9.
    destruct (of_Z_exact 53 1024 ltac:(lia) ltac:(lia) (10 ^ precision))
      as (mT & eT & HT & _);
      [ change (2 ^ 53) with 9007199254740992; lia | lia | ].
    unfold IEEE.Float64_of_Z. rewrite HT. cbn [IEEE.mul64 SFmul IEEE.llround Z.abs].
    pose proof (half_of_successor (10 ^ precision) ltac:(lia)). lia.
  - destruct (Hmag sr mr er Hv Hf Hr eq_refl) as (Her & Hmr & Hneg & Hpos).
    destruct (scaled_residue_bound precision sr mr er Hp Her Hmr) as (Habs & H0 & H1).
    split; [ exact Habs | ]. split; intros Hq.
    + apply H0. destruct sr; [ | reflexivity ].
      exfalso. apply (Qlt_not_le _ _ (Hneg eq_refl) Hq).
    + apply H1. destruct sr; [ reflexivity | ].
      exfalso. apply (Qlt_not_le _ _ (Hpos eq_refl) Hq).
Qed.

Lemma YYYYMMDDhhmmssToDateTime64_fraction_within_half_witness :
  Z.abs (FunctionYYYYMMDDhhmmssToDateTime64.fraction 3 f64_20230911123456_75) <= 500.
Proof.
  refine (proj1
    (YYYYMMDDhhmmssToDateTime64_fraction_within_half 3 f64_20230911123456_75 _ _ _)).
  - reflexivity.
  - unfold Spec.in_range. repeat split; vm_compute; congruence.
  - lia.
Defined.
